(** * The streaming process manager of the chat bridge

    A shallow embedding of [ProcessManager] (the bridge service that spawns
    one agent child process per message turn, turns its newline-delimited
    JSON stdout into events and answers its tool-permission requests), and
    of the part of the transcript route that maps tool uses to entries.

    JavaScript values that come from [JSON.parse] or are built as object
    literals are modelled by [JsValue]; the registry, the managed chat
    objects (held by reference in the event-handler closures), the child
    processes and the emitted events form the [World] that every operation
    transforms. *)

From Stdlib Require Import ZArith Ascii String List Bool Lia DecimalString.
From stdpp Require Import base option list gmap strings.

Local Open Scope string_scope.
Local Open Scope Z_scope.

(** ** JavaScript values *)

(** The characters of a number as JavaScript prints it *)
Inductive NumChar :=
| nc0 | nc1 | nc2 | nc3 | nc4 | nc5 | nc6 | nc7 | nc8 | nc9
| nc_dot | nc_e | nc_plus | nc_minus.

(** A number is held as the text JavaScript prints for it
    (Number::toString: [42], [0.5], [1e+21], [-3]), or is one of the two
    infinities, which [JSON.parse] gives for a literal beyond the range of
    a double.  [JSON.parse] gives no NaN, and two numbers are the same
    value exactly when they print alike ([0] and [-0] both print [0], and
    are the same key of a [Map]).  The manager never computes with a
    number: it tests it, compares it, and prints it. *)
Inductive Number :=
| num_finite (text : list NumChar)
| num_infinite (negative : bool).

(** A string is a sequence of 16-bit code units in JavaScript.  It is held
    as the bytes of its UTF-8 form, the form in which it crosses the pipes
    of the child; a surrogate that stands alone takes the three bytes of
    its code.  Lengths and positions are counted in code units (see
    [js_length] and [slice0]). *)
#[warnings="-register-all"]
Inductive JsValue : Type :=
| JUndefined
| JNull
| JBool (b : bool)
| JNum (n : Number)
| JStr (s : string)
| JArr (items : list JsValue)
| JObj (fields : list (string * JsValue)).

Section JsValue_induction.
Variable P : JsValue → Prop.
Hypothesis Hundef : P JUndefined.
Hypothesis Hnull : P JNull.
Hypothesis Hbool : ∀ b, P (JBool b).
Hypothesis Hnum : ∀ n, P (JNum n).
Hypothesis Hstr : ∀ s, P (JStr s).
Hypothesis Harr : ∀ items, Forall P items → P (JArr items).
Hypothesis Hobj : ∀ fields, Forall (λ kv, P (snd kv)) fields → P (JObj fields).

Fixpoint JsValue_nested_ind (v : JsValue) : P v :=
  match v with
  | JUndefined => Hundef
  | JNull => Hnull
  | JBool b => Hbool b
  | JNum n => Hnum n
  | JStr s => Hstr s
  | JArr items =>
      Harr items
        ((fix go (l : list JsValue) : Forall P l :=
            match l with
            | [] => Forall_nil_2 P
            | x :: l' => Forall_cons_2 P x l' (JsValue_nested_ind x) (go l')
            end) items)
  | JObj fields =>
      Hobj fields
        ((fix go (l : list (string * JsValue)) : Forall (λ kv, P (snd kv)) l :=
            match l with
            | [] => Forall_nil_2 _
            | kv :: l' =>
                Forall_cons_2 (λ kv, P (snd kv)) kv l'
                  (JsValue_nested_ind (snd kv)) (go l')
            end) fields)
  end.
End JsValue_induction.

Definition numchar_ascii (c : NumChar) : ascii :=
  match c with
  | nc0 => "0" | nc1 => "1" | nc2 => "2" | nc3 => "3" | nc4 => "4"
  | nc5 => "5" | nc6 => "6" | nc7 => "7" | nc8 => "8" | nc9 => "9"
  | nc_dot => "." | nc_e => "e" | nc_plus => "+" | nc_minus => "-"
  end%char.

(** Number::toString *)
Definition number_text (n : Number) : string :=
  match n with
  | num_finite text => string_of_list_ascii (map numchar_ascii text)
  | num_infinite false => "Infinity"
  | num_infinite true => "-Infinity"
  end.

(** A number in JSON text: an infinity is written as [null]. *)
Definition number_json (n : Number) : string :=
  match n with
  | num_finite _ => number_text n
  | num_infinite _ => "null"
  end.

(** The digits of a count.  JavaScript prints an integer below 10^21 in
    plain decimal; the counts of the manager are sizes of its own
    collections. *)
Fixpoint uint_number (d : Decimal.uint) : list NumChar :=
  match d with
  | Decimal.Nil => []
  | Decimal.D0 d' => nc0 :: uint_number d'
  | Decimal.D1 d' => nc1 :: uint_number d'
  | Decimal.D2 d' => nc2 :: uint_number d'
  | Decimal.D3 d' => nc3 :: uint_number d'
  | Decimal.D4 d' => nc4 :: uint_number d'
  | Decimal.D5 d' => nc5 :: uint_number d'
  | Decimal.D6 d' => nc6 :: uint_number d'
  | Decimal.D7 d' => nc7 :: uint_number d'
  | Decimal.D8 d' => nc8 :: uint_number d'
  | Decimal.D9 d' => nc9 :: uint_number d'
  end.

Definition js_count (n : nat) : JsValue :=
  JNum (num_finite (uint_number (Nat.to_uint n))).

(** Whether a value is an object (an array included), which JavaScript
    holds and compares by reference *)
Definition is_object (v : JsValue) : bool :=
  match v with
  | JArr _ | JObj _ => true
  | _ => false
  end.

(** SameValueZero on primitives: equality by value.  It is never asked
    about an object here (see [same_key]). *)
Definition prim_eqb (a b : JsValue) : bool :=
  match a, b with
  | JUndefined, JUndefined => true
  | JNull, JNull => true
  | JBool x, JBool y => Bool.eqb x y
  | JNum x, JNum y => String.eqb (number_text x) (number_text y)
  | JStr x, JStr y => String.eqb x y
  | _, _ => false
  end.

(** [v === 'literal'] *)
Definition strict_eq_str (v : JsValue) (s : string) : bool :=
  match v with
  | JStr t => String.eqb t s
  | _ => false
  end.

(** ToBoolean *)
Definition truthy (v : JsValue) : bool :=
  match v with
  | JUndefined | JNull => false
  | JBool b => b
  | JNum n => negb (String.eqb (number_text n) "0")
  | JStr s => negb (String.eqb s EmptyString)
  | JArr _ | JObj _ => true
  end.

Definition truthy_str (s : string) : bool := negb (String.eqb s EmptyString).

(** [a || b] on values *)
Definition js_or (a b : JsValue) : JsValue := if truthy a then a else b.

Fixpoint lookup_field (k : string) (fields : list (string * JsValue)) : JsValue :=
  match fields with
  | [] => JUndefined
  | (k', v) :: rest => if String.eqb k k' then v else lookup_field k rest
  end.

(** Whether an object has an own property [k] *)
Fixpoint has_field (k : string) (fields : list (string * JsValue)) : bool :=
  match fields with
  | [] => false
  | (k', _) :: rest => String.eqb k k' || has_field k rest
  end.

(** [v.k] for the property names the manager and its routes read
    ([type], [subtype], [message], [content], [request], [request_id],
    [tool_name], [tool_use_id], [input], [permission_suggestions], [text],
    [name], [id], [is_error], [behavior], [updated_input], [enabled],
    [subagent_type], [description], [prompt]): none is defined on a
    prototype, so only an object can carry one.  [None] is the TypeError
    raised on [null] and [undefined]. *)
Definition get_prop (v : JsValue) (k : string) : option JsValue :=
  match v with
  | JUndefined | JNull => None
  | JObj fields => Some (lookup_field k fields)
  | _ => Some JUndefined
  end.

(** [v?.k] *)
Definition opt_prop (v : JsValue) (k : string) : JsValue :=
  match get_prop v k with
  | Some x => x
  | None => JUndefined
  end.

(** ** Strings *)

Definition dquote : ascii := "034"%char.
Definition backslash : ascii := "092"%char.
Definition newline : ascii := "010"%char.

Definition str1 (c : ascii) : string := String c EmptyString.

(** A byte that continues a character of several bytes *)
Definition is_continuation (c : ascii) : bool :=
  (128 <=? N_of_ascii c)%N && (N_of_ascii c <? 192)%N.

(** The first byte of a character of four bytes, which is a pair of
    surrogates, two code units, in JavaScript *)
Definition is_lead4 (c : ascii) : bool := (240 <=? N_of_ascii c)%N.

(** [s.length]: the number of code units *)
Fixpoint js_length (s : string) : nat :=
  match s with
  | EmptyString => 0%nat
  | String c rest =>
      ((if is_continuation c then 0 else if is_lead4 c then 2 else 1)
       + js_length rest)%nat
  end.

(** The three bytes of a surrogate code unit *)
Definition surrogate_bytes (u : N) : string :=
  String (ascii_of_N 237)
    (String (ascii_of_N (128 + (u / 64) mod 64))
       (str1 (ascii_of_N (128 + u mod 64)))).

(** The two surrogates of the character whose four bytes are given *)
Definition high_surrogate (b0 b1 b2 : ascii) : N :=
  (55296 + ((N_of_ascii b0 mod 8) * 256 + (N_of_ascii b1 mod 64) * 4
            + (N_of_ascii b2 mod 64) / 16 - 64))%N.

Definition low_surrogate (b2 b3 : ascii) : N :=
  (56320 + ((N_of_ascii b2 mod 16) * 64 + N_of_ascii b3 mod 64))%N.

(** [s.slice(0, n)]: the first [n] code units.  A cut between the two
    surrogates of a character leaves the first one standing alone. *)
Fixpoint slice0 (n : nat) (s : string) : string :=
  match s with
  | EmptyString => EmptyString
  | String c rest =>
      if is_continuation c then String c (slice0 n rest)
      else
        match n with
        | 0%nat => EmptyString
        | S n' =>
            if is_lead4 c then
              match n' with
              | 0%nat =>
                  match rest with
                  | String b1 (String b2 _) =>
                      surrogate_bytes (high_surrogate c b1 b2)
                  | _ => EmptyString
                  end
              | S n'' => String c (slice0 n'' rest)
              end
            else String c (slice0 n' rest)
        end
  end.

Fixpoint drop_continuation (s : string) : string :=
  match s with
  | EmptyString => EmptyString
  | String c rest => if is_continuation c then drop_continuation rest else s
  end.

(** [s.slice(1)]: all but the first code unit.  Of a first character that
    is a pair of surrogates the second one stays, standing alone. *)
Definition slice_from_1 (s : string) : string :=
  match s with
  | EmptyString => EmptyString
  | String c rest =>
      if (N_of_ascii c <? 128)%N then rest
      else if is_lead4 c then
        match rest with
        | String _ (String b2 (String b3 rest')) =>
            surrogate_bytes (low_surrogate b2 b3) +:+ rest'
        | _ => EmptyString
        end
      else drop_continuation rest
  end.

(** The characters of a string, as its iterator yields them *)
Fixpoint characters (s : string) : list string :=
  match s with
  | EmptyString => []
  | String c rest =>
      match rest with
      | String c' _ =>
          if is_continuation c' then
            match characters rest with
            | x :: l => String c x :: l
            | [] => [str1 c]
            end
          else str1 c :: characters rest
      | EmptyString => [str1 c]
      end
  end.

(** [v[0]] on a value that is neither [null] nor [undefined] *)
Definition index0 (v : JsValue) : JsValue :=
  match v with
  | JArr (x :: _) => x
  | JStr (String c rest) => JStr (slice0 1 (String c rest))
  | JObj fields => lookup_field "0" fields
  | _ => JUndefined
  end.

(** The values a [for ... of] loop visits; [None] is the TypeError raised on
    a value that is not iterable. *)
Definition iterate (v : JsValue) : option (list JsValue) :=
  match v with
  | JArr items => Some items
  | JStr s => Some (map JStr (characters s))
  | _ => None
  end.

Fixpoint join (sep : string) (l : list string) : string :=
  match l with
  | [] => EmptyString
  | [x] => x
  | x :: rest => x +:+ sep +:+ join sep rest
  end.

(** What [join] and [String] put for the elements of an array; [None]
    when the conversion of an element throws *)
Fixpoint join_parts (l : list (option string)) : option (list string) :=
  match l with
  | [] => Some []
  | Some s :: rest =>
      match join_parts rest with
      | Some parts => Some (s :: parts)
      | None => None
      end
  | None :: _ => None
  end.

(** [String(v)], also the conversion inside a template literal.  [None]
    is the TypeError that the conversion of an object to a primitive
    throws when the object has an own property [toString]: a value made
    by [JSON.parse] holds no function, so that property is not callable,
    and [valueOf] (its own, or the inherited one, which returns the
    object) gives no primitive either.  An array is the join of its
    elements, [null] and [undefined] counting as empty. *)
Fixpoint js_String (v : JsValue) : option string :=
  match v with
  | JUndefined => Some "undefined"
  | JNull => Some "null"
  | JBool true => Some "true"
  | JBool false => Some "false"
  | JNum n => Some (number_text n)
  | JStr s => Some s
  | JArr items =>
      match join_parts
              ((fix go (l : list JsValue) : list (option string) :=
                  match l with
                  | [] => []
                  | x :: l' =>
                      match x with
                      | JUndefined | JNull => Some EmptyString
                      | _ => js_String x
                      end :: go l'
                  end) items) with
      | Some parts => Some (join "," parts)
      | None => None
      end
  | JObj fields =>
      if has_field "toString" fields then None else Some "[object Object]"
  end.

(** ** JSON.stringify *)

Definition hex_digit (n : N) : ascii :=
  match n with
  | 0%N => "0" | 1%N => "1" | 2%N => "2" | 3%N => "3" | 4%N => "4"
  | 5%N => "5" | 6%N => "6" | 7%N => "7" | 8%N => "8" | 9%N => "9"
  | 10%N => "a" | 11%N => "b" | 12%N => "c" | 13%N => "d" | 14%N => "e"
  | _ => "f"
  end%char.

(** QuoteJSONString, one byte of a character that is no surrogate *)
Definition escape_char (c : ascii) : string :=
  let n := N_of_ascii c in
  if (n =? 8)%N then String backslash "b"
  else if (n =? 9)%N then String backslash "t"
  else if (n =? 10)%N then String backslash "n"
  else if (n =? 12)%N then String backslash "f"
  else if (n =? 13)%N then String backslash "r"
  else if (n =? 34)%N then String backslash (str1 dquote)
  else if (n =? 92)%N then String backslash (str1 backslash)
  else if (n <? 32)%N then
    String backslash
      ("u00" +:+ String (hex_digit (n / 16)) (str1 (hex_digit (n mod 16))))
  else str1 c.

(** The first two bytes of a surrogate that stands alone *)
Definition is_surrogate (c c1 : ascii) : bool :=
  (N_of_ascii c =? 237)%N && (160 <=? N_of_ascii c1)%N && (N_of_ascii c1 <? 192)%N.

(** Its escape: the code unit in four hexadecimal digits *)
Definition escape_surrogate (c1 c2 : ascii) : string :=
  String backslash
    ("ud" +:+ String (hex_digit ((N_of_ascii c1 mod 64) / 4))
       (String (hex_digit (((N_of_ascii c1 mod 4) * 4
                            + (N_of_ascii c2 mod 64) / 16) mod 16))
          (str1 (hex_digit (N_of_ascii c2 mod 16))))).

Fixpoint escape (s : string) : string :=
  match s with
  | EmptyString => EmptyString
  | String c rest =>
      match rest with
      | String c1 (String c2 rest2) =>
          if is_surrogate c c1 then escape_surrogate c1 c2 +:+ escape rest2
          else escape_char c +:+ escape rest
      | _ => escape_char c +:+ escape rest
      end
  end.

Definition quote (s : string) : string :=
  String dquote (escape s +:+ str1 dquote).

Definition is_empty_string (s : string) : bool :=
  match s with
  | EmptyString => true
  | _ => false
  end.

(** The bracketing of SerializeJSONObject and SerializeJSONArray: [gap] is
    the indentation unit (empty for the compact form), [ind] the indentation
    of the enclosing level. *)
Definition wrap (opening closing gap ind : string) (parts : list string) : string :=
  match parts with
  | [] => opening +:+ closing
  | _ =>
      if is_empty_string gap then opening +:+ join "," parts +:+ closing
      else
        opening +:+ str1 newline +:+ (ind +:+ gap)
        +:+ join ("," +:+ str1 newline +:+ (ind +:+ gap)) parts
        +:+ str1 newline +:+ ind +:+ closing
  end.

Definition or_null (o : option string) : string :=
  match o with
  | Some s => s
  | None => "null"
  end.

(** SerializeJSONProperty; [None] is the result [undefined]. *)
Fixpoint serialize (gap ind : string) (v : JsValue) : option string :=
  match v with
  | JUndefined => None
  | JNull => Some "null"
  | JBool true => Some "true"
  | JBool false => Some "false"
  | JNum n => Some (number_json n)
  | JStr s => Some (quote s)
  | JArr items =>
      Some (wrap "[" "]" gap ind
              ((fix go (l : list JsValue) : list string :=
                  match l with
                  | [] => []
                  | x :: l' => or_null (serialize gap (ind +:+ gap) x) :: go l'
                  end) items))
  | JObj fields =>
      Some (wrap "{" "}" gap ind
              ((fix go (l : list (string * JsValue)) : list string :=
                  match l with
                  | [] => []
                  | (k, x) :: l' =>
                      match serialize gap (ind +:+ gap) x with
                      | Some s =>
                          (quote k +:+ ":"
                           +:+ (if is_empty_string gap then EmptyString else " ")
                           +:+ s) :: go l'
                      | None => go l'
                      end
                  end) fields))
  end.

(** [JSON.stringify(v)] *)
Definition JSON_stringify (v : JsValue) : option string :=
  serialize EmptyString EmptyString v.

(** [JSON.stringify(v, null, 2)] *)
Definition JSON_stringify_pretty (v : JsValue) : option string :=
  serialize "  " EmptyString v.

(** Concatenating a possibly [undefined] string result *)
Definition str_or_undefined (o : option string) : string :=
  match o with
  | Some s => s
  | None => "undefined"
  end.

Definition no_newline (s : string) : bool :=
  forallb (λ c, negb (Ascii.eqb c newline)) (list_ascii_of_string s).

(** ** Data model (types.ts and the [ManagedChat] interface) *)

Inductive ProcessState := idle | processing | awaiting_approval | finished | error.

Inductive PermissionMode := assisted | full_ai.

Inductive WebChatStatus := starting | running | chat_idle | stopped | chat_error.

Inductive Behavior := allow | deny.

Inductive TranscriptEntryType :=
| ty_user | ty_assistant | ty_tool_use | ty_tool_result | ty_thinking | ty_system
| ty_log_event | ty_agent_spawn | ty_agent_result | ty_token_usage | ty_approval_prompt.

Record WebChat := {
  id : string;
  name : string;
  cwd : string;
  status : WebChatStatus;
  created_at : string;
  last_activity : string;
  pid : option nat;
  session_id : option string;
}.

Record Attachment := {
  att_name : string;
  media_type : string;
  data : string;
}.

Record ApprovalRequest := {
  request_id : JsValue;
  chat_id : string;
  tool_name : JsValue;
  tool_use_id : JsValue;
  input : JsValue;
  suggestions : JsValue;
  timestamp : string;
}.

(** The body of the approve route is passed on unvalidated apart from
    [behavior]; an absent optional field is [JUndefined].  [resp_ident] is
    the identity of [request_id] when that is an object or an array: the
    manager itself passes on the very value it holds as a key, a caller
    from outside comes with a value of its own ([None]). *)
Record ApprovalResponse := {
  resp_request_id : JsValue;
  resp_ident : option nat;
  behavior : Behavior;
  updated_input : JsValue;
  message : JsValue;
}.

(** A key of the [Map] of pending approvals.  Objects and arrays are
    held by reference: [key_ident] tells the objects of one parsed stdout
    line from those of every other line.  It plays no part for a
    primitive. *)
Record MapKey := {
  key_value : JsValue;
  key_ident : nat;
}.

(** A value with which the map is asked for a key: with the identity of
    the object it is, or [None] for a value that came from elsewhere *)
Record KeyRef := {
  ref_value : JsValue;
  ref_ident : option nat;
}.

Definition held (k : MapKey) : KeyRef :=
  {| ref_value := key_value k; ref_ident := Some (key_ident k) |}.

(** SameValueZero, the comparison of the keys of a [Map]: primitives are
    the same when they have the same value, objects when they are the
    same object. *)
Definition same_key (q : KeyRef) (k : MapKey) : bool :=
  if is_object (ref_value q) then
    is_object (key_value k)
    && match ref_ident q with
       | Some i => Nat.eqb i (key_ident k)
       | None => false
       end
  else prim_eqb (ref_value q) (key_value k).

Definition response_key (response : ApprovalResponse) : KeyRef :=
  {| ref_value := resp_request_id response; ref_ident := resp_ident response |}.

(** A response as it arrives from outside the manager *)
Definition from_outside (response : ApprovalResponse) : ApprovalResponse :=
  {| resp_request_id := resp_request_id response; resp_ident := None;
     behavior := behavior response; updated_input := updated_input response;
     message := message response |}.

(** The object literals the manager emits as [content] of an entry *)
Inductive TranscriptContent :=
| AssistantContent (text : JsValue)
| ToolUseContent (tool_name tool_id input : JsValue)
| ToolResultContent (tool_id : JsValue) (output : string) (is_error : JsValue)
| LogEventContent (event_type message : string)
| ApprovalPromptContent (request_id tool_name tool_use_id input : JsValue)
    (input_preview : string).

Record WebChatMessage := {
  msg_id : string;
  msg_chat_id : string;
  msg_type : TranscriptEntryType;
  content : TranscriptContent;
  msg_timestamp : string;
}.

(** What [this.emit] publishes, by event name *)
Inductive Event :=
| chat_status (chat_id : string) (status : string)
    (process_state : option ProcessState) (err : option string)
| transcript_entry (entry : WebChatMessage)
| approval_request (chat_id : string) (request : ApprovalRequest).

(** [pendingApprovals] is a [Map]: insertion-ordered, keys unique. *)
Definition PendingApprovals := list (MapKey * ApprovalRequest).

Fixpoint pa_get (q : KeyRef) (m : PendingApprovals) : option ApprovalRequest :=
  match m with
  | [] => None
  | (k', v) :: rest => if same_key q k' then Some v else pa_get q rest
  end.

(** [Map.set]: an existing key keeps its position. *)
Fixpoint pa_set (k : MapKey) (v : ApprovalRequest) (m : PendingApprovals)
  : PendingApprovals :=
  match m with
  | [] => [(k, v)]
  | (k', v') :: rest =>
      if same_key (held k) k' then (k', v) :: rest
      else (k', v') :: pa_set k v rest
  end.

Fixpoint pa_delete (q : KeyRef) (m : PendingApprovals) : PendingApprovals :=
  match m with
  | [] => []
  | (k', v') :: rest =>
      if same_key q k' then rest else (k', v') :: pa_delete q rest
  end.

Record ManagedChat := {
  chat : WebChat;
  sessionId : string;
  systemPrompt : option string;
  permissionMode : PermissionMode;
  isProcessing : bool;
  processState : ProcessState;
  messageCount : nat;
  currentProcess : option nat;
  stdoutRL : option nat;
  pendingApprovals : PendingApprovals;
  autoApprove : bool;
}.

(** A spawned child with its pipes.  [exited] records that the operating
    system reported the exit (the child is live from [spawn] until then);
    [stdin] holds the chunks written so far, [rl_closed] whether the
    readline interface on its stdout was closed; [owner] and [owner_chat]
    are the [managed] object and [chatId] its handlers close over. *)
Record ChildProcess := {
  spawn_args : list string;
  spawn_cwd : string;
  killed : bool;
  exitCode : option Z;
  exited : bool;
  stdin : option (list string);
  rl_closed : bool;
  owner : nat;
  owner_chat : string;
}.

Record World := {
  chats : gmap string nat;
  heap : list ManagedChat;
  procs : list ChildProcess;
  emitted : list Event;
  timers : list (nat * string);
  clock : nat;
}.

Definition init_world : World :=
  {| chats := ∅; heap := []; procs := []; emitted := []; timers := []; clock := 0 |}.

(** Field updates *)

Definition set_last_activity (t : string) (c : WebChat) : WebChat :=
  {| id := id c; name := name c; cwd := cwd c; status := status c;
     created_at := created_at c; last_activity := t; pid := pid c;
     session_id := session_id c |}.

Definition set_pid (p : option nat) (c : WebChat) : WebChat :=
  {| id := id c; name := name c; cwd := cwd c; status := status c;
     created_at := created_at c; last_activity := last_activity c; pid := p;
     session_id := session_id c |}.

Definition set_status (s : WebChatStatus) (c : WebChat) : WebChat :=
  {| id := id c; name := name c; cwd := cwd c; status := s;
     created_at := created_at c; last_activity := last_activity c; pid := pid c;
     session_id := session_id c |}.

Definition set_chat (f : WebChat → WebChat) (m : ManagedChat) : ManagedChat :=
  {| chat := f (chat m); sessionId := sessionId m; systemPrompt := systemPrompt m;
     permissionMode := permissionMode m; isProcessing := isProcessing m;
     processState := processState m; messageCount := messageCount m;
     currentProcess := currentProcess m; stdoutRL := stdoutRL m;
     pendingApprovals := pendingApprovals m; autoApprove := autoApprove m |}.

Definition set_isProcessing (b : bool) (m : ManagedChat) : ManagedChat :=
  {| chat := chat m; sessionId := sessionId m; systemPrompt := systemPrompt m;
     permissionMode := permissionMode m; isProcessing := b;
     processState := processState m; messageCount := messageCount m;
     currentProcess := currentProcess m; stdoutRL := stdoutRL m;
     pendingApprovals := pendingApprovals m; autoApprove := autoApprove m |}.

Definition set_processState (s : ProcessState) (m : ManagedChat) : ManagedChat :=
  {| chat := chat m; sessionId := sessionId m; systemPrompt := systemPrompt m;
     permissionMode := permissionMode m; isProcessing := isProcessing m;
     processState := s; messageCount := messageCount m;
     currentProcess := currentProcess m; stdoutRL := stdoutRL m;
     pendingApprovals := pendingApprovals m; autoApprove := autoApprove m |}.

Definition set_messageCount (n : nat) (m : ManagedChat) : ManagedChat :=
  {| chat := chat m; sessionId := sessionId m; systemPrompt := systemPrompt m;
     permissionMode := permissionMode m; isProcessing := isProcessing m;
     processState := processState m; messageCount := n;
     currentProcess := currentProcess m; stdoutRL := stdoutRL m;
     pendingApprovals := pendingApprovals m; autoApprove := autoApprove m |}.

Definition set_currentProcess (p : option nat) (m : ManagedChat) : ManagedChat :=
  {| chat := chat m; sessionId := sessionId m; systemPrompt := systemPrompt m;
     permissionMode := permissionMode m; isProcessing := isProcessing m;
     processState := processState m; messageCount := messageCount m;
     currentProcess := p; stdoutRL := stdoutRL m;
     pendingApprovals := pendingApprovals m; autoApprove := autoApprove m |}.

Definition set_stdoutRL (p : option nat) (m : ManagedChat) : ManagedChat :=
  {| chat := chat m; sessionId := sessionId m; systemPrompt := systemPrompt m;
     permissionMode := permissionMode m; isProcessing := isProcessing m;
     processState := processState m; messageCount := messageCount m;
     currentProcess := currentProcess m; stdoutRL := p;
     pendingApprovals := pendingApprovals m; autoApprove := autoApprove m |}.

Definition set_pendingApprovals (f : PendingApprovals → PendingApprovals)
    (m : ManagedChat) : ManagedChat :=
  {| chat := chat m; sessionId := sessionId m; systemPrompt := systemPrompt m;
     permissionMode := permissionMode m; isProcessing := isProcessing m;
     processState := processState m; messageCount := messageCount m;
     currentProcess := currentProcess m; stdoutRL := stdoutRL m;
     pendingApprovals := f (pendingApprovals m); autoApprove := autoApprove m |}.

Definition set_autoApprove (b : bool) (m : ManagedChat) : ManagedChat :=
  {| chat := chat m; sessionId := sessionId m; systemPrompt := systemPrompt m;
     permissionMode := permissionMode m; isProcessing := isProcessing m;
     processState := processState m; messageCount := messageCount m;
     currentProcess := currentProcess m; stdoutRL := stdoutRL m;
     pendingApprovals := pendingApprovals m; autoApprove := b |}.

Definition set_killed (p : ChildProcess) : ChildProcess :=
  {| spawn_args := spawn_args p; spawn_cwd := spawn_cwd p; killed := true;
     exitCode := exitCode p; exited := exited p; stdin := stdin p;
     rl_closed := rl_closed p; owner := owner p; owner_chat := owner_chat p |}.

Definition set_exited (code : option Z) (p : ChildProcess) : ChildProcess :=
  {| spawn_args := spawn_args p; spawn_cwd := spawn_cwd p; killed := killed p;
     exitCode := code; exited := true; stdin := stdin p;
     rl_closed := rl_closed p; owner := owner p; owner_chat := owner_chat p |}.

Definition close_rl (p : ChildProcess) : ChildProcess :=
  {| spawn_args := spawn_args p; spawn_cwd := spawn_cwd p; killed := killed p;
     exitCode := exitCode p; exited := exited p; stdin := stdin p;
     rl_closed := true; owner := owner p; owner_chat := owner_chat p |}.

(** [stdin.write(chunk)] *)
Definition write_stdin (chunk : string) (p : ChildProcess) : ChildProcess :=
  {| spawn_args := spawn_args p; spawn_cwd := spawn_cwd p; killed := killed p;
     exitCode := exitCode p; exited := exited p;
     stdin := (λ chunks, (chunks ++ [chunk])%list) <$> stdin p;
     rl_closed := rl_closed p; owner := owner p; owner_chat := owner_chat p |}.

Definition set_chats (c : gmap string nat) (w : World) : World :=
  {| chats := c; heap := heap w; procs := procs w; emitted := emitted w;
     timers := timers w; clock := clock w |}.

Definition set_heap (h : list ManagedChat) (w : World) : World :=
  {| chats := chats w; heap := h; procs := procs w; emitted := emitted w;
     timers := timers w; clock := clock w |}.

Definition set_procs (p : list ChildProcess) (w : World) : World :=
  {| chats := chats w; heap := heap w; procs := p; emitted := emitted w;
     timers := timers w; clock := clock w |}.

Definition set_emitted (e : list Event) (w : World) : World :=
  {| chats := chats w; heap := heap w; procs := procs w; emitted := e;
     timers := timers w; clock := clock w |}.

Definition set_timers (t : list (nat * string)) (w : World) : World :=
  {| chats := chats w; heap := heap w; procs := procs w; emitted := emitted w;
     timers := t; clock := clock w |}.

Definition set_clock (n : nat) (w : World) : World :=
  {| chats := chats w; heap := heap w; procs := procs w; emitted := emitted w;
     timers := timers w; clock := n |}.

Local Open Scope list_scope.

(** ** Effects *)

(** The runtime services the manager calls: [JSON.parse] ([None] is the
    SyntaxError; the fields of a parsed object come each once, in the
    order in which JavaScript enumerates them), [randomUUID()] and
    [new Date().toISOString()], the last two answering from the position
    [clock] of the world. *)
Class Runtime := {
  JSON_parse : string → option JsValue;
  randomUUID : nat → string;
  Date_toISOString : nat → string;
}.

Inductive JsError := SyntaxError | TypeError | BadReference.

Inductive Res (A : Type) :=
| Ok (a : A)
| Throw (e : JsError).
Arguments Ok {A} a.
Arguments Throw {A} e.

(** Code that mutates the world and may throw; the mutations made before a
    throw stay. *)
Definition M (A : Type) : Type := World → Res A * World.

#[global] Instance M_ret : MRet M := λ A a w, (Ok a, w).

#[global] Instance M_bind : MBind M := λ A B f m w,
  match m w with
  | (Ok a, w') => f a w'
  | (Throw e, w') => (Throw e, w')
  end.

Definition throw {A} (e : JsError) : M A := λ w, (Throw e, w).

(** [try { body } catch { }] *)
Definition try_catch (body : M unit) : M unit := λ w,
  match body w with
  | (_, w') => (Ok tt, w')
  end.

Definition gets {A} (f : World → A) : M A := λ w, (Ok (f w), w).

Definition modify (f : World → World) : M unit := λ w, (Ok tt, f w).

Definition lift_opt {A} (e : JsError) (o : option A) : M A :=
  match o with
  | Some a => mret a
  | None => throw e
  end.

Definition when_ (b : bool) (body : M unit) : M unit :=
  if b then body else mret tt.

Fixpoint for_of {A} (l : list A) (body : A → M unit) : M unit :=
  match l with
  | [] => mret tt
  | x :: rest => body x ;; for_of rest body
  end.

Definition prop (v : JsValue) (k : string) : M JsValue :=
  lift_opt TypeError (get_prop v k).

(** The conversion of [v] to a string in a template literal *)
Definition to_string (v : JsValue) : M string :=
  lift_opt TypeError (js_String v).

(** [console.log] or [console.error] of a template literal that
    interpolates [v] (besides strings): the text goes to the console of
    the bridge, which is not part of the world; what matters here is that
    the conversion of [v] can throw. *)
Definition console_log (v : JsValue) : M unit := to_string v;; mret tt.

Definition emit (e : Event) : M unit :=
  modify (λ w, set_emitted (emitted w ++ [e]) w).

(** Dereferencing a [managed] object; every reference the code holds is to
    an allocated object. *)
Definition read (r : nat) : M ManagedChat := λ w,
  match heap w !! r with
  | Some m => (Ok m, w)
  | None => (Throw BadReference, w)
  end.

Definition update (r : nat) (f : ManagedChat → ManagedChat) : M unit :=
  modify (λ w, set_heap (alter f r (heap w)) w).

Definition alloc (m : ManagedChat) : M nat := λ w,
  (Ok (length (heap w)), set_heap (heap w ++ [m]) w).

Definition update_proc (h : nat) (f : ChildProcess → ChildProcess) : M unit :=
  modify (λ w, set_procs (alter f h (procs w)) w).

(** [rl?.close()] *)
Definition close_stdoutRL (rl : option nat) : M unit :=
  match rl with
  | Some h => update_proc h close_rl
  | None => mret tt
  end.

Section ProcessManager.
Context {rt : Runtime}.

Definition fresh_uuid : M string := λ w,
  (Ok (randomUUID (clock w)), set_clock (S (clock w)) w).

Definition new_Date_toISOString : M string := λ w,
  (Ok (Date_toISOString (clock w)), set_clock (S (clock w)) w).

(** [randomUUID().slice(0, 8)] *)
Definition fresh_id : M string := u ← fresh_uuid; mret (slice0 8 u).

(** [spawn(config.claudePath, args, {cwd, stdio: pipes})]: the child is
    created with its three pipes; a failure to start it is reported later
    through the [error] event. *)
Definition spawn (args : list string) (dir : string) (r : nat) (chatId : string)
  : M nat := λ w,
  (Ok (length (procs w)),
   set_procs (procs w ++ [{| spawn_args := args; spawn_cwd := dir;
                             killed := false; exitCode := None;
                             exited := false; stdin := Some [];
                             rl_closed := false; owner := r;
                             owner_chat := chatId |}]) w).

(** [setTimeout(() => proc.stdin.write(line), 1000)] *)
Definition setTimeout_write (h : nat) (line : string) : M unit :=
  modify (λ w, set_timers (timers w ++ [(h, line)]) w).

Definition opt_truthy (o : option string) : option string :=
  match o with
  | Some s => if truthy_str s then Some s else None
  | None => None
  end.

(** *** createChat *)
Definition createChat (dir : string) (chatName systemPrompt0 existingSessionId : option string)
    (mode : PermissionMode) : M WebChat :=
  id0 ← fresh_id;
  sid ← match opt_truthy existingSessionId with
        | Some s => mret s
        | None => fresh_uuid
        end;
  let isResume := bool_decide (is_Some (opt_truthy existingSessionId)) in
  let chatName' := match opt_truthy chatName with
                   | Some n => n
                   | None => "Chat " +:+ id0
                   end in
  t1 ← new_Date_toISOString;
  t2 ← new_Date_toISOString;
  let c := {| id := id0; name := chatName'; cwd := dir; status := running;
              created_at := t1; last_activity := t2; pid := None;
              session_id := Some sid |} in
  let managed := {| chat := c; sessionId := sid; systemPrompt := systemPrompt0;
                    permissionMode := mode; isProcessing := false;
                    processState := idle;
                    messageCount := if isResume then 1%nat else 0%nat;
                    currentProcess := None; stdoutRL := None;
                    pendingApprovals := []; autoApprove := false |} in
  r ← alloc managed;
  modify (λ w, set_chats (<[id0 := r]> (chats w)) w);;
  emit (chat_status id0 "running" None None);;
  mret c.

(** *** sendMessage

    The handlers installed on the child are [handleStreamLine] (per line of
    stdout), [on_exit] and [on_error] below; stderr is only logged. *)

(** [!managed.currentProcess || managed.currentProcess.killed ||
    managed.currentProcess.exitCode !== null] *)
Definition process_gone (w : World) (managed : ManagedChat) : bool :=
  match currentProcess managed with
  | None => true
  | Some h =>
      match procs w !! h with
      | Some p => killed p || bool_decide (exitCode p ≠ None)
      | None => true
      end
  end.

Definition common_args (managed : ManagedChat) : list string :=
  ["-p"; "--verbose"; "--output-format"; "stream-json";
   "--input-format"; "stream-json"; "--max-turns"; "50"]
  ++ match permissionMode managed with
     | full_ai => ["--dangerously-skip-permissions"]
     | assisted => ["--permission-mode"; "default";
                    "--permission-prompt-tool"; "stdio"]
     end.

Definition identity_args (managed : ManagedChat) : list string :=
  if (messageCount managed =? 0)%nat then
    ["--session-id"; sessionId managed]
    ++ match opt_truthy (systemPrompt managed) with
       | Some sp => ["--append-system-prompt"; sp]
       | None => []
       end
  else ["--resume"; sessionId managed].

Definition build_args (managed : ManagedChat) : list string :=
  common_args managed ++ identity_args managed.

Definition image_block (att : Attachment) : JsValue :=
  JObj [("type", JStr "image");
        ("source", JObj [("type", JStr "base64");
                         ("media_type", JStr (media_type att));
                         ("data", JStr (data att))])].

Definition user_message (message0 : string) (attachments : option (list Attachment))
  : JsValue :=
  let content0 :=
    match attachments with
    | Some (a :: l) =>
        JArr (map image_block (a :: l)
              ++ if truthy_str message0
                 then [JObj [("type", JStr "text"); ("text", JStr message0)]]
                 else [])
    | _ => JStr message0
    end in
  JObj [("type", JStr "user");
        ("message", JObj [("role", JStr "user"); ("content", content0)])].

Definition sendMessage (chatId message0 : string)
    (attachments : option (list Attachment)) : M bool :=
  registry ← gets chats;
  match registry !! chatId with
  | None => mret false
  | Some r =>
      managed ← read r;
      gone ← gets (λ w, process_gone w managed);
      when_ (isProcessing managed && gone)
        (update r (λ m, set_processState idle (set_isProcessing false m)));;
      managed ← read r;
      if isProcessing managed then mret false
      else
        update r (λ m, set_processState processing (set_isProcessing true m));;
        t ← new_Date_toISOString;
        update r (set_chat (set_last_activity t));;
        emit (chat_status chatId "running" (Some processing) None);;
        managed ← read r;
        let args := build_args managed in
        update r (set_messageCount (S (messageCount managed)));;
        proc ← spawn args (cwd (chat managed)) r chatId;
        update r (λ m, set_stdoutRL (Some proc)
                         (set_chat (set_pid (Some proc))
                            (set_currentProcess (Some proc) m)));;
        setTimeout_write proc
          (str_or_undefined (JSON_stringify (user_message message0 attachments))
           +:+ str1 newline);;
        mret true
  end.

(** *** respondToApproval *)

Definition behavior_string (b : Behavior) : string :=
  match b with
  | allow => "allow"
  | deny => "deny"
  end.

(** The [controlResponse] object literal *)
Definition control_response (response : ApprovalResponse) (request0 : ApprovalRequest)
  : JsValue :=
  JObj [("type", JStr "control_response");
        ("response",
         JObj [("subtype", JStr "success");
               ("request_id", resp_request_id response);
               ("response",
                match behavior response with
                | allow =>
                    JObj [("behavior", JStr "allow");
                          ("updatedInput",
                           js_or (updated_input response) (input request0));
                          ("toolUseID", tool_use_id request0)]
                | deny =>
                    JObj [("behavior", JStr "deny");
                          ("message",
                           js_or (message response)
                             (JStr "User denied this action"))]
                end)])].

(** [managed.currentProcess?.stdin], as the handle of the child whose
    stdin it is *)
Definition current_stdin (w : World) (managed : ManagedChat) : option nat :=
  match currentProcess managed with
  | Some h =>
      match procs w !! h with
      | Some p =>
          match stdin p with
          | Some _ => Some h
          | None => None
          end
      | None => None
      end
  | None => None
  end.

(** The template literal of the audit entry; [None] when the tool name
    cannot be converted to a string *)
Definition approval_log_message (response : ApprovalResponse)
    (request0 : ApprovalRequest) : option string :=
  match js_String (tool_name request0) with
  | Some tn =>
      Some ((match behavior response with allow => "✅" | deny => "❌" end)
            +:+ " " +:+ tn +:+ ": " +:+ behavior_string (behavior response))
  | None => None
  end.

Definition respondToApproval (chatId : string) (response : ApprovalResponse)
  : M bool :=
  registry ← gets chats;
  match registry !! chatId with
  | None => mret false
  | Some r =>
      managed ← read r;
      match pa_get (response_key response) (pendingApprovals managed) with
      | None =>
          (* the request id is interpolated into the error message *)
          console_log (resp_request_id response);;
          mret false
      | Some request0 =>
          target ← gets (λ w, current_stdin w managed);
          match target with
          | None => mret false
          | Some h =>
              let responseStr :=
                str_or_undefined
                  (JSON_stringify (control_response response request0)) in
              update_proc h (write_stdin (responseStr +:+ str1 newline));;
              update r (λ m, set_processState processing
                               (set_pendingApprovals
                                  (pa_delete (response_key response)) m));;
              emit (chat_status chatId "running" (Some processing) None);;
              (* the object literal of the audit entry, field by field *)
              id0 ← fresh_id;
              text ← lift_opt TypeError (approval_log_message response request0);
              t ← new_Date_toISOString;
              emit (transcript_entry
                      {| msg_id := id0; msg_chat_id := chatId;
                         msg_type := ty_log_event;
                         content := LogEventContent "approval_response" text;
                         msg_timestamp := t |});;
              mret true
          end
      end
  end.

(** [{request_id, behavior: 'allow'}] with the key the manager holds *)
Definition allow_response (key : MapKey) : ApprovalResponse :=
  {| resp_request_id := key_value key; resp_ident := Some (key_ident key);
     behavior := allow; updated_input := JUndefined; message := JUndefined |}.

(** [inputPreview]: the indented JSON text, cut after 500 code units *)
Definition input_preview (text : string) : string :=
  if (500 <? js_length text)%nat then slice0 500 text +:+ "..." else text.

(** *** handleControlRequest

    The message was made by the [JSON.parse] of the line that is being
    handled; its objects are told from all others by the position of the
    clock when the handler is entered (every handled line moves the clock
    on). *)
Definition handleControlRequest (msg : JsValue) (r : nat) (chatId : string)
  : M unit :=
  req ← prop msg "request";
  if negb (strict_eq_str (opt_prop req "subtype") "can_use_tool") then
    console_log (opt_prop req "subtype")
  else
    ident ← gets clock;
    rid ← prop msg "request_id";
    tn ← prop req "tool_name";
    tu ← prop req "tool_use_id";
    inp ← prop req "input";
    sg ← prop req "permission_suggestions";
    t ← new_Date_toISOString;
    let request0 := {| request_id := rid; chat_id := chatId; tool_name := tn;
                       tool_use_id := tu; input := inp; suggestions := sg;
                       timestamp := t |} in
    let key := {| key_value := rid; key_ident := ident |} in
    managed ← read r;
    if autoApprove managed then
      console_log tn;;
      update r (set_pendingApprovals (pa_set key request0));;
      respondToApproval chatId (allow_response key);;
      id0 ← fresh_id;
      name0 ← to_string tn;
      emit (transcript_entry
              {| msg_id := id0; msg_chat_id := chatId; msg_type := ty_log_event;
                 content := LogEventContent "auto_approval"
                              ("AUTO-APPROVED: " +:+ name0);
                 msg_timestamp := t |})
    else
      update r (λ m, set_processState awaiting_approval
                       (set_pendingApprovals (pa_set key request0) m));;
      console_log tn;;
      emit (chat_status chatId "running" (Some awaiting_approval) None);;
      (* [inputPreview.length] throws when [JSON.stringify] gave [undefined] *)
      preview ← lift_opt TypeError (JSON_stringify_pretty inp);
      emit (approval_request chatId request0);;
      id0 ← fresh_id;
      emit (transcript_entry
              {| msg_id := id0; msg_chat_id := chatId;
                 msg_type := ty_approval_prompt;
                 content := ApprovalPromptContent rid tn tu inp
                              (input_preview preview);
                 msg_timestamp := t |}).

(** *** handleStreamLine *)

(** The body of the loop over the content blocks of an assistant message *)
(** [text.slice(0, 50)], the value interpolated into the log line of a
    text block: the first 50 code units of a string, the first 50 elements
    of an array; [None] is the TypeError of a value without [slice]. *)
Definition log_slice (text : JsValue) : option JsValue :=
  match text with
  | JStr s => Some (JStr (slice0 50 s))
  | JArr items => Some (JArr (take 50 items))
  | _ => None
  end.

Definition assistant_block (chatId timestamp0 : string) (block : JsValue) : M unit :=
  ty ← prop block "type";
  if strict_eq_str ty "text" then
    text ← prop block "text";
    shown ← lift_opt TypeError (log_slice text);
    console_log shown;;
    id0 ← fresh_id;
    emit (transcript_entry
            {| msg_id := id0; msg_chat_id := chatId; msg_type := ty_assistant;
               content := AssistantContent text; msg_timestamp := timestamp0 |})
  else if strict_eq_str ty "tool_use" then
    nm ← prop block "name";
    console_log nm;;
    id0 ← fresh_id;
    tid ← prop block "id";
    inp ← prop block "input";
    emit (transcript_entry
            {| msg_id := id0; msg_chat_id := chatId; msg_type := ty_tool_use;
               content := ToolUseContent nm tid inp; msg_timestamp := timestamp0 |})
  else mret tt.

Definition tool_result_entry (chatId timestamp0 : string) (first : JsValue) : M unit :=
  c ← prop first "content";
  text ← to_string (js_or c (JStr EmptyString));
  let preview := slice0 100 text in
  id0 ← fresh_id;
  tuid ← prop first "tool_use_id";
  is_err ← prop first "is_error";
  emit (transcript_entry
          {| msg_id := id0; msg_chat_id := chatId; msg_type := ty_tool_result;
             content := ToolResultContent (js_or tuid (JStr EmptyString))
                          preview is_err;
             msg_timestamp := timestamp0 |}).

Definition handleStreamLine (line : string) (r : nat) (chatId : string) : M unit :=
  try_catch
    (msg ← lift_opt SyntaxError (JSON_parse line);
     timestamp0 ← new_Date_toISOString;
     (* the property reads of the conditions below; they have no effect
        once [msg.type] has been read without a TypeError *)
     ty ← prop msg "type";
     sub ← prop msg "subtype";
     if strict_eq_str ty "system" && strict_eq_str sub "init" then mret tt
     else if strict_eq_str ty "control_request" then
       handleControlRequest msg r chatId
     else
       message0 ← prop msg "message";
       let content0 := opt_prop message0 "content" in
       when_ (strict_eq_str ty "assistant" && truthy content0)
         (blocks ← lift_opt TypeError (iterate content0);
          for_of blocks (assistant_block chatId timestamp0));;
       when_ (strict_eq_str ty "user" && truthy content0)
         (let first := index0 content0 in
          when_ (strict_eq_str (opt_prop first "type") "tool_result")
            (tool_result_entry chatId timestamp0 first));;
       when_ (strict_eq_str ty "result")
         (console_log sub;;
          update r (λ m, set_processState idle (set_isProcessing false m));;
          emit (chat_status chatId "ready" (Some idle) None))).

(** *** setAutoApprove

    The loop runs over the live [Map]; a call removes at most the key that
    is being visited, so the keys visited are those present at the start. *)
Definition setAutoApprove (chatId : string) (enabled : bool) : M bool :=
  registry ← gets chats;
  match registry !! chatId with
  | None => mret false
  | Some r =>
      update r (set_autoApprove enabled);;
      managed ← read r;
      when_ (enabled && (0 <? length (pendingApprovals managed))%nat)
        (for_of (map fst (pendingApprovals managed))
           (λ requestId,
              respondToApproval chatId (allow_response requestId);; mret tt));;
      mret true
  end.

(** *** stopChat and cleanup *)

(** [proc.kill('SIGTERM')]: the signal is sent, and [killed] set, unless
    the child has exited. *)
Definition kill (h : nat) : M unit :=
  update_proc h (λ p, if exited p then p else set_killed p).

Definition stopChat (chatId : string) : M bool :=
  registry ← gets chats;
  match registry !! chatId with
  | None => mret false
  | Some r =>
      managed ← read r;
      match currentProcess managed with
      | Some h =>
          p ← gets (λ w, procs w !! h);
          match p with
          | Some p' => when_ (negb (killed p')) (kill h)
          | None => mret tt
          end
      | None => mret tt
      end;;
      close_stdoutRL (stdoutRL managed);;
      update r (set_chat (set_status stopped));;
      emit (chat_status chatId "stopped" None None);;
      mret true
  end.

Definition removable (s : WebChatStatus) : bool :=
  match s with
  | stopped | chat_error => true
  | _ => false
  end.

Definition cleanup : M nat :=
  registry ← gets chats;
  objects ← gets heap;
  let victims :=
    List.filter (λ entry : string * nat,
                   match objects !! entry.2 with
                   | Some m => removable (status (chat m))
                   | None => false
                   end)
      (map_to_list registry) in
  for_of victims
    (λ entry : string * nat,
       managed ← read entry.2;
       close_stdoutRL (stdoutRL managed);;
       modify (λ w, set_chats (delete entry.1 (chats w)) w));;
  mret (length victims).

(** *** The handlers [sendMessage] installs on the child *)

Definition on_exit (r : nat) (chatId : string) : M unit :=
  update r (λ m, set_currentProcess None
                   (set_processState finished (set_isProcessing false m)));;
  managed ← read r;
  close_stdoutRL (stdoutRL managed);;
  emit (chat_status chatId "ready" (Some finished) None).

Definition on_error (r : nat) (chatId : string) (err_message : string) : M unit :=
  update r (λ m, set_currentProcess None
                   (set_processState error (set_isProcessing false m)));;
  emit (chat_status chatId "error" (Some error) (Some err_message)).

(** ** Runs of the manager *)

(** The calls of the routes and the events of the children.  A line is
    delivered while the readline interface of its child is open, the exit
    of a child once (with its exit code, [None] when a signal ended it),
    and the oldest pending timer fires first. *)
Inductive Action :=
| CallCreateChat (dir : string) (chatName systemPrompt0 existingSessionId : option string)
    (mode : PermissionMode)
| CallSendMessage (chatId message0 : string) (attachments : option (list Attachment))
| CallRespondToApproval (chatId : string) (response : ApprovalResponse)
| CallSetAutoApprove (chatId : string) (enabled : bool)
| CallStopChat (chatId : string)
| CallCleanup
| StdoutLine (h : nat) (line : string)
| ProcExit (h : nat) (code : option Z)
| ProcError (h : nat) (err_message : string)
| TimerFires.

Definition run (a : Action) (w : World) : option World :=
  match a with
  | CallCreateChat dir n sp sid mode => Some (createChat dir n sp sid mode w).2
  | CallSendMessage chatId m atts => Some (sendMessage chatId m atts w).2
  | CallRespondToApproval chatId response =>
      Some (respondToApproval chatId (from_outside response) w).2
  | CallSetAutoApprove chatId enabled => Some (setAutoApprove chatId enabled w).2
  | CallStopChat chatId => Some (stopChat chatId w).2
  | CallCleanup => Some (cleanup w).2
  | StdoutLine h line =>
      match procs w !! h with
      | Some p =>
          if rl_closed p then None
          else Some (handleStreamLine line (owner p) (owner_chat p) w).2
      | None => None
      end
  | ProcExit h code =>
      match procs w !! h with
      | Some p =>
          if exited p then None
          else Some (on_exit (owner p) (owner_chat p)
                       (set_procs (alter (set_exited code) h (procs w)) w)).2
      | None => None
      end
  | ProcError h err_message =>
      match procs w !! h with
      | Some p => Some (on_error (owner p) (owner_chat p) err_message w).2
      | None => None
      end
  | TimerFires =>
      match timers w with
      | (h, line) :: rest =>
          Some (set_timers rest (set_procs (alter (write_stdin line) h (procs w)) w))
      | [] => None
      end
  end.

Fixpoint run_all (trace : list Action) (w : World) : option World :=
  match trace with
  | [] => Some w
  | a :: rest =>
      match run a w with
      | Some w' => run_all rest w'
      | None => None
      end
  end.

Definition reachable (w : World) : Prop :=
  ∃ trace, run_all trace init_world = Some w.

End ProcessManager.


(** ** A concrete runtime and captured stdout lines *)

Definition control_request_line (rid tool toolUse : string) (inp : JsValue) : JsValue :=
  JObj [("type", JStr "control_request");
        ("request_id", JStr rid);
        ("request", JObj [("subtype", JStr "can_use_tool");
                          ("tool_name", JStr tool);
                          ("tool_use_id", JStr toolUse);
                          ("input", inp)])].

Definition msg_can_use_bash : JsValue :=
  control_request_line "req-1" "Bash" "toolu_01"
    (JObj [("command", JStr "ls /tmp")]).

Definition msg_can_use_write : JsValue :=
  control_request_line "req-2" "Write" "toolu_02"
    (JObj [("file_path", JStr "/tmp/a.txt"); ("content", JStr "hello")]).

Definition msg_interrupt : JsValue :=
  JObj [("type", JStr "control_request");
        ("request_id", JStr "req-9");
        ("request", JObj [("subtype", JStr "interrupt")])].

Definition msg_stream_event : JsValue :=
  JObj [("type", JStr "stream_event"); ("event", JObj [("delta", JStr "x")])].

Definition msg_result : JsValue :=
  JObj [("type", JStr "result"); ("subtype", JStr "success")].

Definition assistant_line (blocks : list JsValue) : JsValue :=
  JObj [("type", JStr "assistant");
        ("message", JObj [("role", JStr "assistant"); ("content", JArr blocks)])].

Definition text_block (t : string) : JsValue :=
  JObj [("type", JStr "text"); ("text", JStr t)].

Definition thinking_block (t : string) : JsValue :=
  JObj [("type", JStr "thinking"); ("thinking", JStr t)].

Definition tool_use_block (toolUse tool : string) (inp : JsValue) : JsValue :=
  JObj [("type", JStr "tool_use"); ("id", JStr toolUse); ("name", JStr tool);
        ("input", inp)].

Definition tool_result_block (toolUse out : string) : JsValue :=
  JObj [("type", JStr "tool_result"); ("tool_use_id", JStr toolUse);
        ("content", JStr out)].

Definition msg_assistant_mixed : JsValue :=
  assistant_line [thinking_block "The user wants a listing.";
                  text_block "Listing the files.";
                  tool_use_block "toolu_01" "Bash" (JObj [("command", JStr "ls /tmp")])].

Definition task_input : JsValue :=
  JObj [("subagent_type", JStr "code-reviewer");
        ("description", JStr "Review the diff");
        ("prompt", JStr "Review the staged changes.")].

Definition msg_assistant_task : JsValue :=
  assistant_line [tool_use_block "toolu_07" "Task" task_input].

Definition msg_user_two_results : JsValue :=
  JObj [("type", JStr "user");
        ("message", JObj [("role", JStr "user");
                          ("content", JArr [tool_result_block "toolu_01" "a.txt";
                                            tool_result_block "toolu_02" "ok"])])].

Definition captured_messages : list JsValue :=
  [msg_can_use_bash; msg_can_use_write; msg_interrupt; msg_stream_event;
   msg_result; msg_assistant_mixed; msg_assistant_task; msg_user_two_results].

(** The text of a captured message, as the child prints it *)
Definition line_of (v : JsValue) : string := str_or_undefined (JSON_stringify v).

(** A runtime for closed examples: [JSON.parse] is exact on the captured
    lines and rejects every other text; identifiers and timestamps are
    numbered by the clock. *)
Definition demo_runtime : Runtime :=
  {| JSON_parse := λ line,
       head (List.filter (λ v, String.eqb (line_of v) line) captured_messages);
     randomUUID := λ n,
       "0000000" +:+ NilEmpty.string_of_uint (Nat.to_uint n)
       +:+ "-7c1e-4b5a-9d2f-3e6a8b0c4d17";
     Date_toISOString := λ n,
       "2025-01-01T00:00:00." +:+ NilEmpty.string_of_uint (Nat.to_uint n) +:+ "Z" |}.

Definition allow_req (rid : string) : ApprovalResponse :=
  {| resp_request_id := JStr rid; resp_ident := None; behavior := allow;
     updated_input := JUndefined; message := JUndefined |}.

Definition deny_req (rid : string) (reason : JsValue) : ApprovalResponse :=
  {| resp_request_id := JStr rid; resp_ident := None; behavior := deny;
     updated_input := JUndefined; message := reason |}.

(** Create a chat (its id is ["00000000"]) and send a first message. *)
Definition trace_first_turn : list Action :=
  [CallCreateChat "/srv/project" None None None assisted;
   CallSendMessage "00000000" "list files in /tmp" None].

(** ... then the child asks twice for permission. *)
Definition trace_two_pending : list Action :=
  trace_first_turn
  ++ [StdoutLine 0 (line_of msg_can_use_bash);
      StdoutLine 0 (line_of msg_can_use_write)].

Definition world_after (trace : list Action) : World :=
  match run_all (rt := demo_runtime) trace init_world with
  | Some w => w
  | None => init_world
  end.

Definition managed_after (trace : list Action) : option ManagedChat :=
  heap (world_after trace) !! 0%nat.

Definition world_two_pending : World :=
  Eval vm_compute in world_after trace_two_pending.

(** The turn completes and, before the child has exited, the next message
    is sent. *)
Definition trace_second_turn_early : list Action :=
  trace_first_turn
  ++ [StdoutLine 0 (line_of msg_result);
      CallSendMessage "00000000" "and in /var?" None].

(** The child dies with exit code 1 while both requests are pending. *)
Definition trace_exit_while_pending : list Action :=
  trace_two_pending ++ [ProcExit 0 (Some 1)].

Definition world_first_turn : World :=
  Eval vm_compute in world_after trace_first_turn.

Definition world_exit_while_pending : World :=
  Eval vm_compute in world_after trace_exit_while_pending.

Definition world_second_turn_early : World :=
  Eval vm_compute in world_after trace_second_turn_early.

Definition trace_created : list Action :=
  [CallCreateChat "/srv/project" None None None assisted].

Definition world_created : World := Eval vm_compute in world_after trace_created.

(** One of the two pending requests is answered. *)
Definition trace_one_answered : list Action :=
  trace_two_pending ++ [CallRespondToApproval "00000000" (allow_req "req-1")].

Definition world_one_answered : World :=
  Eval vm_compute in world_after trace_one_answered.

(** The first turn with an assistant message of three blocks, and with a
    user message of two tool results *)
Definition trace_mixed_blocks : list Action :=
  trace_first_turn ++ [StdoutLine 0 (line_of msg_assistant_mixed)].

Definition trace_two_results : list Action :=
  trace_first_turn ++ [StdoutLine 0 (line_of msg_user_two_results)].

Definition trace_task : list Action :=
  trace_first_turn ++ [StdoutLine 0 (line_of msg_assistant_task)].

Definition world_mixed_blocks : World :=
  Eval vm_compute in world_after trace_mixed_blocks.

Definition world_two_results : World :=
  Eval vm_compute in world_after trace_two_results.

Definition world_task : World := Eval vm_compute in world_after trace_task.

(** The child has exited while two requests are pending, then auto-approve
    is switched on. *)
Definition trace_auto_after_exit : list Action :=
  trace_two_pending ++ [ProcExit 0 (Some 0); CallSetAutoApprove "00000000" true].

Definition world_auto_after_exit : World :=
  Eval vm_compute in world_after trace_auto_after_exit.

Definition world_exit_0 : World :=
  Eval vm_compute in world_after (trace_two_pending ++ [ProcExit 0 (Some 0)]).

(** Writing JSON text without quotation marks in the source: every
    apostrophe stands for a double quote. *)
Fixpoint json_text (s : string) : string :=
  match s with
  | EmptyString => EmptyString
  | String c rest =>
      String (if Ascii.eqb c "'"%char then dquote else c) (json_text rest)
  end.

(** The chat is stopped during the first turn and a message is sent before
    the child has exited. *)
Definition trace_send_after_stop : list Action :=
  trace_first_turn
  ++ [CallStopChat "00000000"; CallSendMessage "00000000" "still there?" None].

(** The scenario of a granted permission: the request, the allow decision,
    then the result line. *)
Definition trace_granted : list Action :=
  trace_first_turn
  ++ [StdoutLine 0 (line_of msg_can_use_bash);
      CallRespondToApproval "00000000" (allow_req "req-1");
      StdoutLine 0 (line_of msg_result)].

Definition edited_allow (rid : string) (edited : JsValue) : ApprovalResponse :=
  {| resp_request_id := JStr rid; resp_ident := None; behavior := allow;
     updated_input := edited; message := JUndefined |}.

(** The process states a run goes through, one per action *)
Fixpoint states_along (trace : list Action) (w : World) : list (option ProcessState) :=
  match trace with
  | [] => []
  | a :: rest =>
      match run (rt := demo_runtime) a w with
      | Some w' => (processState <$> heap w' !! 0%nat) :: states_along rest w'
      | None => []
      end
  end.

Definition trace_stopped : list Action :=
  trace_first_turn ++ [CallStopChat "00000000"].

Definition world_stopped : World := Eval vm_compute in world_after trace_stopped.

(** ** Descriptions of results used in the statements *)

(** The managed chat after an accepted [sendMessage] that spawned child [h]
    at time [t] *)
Definition started (managed : ManagedChat) (h : nat) (t : string) : ManagedChat :=
  {| chat := set_pid (Some h) (set_last_activity t (chat managed));
     sessionId := sessionId managed; systemPrompt := systemPrompt managed;
     permissionMode := permissionMode managed; isProcessing := true;
     processState := processing; messageCount := S (messageCount managed);
     currentProcess := Some h; stdoutRL := Some h;
     pendingApprovals := pendingApprovals managed;
     autoApprove := autoApprove managed |}.

(** The child that [sendMessage] spawns for [managed] *)
Definition new_child (managed : ManagedChat) (r : nat) (chatId : string) : ChildProcess :=
  {| spawn_args := build_args managed; spawn_cwd := cwd (chat managed);
     killed := false; exitCode := None; exited := false; stdin := Some [];
     rl_closed := false; owner := r; owner_chat := chatId |}.

(** The children of the managed object [r] that have not exited *)
Definition live_children (w : World) (r : nat) : list ChildProcess :=
  List.filter (λ p, negb (exited p) && Nat.eqb (owner p) r) (procs w).

(** The request ids under which requests are pending, in the order of
    the map *)
Definition pending_ids (m : PendingApprovals) : list JsValue :=
  map (λ kv, key_value kv.1) m.

(** A session that awaits approval has a pending request. *)
Definition awaiting_has_pending (managed : ManagedChat) : Prop :=
  processState managed = awaiting_approval → pendingApprovals managed ≠ [].

Definition all_awaiting_have_pending (w : World) : Prop :=
  Forall awaiting_has_pending (heap w).

(** A computation that keeps [all_awaiting_have_pending], whether it
    returns or throws *)
Definition preserves {A} (c : M A) : Prop :=
  ∀ w, all_awaiting_have_pending w → all_awaiting_have_pending (c w).2.

(** Whether a step sends a message to the session [r] *)
Definition sends_to (r : nat) (a : Action) (w : World) : bool :=
  match a with
  | CallSendMessage chatId _ _ => bool_decide (chats w !! chatId = Some r)
  | _ => false
  end.

Section RunsWithoutSend.
Context {rt : Runtime}.

(** A run in which no message is sent to the session [r]: any calls,
    lines, exits, errors and timers, and messages to other sessions *)
Fixpoint run_without_send (r : nat) (trace : list Action) (w : World)
  : option World :=
  match trace with
  | [] => Some w
  | a :: rest =>
      if sends_to r a w then None
      else match run a w with
           | Some w1 => run_without_send r rest w1
           | None => None
           end
  end.
End RunsWithoutSend.

(** The session [r], if it has no current child, has none afterwards. *)
Definition no_child (r : nat) (w w' : World) : Prop :=
  ∀ m, heap w !! r = Some m → currentProcess m = None →
       ∃ m', heap w' !! r = Some m' ∧ currentProcess m' = None.

(** The kind and content of the entry the stream handler emits for one
    content block of an assistant message, if any *)
Definition block_entry (block : JsValue)
  : option (TranscriptEntryType * TranscriptContent) :=
  let ty := opt_prop block "type" in
  if strict_eq_str ty "text" then
    Some (ty_assistant, AssistantContent (opt_prop block "text"))
  else if strict_eq_str ty "tool_use" then
    Some (ty_tool_use,
          ToolUseContent (opt_prop block "name") (opt_prop block "id")
            (opt_prop block "input"))
  else None.

(** Whether [v] can be converted to a string *)
Definition printable (v : JsValue) : bool :=
  match js_String v with
  | Some _ => true
  | None => false
  end.

(** A block the loop passes without a TypeError: not [null]; when it is a
    text block, with a text that has [slice] (a string or an array) whose
    first 50 code units or elements can be converted to a string; when it
    is a tool use, with a name that can be converted to a string *)
Definition block_well_formed (block : JsValue) : bool :=
  match get_prop block "type" with
  | Some ty =>
      if strict_eq_str ty "text" then
        match log_slice (opt_prop block "text") with
        | Some shown => printable shown
        | None => false
        end
      else if strict_eq_str ty "tool_use" then printable (opt_prop block "name")
      else true
  | None => false
  end.

(** The entry emitted for the first content block of a user message;
    there is none when its content cannot be converted to a string *)
Definition tool_result_content (first : JsValue) : option TranscriptContent :=
  match js_String (js_or (opt_prop first "content") (JStr EmptyString)) with
  | Some text =>
      Some (ToolResultContent
              (js_or (opt_prop first "tool_use_id") (JStr EmptyString))
              (slice0 100 text) (opt_prop first "is_error"))
  | None => None
  end.

Definition entry_kind (m : WebChatMessage) : TranscriptEntryType * TranscriptContent :=
  (msg_type m, content m).

(** The transcript entries among emitted events, in order *)
Definition transcript_entries (events : list Event) : list WebChatMessage :=
  omap (λ e, match e with transcript_entry m => Some m | _ => None end) events.

(** The events emitted by a step from [w] to [w'] *)
Definition new_events (w w' : World) : list Event :=
  drop (length (emitted w)) (emitted w').

(** What a step keeps apart from the emitted events and the clock *)
Definition same_sessions (w w' : World) : Prop :=
  heap w' = heap w ∧ chats w' = chats w ∧ procs w' = procs w
  ∧ timers w' = timers w.

(** ** The tool uses of the transcript route (sessions.ts)

    The route that rebuilds a transcript from the JSONL file of a session
    pushes one entry per [tool_use] block of an assistant event. *)

Inductive RouteContent :=
| RouteAgentSpawn (agent_type description prompt_preview tool_use_id agent_id : JsValue)
    (status : string) (result_preview : JsValue)
| RouteToolUse (tool_name tool_id input : JsValue).

Record RouteEntry := {
  re_id : string;
  re_type : TranscriptEntryType;
  re_timestamp : JsValue;
  re_content : RouteContent;
}.

Fixpoint filterM {A} (f : A → M bool) (l : list A) : M (list A) :=
  match l with
  | [] => (mret [] : M (list A))
  | x :: rest =>
      f x ≫= λ keep : bool,
        rest' ← filterM f rest;
        mret (if keep then x :: rest' else rest')
  end.

Fixpoint mapM {A B} (f : A → M B) (l : list A) : M (list B) :=
  match l with
  | [] => (mret [] : M (list B))
  | x :: rest => y ← f x; rest' ← mapM f rest; mret (y :: rest')
  end.

Section TranscriptRoute.
Context {rt : Runtime}.

Definition route_tool_entry (timestamp0 : JsValue) (tool : JsValue) : M RouteEntry :=
  nm ← prop tool "name";
  if strict_eq_str nm "Task" then
    id0 ← fresh_id;
    inp ← prop tool "input";
    tid ← prop tool "id";
    (* [taskToolIdToEntryIndex[tool.id]]: the id becomes a property key *)
    when_ (truthy tid) (console_log tid);;
    mret {| re_id := id0; re_type := ty_agent_spawn; re_timestamp := timestamp0;
            re_content :=
              RouteAgentSpawn
                (js_or (opt_prop inp "subagent_type") (JStr "unknown"))
                (js_or (opt_prop inp "description") (JStr EmptyString))
                (opt_prop inp "prompt") tid JUndefined "running" JUndefined |}
  else
    id0 ← fresh_id;
    tid ← prop tool "id";
    tid' ← (if truthy tid then mret tid else s ← fresh_id; mret (JStr s));
    inp ← prop tool "input";
    (* [toolCounts[tool.name]]: the name becomes a property key *)
    console_log nm;;
    mret {| re_id := id0; re_type := ty_tool_use; re_timestamp := timestamp0;
            re_content := RouteToolUse nm tid' inp |}.

(** [event.message.content.filter(c => c.type === 'tool_use')] and the
    loop over the result; only an array has [filter]. *)
Definition route_tool_uses (timestamp0 : JsValue) (content0 : JsValue)
  : M (list RouteEntry) :=
  items ← lift_opt TypeError (match content0 with
                              | JArr l => Some l
                              | _ => None
                              end);
  toolUses ← filterM (λ c, ty ← prop c "type"; mret (strict_eq_str ty "tool_use"))
               items;
  mapM (route_tool_entry timestamp0) toolUses.
End TranscriptRoute.

(** Whether the tool names of all the requests can be converted to
    strings *)
Definition all_printable (pas : PendingApprovals) : bool :=
  forallb (λ kv, printable (tool_name kv.2)) pas.

(** The requests the loop of [setAutoApprove] answers: all of them, or
    those up to and including the first whose tool name cannot be
    converted to a string, at which the loop ends with a TypeError *)
Fixpoint answered (pas : PendingApprovals) : PendingApprovals :=
  match pas with
  | [] => []
  | kv :: rest => if printable (tool_name kv.2) then kv :: answered rest else [kv]
  end.

(** The line written for an automatic allow decision, and the audit entry
    that goes with it when the name of the tool can be converted to a
    string *)
Definition allow_line (kv : MapKey * ApprovalRequest) : string :=
  str_or_undefined (JSON_stringify (control_response (allow_response kv.1) kv.2))
  +:+ str1 newline.

Definition allow_audit (kv : MapKey * ApprovalRequest)
  : option (TranscriptEntryType * TranscriptContent) :=
  match approval_log_message (allow_response kv.1) kv.2 with
  | Some text => Some (ty_log_event, LogEventContent "approval_response" text)
  | None => None
  end.

(** ** Further descriptions of results *)

(** The children after [stopChat] on [managed]: the current child is sent
    SIGTERM unless it was killed before (or has exited), and the readline
    interface of the session is closed. *)
Definition stop_children (managed : ManagedChat) (ps : list ChildProcess)
  : list ChildProcess :=
  let ps1 :=
    match currentProcess managed with
    | Some h =>
        alter (λ p, if killed p then p else if exited p then p else set_killed p) h ps
    | None => ps
    end in
  match stdoutRL managed with
  | Some h => alter close_rl h ps1
  | None => ps1
  end.

(** The request object [handleControlRequest] builds from a
    [control_request] message at time [t] *)
Definition request_of (chatId : string) (msg : JsValue) (t : string) : ApprovalRequest :=
  {| request_id := opt_prop msg "request_id"; chat_id := chatId;
     tool_name := opt_prop (opt_prop msg "request") "tool_name";
     tool_use_id := opt_prop (opt_prop msg "request") "tool_use_id";
     input := opt_prop (opt_prop msg "request") "input";
     suggestions := opt_prop (opt_prop msg "request") "permission_suggestions";
     timestamp := t |}.

(** What [stopChat] does to the child at index [j] *)
Definition stop_child (managed : ManagedChat) (j : nat) (p : ChildProcess)
  : ChildProcess :=
  let p1 := if bool_decide (currentProcess managed = Some j)
            then (if killed p then p else if exited p then p else set_killed p)
            else p in
  if bool_decide (stdoutRL managed = Some j) then close_rl p1 else p1.

(** A permission request whose [request] carries no [input], and a runtime
    that parses its text besides the captured lines *)
Definition msg_can_use_no_input : JsValue :=
  JObj [("type", JStr "control_request");
        ("request_id", JStr "req-3");
        ("request", JObj [("subtype", JStr "can_use_tool");
                          ("tool_name", JStr "Bash");
                          ("tool_use_id", JStr "toolu_03")])].

Definition demo_runtime_no_input : Runtime :=
  {| JSON_parse := λ line,
       if String.eqb (line_of msg_can_use_no_input) line
       then Some msg_can_use_no_input
       else JSON_parse (Runtime := demo_runtime) line;
     randomUUID := randomUUID (Runtime := demo_runtime);
     Date_toISOString := Date_toISOString (Runtime := demo_runtime) |}.

(** ** The read-only methods of the manager *)

(** [getAutoApprove] *)
Definition getAutoApprove (chatId : string) : M bool :=
  registry ← gets chats;
  match registry !! chatId with
  | None => mret false
  | Some r => managed ← read r; mret (autoApprove managed)
  end.

(** [getPendingApprovals]: the values of the map, in insertion order *)
Definition getPendingApprovals (chatId : string) : M (list ApprovalRequest) :=
  registry ← gets chats;
  match registry !! chatId with
  | None => mret []
  | Some r => managed ← read r; mret (map snd (pendingApprovals managed))
  end.

(** [getChat]; [None] is [null] (the chat object itself is never falsy) *)
Definition getChat (chatId : string) : M (option WebChat) :=
  registry ← gets chats;
  match registry !! chatId with
  | None => mret None
  | Some r => managed ← read r; mret (Some (chat managed))
  end.

(** [getSessionInfo]: the [sessionId] of the returned object *)
Definition getSessionInfo (chatId : string) : M (option string) :=
  registry ← gets chats;
  match registry !! chatId with
  | None => mret None
  | Some r => managed ← read r; mret (Some (sessionId managed))
  end.

(** [getProcessState] *)
Definition getProcessState (chatId : string) : M (option ProcessState) :=
  registry ← gets chats;
  match registry !! chatId with
  | None => mret None
  | Some r => managed ← read r; mret (Some (processState managed))
  end.

(** Whether [cleanup] removes a chat whose object is [r] *)
Definition removable_at (w : World) (r : nat) : bool :=
  match heap w !! r with
  | Some m => removable (status (chat m))
  | None => false
  end.

(** ** Properties kept along every run *)

(** [c] only takes steps related by [R], whether it returns or throws. *)
Definition steady (R : World → World → Prop) {A} (c : M A) : Prop :=
  ∀ w, R w (c w).2.

(** No key of the map comes a second time. *)
Fixpoint pa_distinct (m : PendingApprovals) : Prop :=
  match m with
  | [] => True
  | (k, _) :: rest => pa_get (held k) rest = None ∧ pa_distinct rest
  end.

(** The [request_id] of a stored request is its key. *)
Definition stored_under_id (kv : MapKey * ApprovalRequest) : Prop :=
  same_key {| ref_value := request_id kv.2; ref_ident := Some (key_ident kv.1) |}
    kv.1 = true.

(** The map of pending approvals has each key once, and stores each
    request under its own [request_id]. *)
Definition pa_wf (m : PendingApprovals) : Prop :=
  pa_distinct m ∧ Forall stored_under_id m.

(** What holds of every session the manager has created *)
Definition session_ok (m : ManagedChat) : Prop :=
  (isProcessing m = true →
   processState m = processing ∨ processState m = awaiting_approval)
  ∧ pa_wf (pendingApprovals m)
  ∧ (status (chat m) = running ∨ status (chat m) = stopped).

Definition sessions_ok (w w' : World) : Prop :=
  Forall session_ok (heap w) → Forall session_ok (heap w').

(** What a session never changes: its identity stays, a stopped chat
    stays stopped, and the count of messages does not go down. *)
Definition same_identity (m m' : ManagedChat) : Prop :=
  sessionId m' = sessionId m
  ∧ systemPrompt m' = systemPrompt m
  ∧ permissionMode m' = permissionMode m
  ∧ id (chat m') = id (chat m)
  ∧ name (chat m') = name (chat m)
  ∧ cwd (chat m') = cwd (chat m)
  ∧ created_at (chat m') = created_at (chat m)
  ∧ session_id (chat m') = session_id (chat m)
  ∧ (status (chat m) = stopped → status (chat m') = stopped)
  ∧ (messageCount m ≤ messageCount m')%nat.

(** How a child can change: its command line, directory and owner are
    fixed, what was written to its stdin stays, and being killed, having
    exited and having its reader closed are permanent. *)
Definition child_grows (p p' : ChildProcess) : Prop :=
  spawn_args p' = spawn_args p
  ∧ spawn_cwd p' = spawn_cwd p
  ∧ owner p' = owner p
  ∧ owner_chat p' = owner_chat p
  ∧ (killed p = true → killed p' = true)
  ∧ (exited p = true → exited p' = true ∧ exitCode p' = exitCode p)
  ∧ (rl_closed p = true → rl_closed p' = true)
  ∧ (∀ chunks, stdin p = Some chunks →
               ∃ more, stdin p' = Some (chunks ++ more)%list).

Definition history (w w' : World) : Prop :=
  emitted w `prefix_of` emitted w'
  ∧ (∀ r m, heap w !! r = Some m →
            ∃ m', heap w' !! r = Some m' ∧ same_identity m m')
  ∧ (∀ h p, procs w !! h = Some p →
            ∃ p', procs w' !! h = Some p' ∧ child_grows p p')
  ∧ (clock w ≤ clock w')%nat.

(** The captured first turn after its result line, and the two lines of
    the permission requests as a run of their own *)
Definition world_result : World :=
  Eval vm_compute in
    world_after (trace_first_turn ++ [StdoutLine 0 (line_of msg_result)]).

Definition trace_two_requests : list Action :=
  [StdoutLine 0 (line_of msg_can_use_bash); StdoutLine 0 (line_of msg_can_use_write)].

(** ** The routes of the web chats (sessions.ts) *)

(** What a handler sends: [res.status(n).json(body)] *)
Record HttpResponse := {
  http_status : nat;
  http_body : JsValue;
}.

Definition res_json (status0 : nat) (body : JsValue) : HttpResponse :=
  {| http_status := status0; http_body := body |}.

Definition error_body (text : string) : JsValue := JObj [("error", JStr text)].

(** [try { body } catch (err) { handler }] *)
Definition try_catch_with {A} (body : M A) (handler : JsError → M A) : M A := λ w,
  match body w with
  | (Ok a, w') => (Ok a, w')
  | (Throw e, w') => handler e w'
  end.


Section Routes.
Context {rt : Runtime}.


(** POST /web-chats/:chatId/auto-approve *)
Definition auto_approve_route (chatId : string) (body : JsValue) : M HttpResponse :=
  try_catch_with
    (enabled ← prop body "enabled";
     match enabled with
     | JBool b =>
         success ← setAutoApprove chatId b;
         if negb success then mret (res_json 404 (error_body "Web chat not found"))
         else mret (res_json 200
                      (JObj [("status", JStr "ok"); ("auto_approve", JBool b)]))
     | _ => mret (res_json 400 (error_body "enabled (boolean) is required"))
     end)
    (λ _, mret (res_json 500 (error_body "Failed to set auto-approve"))).

(** GET /web-chats/:chatId/auto-approve *)
Definition get_auto_approve_route (chatId : string) : M HttpResponse :=
  enabled ← getAutoApprove chatId;
  mret (res_json 200
          (JObj [("chat_id", JStr chatId); ("auto_approve", JBool enabled)])).

(** DELETE /web-chats/:chatId *)
Definition delete_route (chatId : string) : M HttpResponse :=
  try_catch_with
    (success ← stopChat chatId;
     if negb success then mret (res_json 404 (error_body "Web chat not found"))
     else mret (res_json 200 (JObj [("status", JStr "stopped")])))
    (λ _, mret (res_json 500 (error_body "Failed to stop web chat"))).

(** POST /web-chats/cleanup *)
Definition cleanup_route : M HttpResponse :=
  cleaned ← cleanup;
  mret (res_json 200 (JObj [("cleaned", js_count cleaned)])).
End Routes.

(** ** Project folders (sessions.ts) *)

(** [s.replace(/a/g, b)] for single characters *)
Fixpoint replace_char (a b : ascii) (s : string) : string :=
  match s with
  | EmptyString => EmptyString
  | String c rest => String (if Ascii.eqb c a then b else c) (replace_char a b rest)
  end.

(** ['-' + cwd.replace(/\//g, '-').slice(1)], the folder in which the
    transcript of a chat is looked up *)
Definition projectFolder (dir : string) : string :=
  String "-" (slice_from_1 (replace_char "/" "-" dir)).

(** [naiveFolderDecode] *)
Definition naiveFolderDecode (folder : string) : string :=
  String "/" (replace_char "-" "/" (slice_from_1 folder)).

Definition has_char (a : ascii) (s : string) : bool :=
  existsb (Ascii.eqb a) (list_ascii_of_string s).

(** ** A line with a malformed block *)

(** An assistant message whose second block is a text block without text,
    and a runtime that parses its line besides the captured ones *)
Definition msg_assistant_broken : JsValue :=
  assistant_line [text_block "Listing the files.";
                  JObj [("type", JStr "text")];
                  tool_use_block "toolu_01" "Bash" (JObj [("command", JStr "ls /tmp")])].

Definition demo_runtime_broken : Runtime :=
  {| JSON_parse := λ line,
       if String.eqb (line_of msg_assistant_broken) line
       then Some msg_assistant_broken
       else JSON_parse (Runtime := demo_runtime) line;
     randomUUID := randomUUID (Runtime := demo_runtime);
     Date_toISOString := Date_toISOString (Runtime := demo_runtime) |}.
(** ** Stepping through monadic code *)

Lemma bind_Ok {A B} (m : M A) (f : A → M B) w a w' :
  m w = (Ok a, w') → (m ≫= f) w = f a w'.
Proof. intros H. unfold mbind, M_bind. by rewrite H. Qed.

Lemma bind_Throw {A B} (m : M A) (f : A → M B) w e w' :
  m w = (Throw e, w') → (m ≫= f) w = (Throw e, w').
Proof. intros H. unfold mbind, M_bind. by rewrite H. Qed.

Lemma read_Some r w m : heap w !! r = Some m → read r w = (Ok m, w).
Proof. intros H. unfold read. by rewrite H. Qed.

Lemma mret_run {A} (a : A) w : (mret a : M A) w = (Ok a, w).
Proof. reflexivity. Qed.

Lemma gets_run {A} (f : World → A) w : gets f w = (Ok (f w), w).
Proof. reflexivity. Qed.

Lemma modify_run f w : modify f w = (Ok tt, f w).
Proof. reflexivity. Qed.

Lemma emit_run e w : emit e w = (Ok tt, set_emitted (emitted w ++ [e]) w).
Proof. reflexivity. Qed.

Lemma update_run r f w : update r f w = (Ok tt, set_heap (alter f r (heap w)) w).
Proof. reflexivity. Qed.

Lemma update_proc_run h f w :
  update_proc h f w = (Ok tt, set_procs (alter f h (procs w)) w).
Proof. reflexivity. Qed.

Lemma setTimeout_write_run h line w :
  setTimeout_write h line w = (Ok tt, set_timers (timers w ++ [(h, line)]) w).
Proof. reflexivity. Qed.

Lemma when_true (body : M unit) : when_ true body = body.
Proof. reflexivity. Qed.

Lemma when_false (body : M unit) : when_ false body = mret tt.
Proof. reflexivity. Qed.

Lemma lift_opt_Some {A} e (a : A) w : lift_opt e (Some a) w = (Ok a, w).
Proof. reflexivity. Qed.

Lemma fresh_uuid_run `{Runtime} w :
  fresh_uuid w = (Ok (randomUUID (clock w)), set_clock (S (clock w)) w).
Proof. reflexivity. Qed.

Lemma fresh_id_run `{Runtime} w :
  fresh_id w = (Ok (slice0 8 (randomUUID (clock w))), set_clock (S (clock w)) w).
Proof. reflexivity. Qed.

Lemma new_Date_run `{Runtime} w :
  new_Date_toISOString w
  = (Ok (Date_toISOString (clock w)), set_clock (S (clock w)) w).
Proof. reflexivity. Qed.

Lemma spawn_run `{Runtime} args dir r chatId w :
  spawn args dir r chatId w
  = (Ok (length (procs w)),
     set_procs (procs w ++ [{| spawn_args := args; spawn_cwd := dir;
                               killed := false; exitCode := None;
                               exited := false; stdin := Some [];
                               rl_closed := false; owner := r;
                               owner_chat := chatId |}]) w).
Proof. reflexivity. Qed.

Lemma prop_Some v k x w : get_prop v k = Some x → prop v k w = (Ok x, w).
Proof. intros H. unfold prop. by rewrite H. Qed.

(** Bringing an updated world to the form of a record *)
Ltac wsimpl :=
  unfold set_chats, set_heap, set_procs, set_emitted, set_timers, set_clock;
  cbn [chats heap procs emitted timers clock fst snd].

(** One step of a monadic computation whose first action is a primitive *)
Ltac mstep :=
  erewrite bind_Ok by
    (first [ apply gets_run | apply modify_run | apply emit_run
           | apply update_run | apply update_proc_run
           | apply setTimeout_write_run | apply fresh_id_run
           | apply fresh_uuid_run | apply new_Date_run | apply spawn_run
           | apply mret_run | apply lift_opt_Some
           | apply read_Some; wsimpl; first
               [ eassumption
               | rewrite ?list_lookup_alter_eq;
                 repeat match goal with
                        | H : _ !! _ = Some _ |- _ => rewrite H
                        end;
                 reflexivity ] ]);
  wsimpl.

(** ** One-line property of [JSON.stringify] *)

Lemma no_newline_app a b : no_newline (a +:+ b) = no_newline a && no_newline b.
Proof.
  unfold no_newline. induction a as [|c a IH]; simpl; [done|].
  rewrite IH. by rewrite andb_assoc.
Qed.

Lemma no_newline_escape_char c : no_newline (escape_char c) = true.
Proof.
  destruct c as [[] [] [] [] [] [] [] []]; vm_compute; reflexivity.
Qed.

Lemma no_newline_String c s :
  no_newline (String c s) = negb (Ascii.eqb c newline) && no_newline s.
Proof. reflexivity. Qed.

Lemma hex_digit_cases n :
  In (hex_digit n)
    (list_ascii_of_string "0123456789abcdef").
Proof.
  destruct n as [|p]; [cbn; tauto|].
  do 4 (destruct p as [p|p|]; try (cbn; tauto)).
Qed.

Lemma hex_digit_not_newline n : Ascii.eqb (hex_digit n) newline = false.
Proof.
  pose proof (hex_digit_cases n) as H. cbn in H.
  repeat (destruct H as [<-|H]; [reflexivity|]). done.
Qed.

Lemma no_newline_escape_surrogate c1 c2 : no_newline (escape_surrogate c1 c2) = true.
Proof.
  unfold escape_surrogate, str1.
  change ("ud" +:+ ?x) with (String "u" (String "d" x)).
  by rewrite !no_newline_String, !hex_digit_not_newline.
Qed.

Lemma no_newline_escape s : no_newline (escape s) = true.
Proof.
  assert (H : ∀ n s, (String.length s ≤ n)%nat → no_newline (escape s) = true).
  { clear s. induction n as [|n IH]; intros [|c s] Hlen; cbn in Hlen;
      try done; try lia.
    cbn [escape].
    assert (Hstep : no_newline (escape_char c +:+ escape s) = true).
    { rewrite no_newline_app, no_newline_escape_char. apply IH. lia. }
    destruct s as [|c1 [|c2 rest2]]; try exact Hstep.
    destruct (is_surrogate c c1); [|exact Hstep].
    rewrite no_newline_app, no_newline_escape_surrogate. apply IH.
    cbn in Hlen. lia. }
  by apply (H (String.length s)).
Qed.

Lemma no_newline_quote s : no_newline (quote s) = true.
Proof.
  unfold quote. change (String dquote ?x) with (str1 dquote +:+ x).
  by rewrite !no_newline_app, no_newline_escape.
Qed.

Lemma no_newline_number_json n : no_newline (number_json n) = true.
Proof.
  destruct n as [text|negative]; [|done].
  unfold number_json, number_text, no_newline.
  induction text as [|c text IH]; [done|].
  cbn. rewrite IH. by destruct c.
Qed.

Lemma no_newline_join sep parts :
  no_newline sep = true → Forall (λ s, no_newline s = true) parts →
  no_newline (join sep parts) = true.
Proof.
  intros Hsep Hparts. induction Hparts as [|x l Hx Hl IH]; [done|].
  destruct l as [|y l']; [done|].
  change (join sep (x :: y :: l')) with (x +:+ sep +:+ join sep (y :: l')).
  by rewrite !no_newline_app, Hx, Hsep, IH.
Qed.

Lemma no_newline_wrap_compact opening closing ind parts :
  no_newline opening = true → no_newline closing = true →
  Forall (λ s, no_newline s = true) parts →
  no_newline (wrap opening closing EmptyString ind parts) = true.
Proof.
  intros Ho Hc Hparts. unfold wrap. destruct parts as [|x l].
  - by rewrite no_newline_app, Ho, Hc.
  - simpl is_empty_string. cbv iota.
    rewrite !no_newline_app, Ho, Hc, no_newline_join; done.
Qed.

Lemma no_newline_serialize v : ∀ ind s,
  serialize EmptyString ind v = Some s → no_newline s = true.
Proof.
  induction v as [| |b|n|s0|items IH|fields IH] using JsValue_nested_ind;
    intros ind s Hs; simpl in Hs.
  - done.
  - by inversion Hs.
  - destruct b; by inversion Hs.
  - inversion Hs. apply no_newline_number_json.
  - inversion Hs. apply no_newline_quote.
  - inversion Hs as [Heq]. apply no_newline_wrap_compact; [done..|].
    clear Hs Heq. induction IH as [|x l Hx _ IHl]; constructor; [|done].
    destruct (serialize EmptyString (ind +:+ EmptyString) x) as [sx|] eqn:Ex; simpl.
    + by eapply Hx.
    + done.
  - inversion Hs as [Heq]. apply no_newline_wrap_compact; [done..|].
    clear Hs Heq. induction IH as [|[k x] l Hx _ IHl]; [constructor|].
    simpl in Hx.
    destruct (serialize EmptyString (ind +:+ EmptyString) x) as [sx|] eqn:Ex; [|done].
    constructor; [|done].
    rewrite !no_newline_app, no_newline_quote. simpl. by eapply Hx.
Qed.

(** [JSON.stringify] of any value is free of line breaks. *)
Lemma JSON_stringify_one_line v s : JSON_stringify v = Some s → no_newline s = true.
Proof. apply no_newline_serialize. Qed.

(** ** Maps of pending approvals *)

Lemma prim_eqb_refl v : is_object v = false → prim_eqb v v = true.
Proof.
  destruct v as [| |b|n|s| |]; cbn; try done.
  - by destruct b.
  - intros _. apply String.eqb_refl.
  - intros _. apply String.eqb_refl.
Qed.

Lemma digits_text_inj t t' :
  string_of_list_ascii (map numchar_ascii t)
  = string_of_list_ascii (map numchar_ascii t') → t = t'.
Proof.
  revert t'. induction t as [|c t IH]; intros [|c' t']; cbn; try done.
  intros [= Hc Ht]. f_equal; [|by apply IH].
  by destruct c, c'.
Qed.

Lemma digits_not_infinity t negative :
  string_of_list_ascii (map numchar_ascii t) ≠ number_text (num_infinite negative).
Proof.
  destruct negative; cbn [number_text].
  - destruct t as [|c [|c' t]]; cbn; try done.
    destruct c; try done. by destruct c'.
  - destruct t as [|c t]; cbn; try done. by destruct c.
Qed.

Lemma number_text_inj n n' : number_text n = number_text n' → n = n'.
Proof.
  destruct n as [t|b], n' as [t'|b'].
  - cbn [number_text]. by intros ->%digits_text_inj.
  - intros H. by apply digits_not_infinity in H.
  - intros H. symmetry in H. by apply digits_not_infinity in H.
  - by destruct b, b'.
Qed.

Lemma prim_eqb_eq a b : prim_eqb a b = true → a = b ∧ is_object a = false.
Proof.
  destruct a as [| |x|x|x| |], b as [| |y|y|y| |]; cbn; try done.
  - by intros ->%Bool.eqb_prop.
  - by intros ->%String.eqb_eq%number_text_inj.
  - by intros ->%String.eqb_eq.
Qed.

(** A key the map holds is found with itself. *)
Lemma same_key_held k : same_key (held k) k = true.
Proof.
  unfold same_key, held. cbn [ref_value ref_ident].
  destruct (is_object (key_value k)) eqn:E.
  - by rewrite Nat.eqb_refl.
  - by apply prim_eqb_refl.
Qed.

Lemma pa_get_head k v rest : pa_get (held k) ((k, v) :: rest) = Some v.
Proof. cbn [pa_get]. by rewrite same_key_held. Qed.

Lemma pa_delete_head k v rest : pa_delete (held k) ((k, v) :: rest) = rest.
Proof. cbn [pa_delete]. by rewrite same_key_held. Qed.

Lemma pa_set_nonempty k v m : pa_set k v m ≠ [].
Proof.
  destruct m as [|[k' v'] rest]; cbn [pa_set]; [done|].
  by destruct (same_key (held k) k').
Qed.

Lemma pa_get_Some_nonempty k m v : pa_get k m = Some v → m ≠ [].
Proof. by destruct m. Qed.

(** *** Lengths in code units *)

Lemma js_length_app a b : js_length (a +:+ b) = (js_length a + js_length b)%nat.
Proof.
  induction a as [|c a IH]; [done|].
  change (String c a +:+ b) with (String c (a +:+ b)).
  cbn [js_length]. rewrite IH. lia.
Qed.

Lemma is_continuation_128 k : is_continuation (ascii_of_N (128 + k mod 64)) = true.
Proof.
  unfold is_continuation.
  assert (Hk : (k mod 64 < 64)%N) by (by apply N.mod_lt).
  set (x := (k mod 64)%N) in *. clearbody x.
  rewrite N_ascii_embedding by lia.
  apply andb_true_intro. split; [apply N.leb_le|apply N.ltb_lt]; lia.
Qed.

Lemma js_length_surrogate u : js_length (surrogate_bytes u) = 1%nat.
Proof.
  unfold surrogate_bytes, str1. cbn [js_length].
  by rewrite !is_continuation_128.
Qed.

Lemma js_length_slice0 s : ∀ n, (js_length (slice0 n s) ≤ n)%nat.
Proof.
  induction s as [|c s IH]; intros n; cbn [slice0]; [cbn; lia|].
  destruct (is_continuation c) eqn:Ec.
  - cbn [js_length]. rewrite Ec. apply IH.
  - destruct n as [|n]; [cbn; lia|].
    destruct (is_lead4 c) eqn:El.
    + destruct n as [|n].
      * destruct s as [|b1 [|b2 s']]; try (cbn; lia).
        rewrite js_length_surrogate. lia.
      * cbn [js_length]. rewrite Ec, El. specialize (IH n). lia.
    + cbn [js_length]. rewrite Ec, El. specialize (IH n). lia.
Qed.

Lemma input_preview_spec text :
  ((js_length text ≤ 500)%nat → input_preview text = text)
  ∧ ((500 < js_length text)%nat → input_preview text = slice0 500 text +:+ "...")
  ∧ (js_length (input_preview text) ≤ 503)%nat.
Proof.
  unfold input_preview.
  destruct (Nat.ltb_spec 500 (js_length text)) as [Hlt|Hle].
  - split_and!; [lia|done|].
    rewrite js_length_app. pose proof (js_length_slice0 text 500).
    change (js_length "...") with 3%nat. lia.
  - split_and!; [done|lia|lia].
Qed.

Arguments JSON_stringify : simpl never.
Arguments JSON_stringify_pretty : simpl never.
Arguments js_String : simpl never.
Arguments slice0 : simpl never.
Arguments String.append : simpl never.

Lemma current_stdin_Some w managed h :
  current_stdin w managed = Some h ↔
  currentProcess managed = Some h ∧ ∃ p chunks, procs w !! h = Some p ∧ stdin p = Some chunks.
Proof.
  unfold current_stdin. split.
  - destruct (currentProcess managed) as [h'|]; [|done].
    destruct (procs w !! h') as [p|] eqn:Ep; [|done].
    destruct (stdin p) as [chunks|] eqn:Es; [|done].
    intros [= <-]. eauto.
  - intros (-> & p & chunks & -> & ->). done.
Qed.

Lemma list_alter_insert {A} (f : A → A) (l : list A) i x :
  l !! i = Some x → alter f i l = <[i := f x]> l.
Proof.
  intros H. apply list_eq. intros j. destruct (decide (i = j)) as [<-|Hne].
  - rewrite list_lookup_alter_eq, H. simpl.
    by rewrite list_lookup_insert_eq by (by eapply lookup_lt_Some).
  - by rewrite list_lookup_alter_ne, list_lookup_insert_ne.
Qed.

Lemma list_insert_insert_same {A} (l : list A) i x y :
  <[i := x]> (<[i := y]> l) = <[i := x]> l.
Proof.
  apply list_eq. intros j. destruct (decide (i = j)) as [<-|Hne].
  - rewrite !list_lookup_insert, length_insert. by repeat case_decide; naive_solver.
  - by rewrite !list_lookup_insert_ne.
Qed.

Lemma pa_get_set_eq k v m : pa_get (held k) (pa_set k v m) = Some v.
Proof.
  induction m as [|[k' v'] rest IH]; cbn [pa_set pa_get].
  - by rewrite same_key_held.
  - destruct (same_key (held k) k') eqn:E; cbn [pa_get]; by rewrite E.
Qed.

(** Deleting a key that was just set leaves what deleting it before
    leaves. *)
Lemma pa_delete_set k v m : pa_delete (held k) (pa_set k v m) = pa_delete (held k) m.
Proof.
  induction m as [|[k' v'] rest IH]; cbn [pa_set pa_delete].
  - by rewrite same_key_held.
  - destruct (same_key (held k) k') eqn:E; cbn [pa_delete]; rewrite E; [done|].
    by rewrite IH.
Qed.

Lemma pa_delete_absent q m : pa_get q m = None → pa_delete q m = m.
Proof.
  induction m as [|[k' v'] rest IH]; cbn [pa_get pa_delete]; [done|].
  destruct (same_key q k'); [done|]. intros H. by rewrite IH.
Qed.

(** For a primitive, the identity that comes with it plays no part. *)
Lemma same_key_prim q q' k :
  ref_value q = ref_value q' → is_object (ref_value q) = false →
  same_key q k = same_key q' k.
Proof. intros Hv Hp. unfold same_key. by rewrite <- Hv, Hp. Qed.

Lemma pa_get_prim q q' m :
  ref_value q = ref_value q' → is_object (ref_value q) = false →
  pa_get q m = pa_get q' m.
Proof.
  intros Hv Hp. induction m as [|[k v] rest IH]; cbn [pa_get]; [done|].
  by rewrite (same_key_prim q q' k Hv Hp), IH.
Qed.

Lemma pa_delete_prim q q' m :
  ref_value q = ref_value q' → is_object (ref_value q) = false →
  pa_delete q m = pa_delete q' m.
Proof.
  intros Hv Hp. induction m as [|[k v] rest IH]; cbn [pa_delete]; [done|].
  by rewrite (same_key_prim q q' k Hv Hp), IH.
Qed.

(** A value from outside that is an object is no key of the map. *)
Lemma pa_get_outside v m :
  is_object v = true → pa_get {| ref_value := v; ref_ident := None |} m = None.
Proof.
  intros Hv. induction m as [|[k x] rest IH]; cbn [pa_get]; [done|].
  unfold same_key at 1. cbn [ref_value ref_ident]. rewrite Hv.
  by rewrite andb_false_r.
Qed.

Lemma to_string_Some v s w : js_String v = Some s → to_string v w = (Ok s, w).
Proof. intros H. unfold to_string. by rewrite H. Qed.

Lemma console_log_Some v s w : js_String v = Some s → console_log v w = (Ok tt, w).
Proof.
  intros H. unfold console_log. by erewrite bind_Ok by (by apply to_string_Some).
Qed.

Lemma console_log_None v w : js_String v = None → console_log v w = (Throw TypeError, w).
Proof.
  intros H. unfold console_log. erewrite bind_Throw; [done|].
  unfold to_string. by rewrite H.
Qed.

Lemma console_log_world v w : (console_log v w).2 = w.
Proof.
  destruct (js_String v) as [s|] eqn:E.
  - by erewrite console_log_Some.
  - by rewrite console_log_None.
Qed.

Lemma printable_prim v : is_object v = false → printable v = true.
Proof. unfold printable. destruct v as [| |[]| | | |]; by cbn. Qed.

Lemma printable_Some v : printable v = true → ∃ s, js_String v = Some s.
Proof. unfold printable. destruct (js_String v); [eauto|done]. Qed.

Lemma printable_None v : printable v = false → js_String v = None.
Proof. unfold printable. by destruct (js_String v). Qed.

Lemma transcript_entries_status c s ps e l :
  transcript_entries (chat_status c s ps e :: l) = transcript_entries l.
Proof. reflexivity. Qed.

Lemma transcript_entries_entry m l :
  transcript_entries (transcript_entry m :: l) = m :: transcript_entries l.
Proof. reflexivity. Qed.

Lemma transcript_entries_request c rq l :
  transcript_entries (approval_request c rq :: l) = transcript_entries l.
Proof. reflexivity. Qed.

(** ** Relations kept by every step of the manager *)

Section Steady.
Context {rt : Runtime}.
Variable R : World → World → Prop.
Hypothesis R_refl : ∀ w, R w w.
Hypothesis R_trans : ∀ w1 w2 w3, R w1 w2 → R w2 w3 → R w1 w3.

Lemma steady_ret {A} (a : A) : steady R (mret a : M A).
Proof. intros w. apply R_refl. Qed.

Lemma steady_throw {A} e : steady R (throw e : M A).
Proof. intros w. apply R_refl. Qed.

Lemma steady_bind {A B} (m : M A) (f : A → M B) :
  steady R m → (∀ a, steady R (f a)) → steady R (m ≫= f).
Proof.
  intros Hm Hf w. unfold mbind, M_bind. specialize (Hm w).
  destruct (m w) as [[a|e] w1]; cbn [snd] in *; [|done].
  eapply R_trans; [exact Hm|apply Hf].
Qed.

Lemma steady_try_catch body : steady R body → steady R (try_catch body).
Proof.
  intros Hb w. unfold try_catch. specialize (Hb w). by destruct (body w).
Qed.

Lemma steady_when b body : steady R body → steady R (when_ b body).
Proof. intros Hb. destruct b; [done|]. apply steady_ret. Qed.

Lemma steady_for_of {A} (l : list A) body :
  (∀ x, steady R (body x)) → steady R (for_of l body).
Proof.
  intros Hb. induction l as [|x l IH]; cbn [for_of].
  - apply steady_ret.
  - apply steady_bind; auto.
Qed.

Lemma steady_lift_opt {A} e (o : option A) : steady R (lift_opt e o).
Proof. destruct o; [apply steady_ret | apply steady_throw]. Qed.

Lemma steady_gets {A} (f : World → A) : steady R (gets f).
Proof. intros w. apply R_refl. Qed.

Lemma steady_read r : steady R (read r).
Proof. intros w. unfold read. destruct (heap w !! r); apply R_refl. Qed.

Lemma steady_to_string v : steady R (to_string v).
Proof. apply steady_lift_opt. Qed.

Lemma steady_console_log v : steady R (console_log v).
Proof. intros w. rewrite console_log_world. apply R_refl. Qed.

(** The updates of a session object, of a child and the new objects that
    are admitted, and the primitive steps *)
Variable okM : (ManagedChat → ManagedChat) → Prop.
Variable okP : (ChildProcess → ChildProcess) → Prop.
Variable okNew : ManagedChat → Prop.
Hypothesis R_emit : ∀ e, steady R (emit e).
Hypothesis R_update : ∀ r f, okM f → steady R (update r f).
Hypothesis R_update_proc : ∀ h f, okP f → steady R (update_proc h f).
Hypothesis R_alloc : ∀ m, okNew m → steady R (alloc m).
Hypothesis R_spawn : ∀ args dir r chatId, steady R (spawn args dir r chatId).
Hypothesis R_clock : ∀ w, R w (set_clock (S (clock w)) w).
Hypothesis R_setTimeout : ∀ h line, steady R (setTimeout_write h line).
Hypothesis R_set_chats : ∀ f, steady R (modify (λ w, set_chats (f w) w)).
Hypothesis R_exit : ∀ w h p code,
  procs w !! h = Some p → exited p = false →
  R w (set_procs (alter (set_exited code) h (procs w)) w).
Hypothesis R_timer_fires : ∀ w h line rest,
  timers w = (h, line) :: rest →
  R w (set_timers rest (set_procs (alter (write_stdin line) h (procs w)) w)).

(** The updates the manager makes *)
Hypothesis okM_idle : okM (λ m, set_processState idle (set_isProcessing false m)).
Hypothesis okM_processing :
  okM (λ m, set_processState processing (set_isProcessing true m)).
Hypothesis okM_activity : ∀ t, okM (set_chat (set_last_activity t)).
Hypothesis okM_count : ∀ n, okM (set_messageCount n).
Hypothesis okM_child : ∀ h,
  okM (λ m, set_stdoutRL (Some h)
              (set_chat (set_pid (Some h)) (set_currentProcess (Some h) m))).
Hypothesis okM_answer : ∀ k,
  okM (λ m, set_processState processing (set_pendingApprovals (pa_delete k) m)).
Hypothesis okM_store : ∀ key request0,
  request_id request0 = key_value key →
  okM (set_pendingApprovals (pa_set key request0)).
Hypothesis okM_await : ∀ key request0,
  request_id request0 = key_value key →
  okM (λ m, set_processState awaiting_approval
              (set_pendingApprovals (pa_set key request0) m)).
Hypothesis okM_auto : ∀ b, okM (set_autoApprove b).
Hypothesis okM_stop : okM (set_chat (set_status stopped)).
Hypothesis okM_exit :
  okM (λ m, set_currentProcess None
              (set_processState finished (set_isProcessing false m))).
Hypothesis okM_error :
  okM (λ m, set_currentProcess None
              (set_processState error (set_isProcessing false m))).
Hypothesis okP_write : ∀ line, okP (write_stdin line).
Hypothesis okP_close : okP close_rl.
Hypothesis okP_kill : okP (λ p, if exited p then p else set_killed p).
Hypothesis okNew_created : ∀ m,
  isProcessing m = false → processState m = idle → pendingApprovals m = [] →
  status (chat m) = running → okNew m.

Lemma steady_fresh_uuid : steady R fresh_uuid.
Proof. intros w. apply R_clock. Qed.

Lemma steady_new_Date : steady R new_Date_toISOString.
Proof. intros w. apply R_clock. Qed.

Lemma steady_fresh_id : steady R fresh_id.
Proof.
  unfold fresh_id. apply steady_bind; [apply steady_fresh_uuid|].
  intros u. apply steady_ret.
Qed.

Lemma steady_close_stdoutRL rl : steady R (close_stdoutRL rl).
Proof. destruct rl; [by apply R_update_proc | apply steady_ret]. Qed.

Ltac std :=
  repeat first
    [ apply steady_ret | apply steady_throw | apply steady_gets
    | apply R_emit | apply steady_read
    | apply steady_console_log | apply steady_to_string
    | apply steady_close_stdoutRL | apply R_setTimeout
    | apply steady_fresh_uuid | apply steady_fresh_id
    | apply steady_new_Date | apply R_spawn
    | apply steady_lift_opt
    | apply R_set_chats
    | apply R_update_proc;
        first [ apply okP_write | apply okP_close | apply okP_kill ]
    | apply R_update;
        first [ apply okM_idle | apply okM_processing | apply okM_activity
              | apply okM_count | apply okM_child | apply okM_answer
              | apply okM_store; reflexivity | apply okM_await; reflexivity
              | apply okM_auto | apply okM_stop | apply okM_exit
              | apply okM_error ]
    | apply R_alloc; apply okNew_created; reflexivity
    | apply steady_try_catch
    | apply steady_when
    | apply steady_for_of; intros ?
    | apply steady_bind; [|intros ?]
    | match goal with
      | |- steady R (match ?x with _ => _ end) => destruct x
      | |- steady R (let _ := _ in _) => cbv zeta
      end ].

Lemma steady_respondToApproval chatId response :
  steady R (respondToApproval chatId response).
Proof. unfold respondToApproval. std. Qed.

Lemma steady_handleStreamLine line r chatId :
  steady R (handleStreamLine line r chatId).
Proof.
  unfold handleStreamLine, handleControlRequest, assistant_block,
    tool_result_entry, prop.
  std; apply steady_respondToApproval.
Qed.

Lemma steady_createChat dir n sp sid mode :
  steady R (createChat dir n sp sid mode).
Proof. unfold createChat. std. Qed.

Lemma steady_sendMessage chatId message0 attachments :
  steady R (sendMessage chatId message0 attachments).
Proof. unfold sendMessage. std. Qed.

Lemma steady_setAutoApprove chatId enabled :
  steady R (setAutoApprove chatId enabled).
Proof. unfold setAutoApprove. std; apply steady_respondToApproval. Qed.

Lemma steady_stopChat chatId : steady R (stopChat chatId).
Proof. unfold stopChat, kill. std. Qed.

Lemma steady_cleanup : steady R cleanup.
Proof. unfold cleanup. std. Qed.

Lemma steady_on_exit r chatId : steady R (on_exit r chatId).
Proof. unfold on_exit. std. Qed.

Lemma steady_on_error r chatId e : steady R (on_error r chatId e).
Proof. unfold on_error. std. Qed.

(** [sendMessage] as a whole, for relations that look at the message count *)
Hypothesis R_send : ∀ chatId message0 attachments,
  steady R (sendMessage chatId message0 attachments).

Lemma run_steady a w w' : run a w = Some w' → R w w'.
Proof.
  intros Hrun. destruct a; cbn [run] in Hrun.
  - injection Hrun as <-. apply steady_createChat.
  - injection Hrun as <-. apply R_send.
  - injection Hrun as <-. apply steady_respondToApproval.
  - injection Hrun as <-. apply steady_setAutoApprove.
  - injection Hrun as <-. apply steady_stopChat.
  - injection Hrun as <-. apply steady_cleanup.
  - destruct (procs w !! h) as [p|]; [|done].
    destruct (rl_closed p); [done|].
    injection Hrun as <-. apply steady_handleStreamLine.
  - destruct (procs w !! h) as [p|] eqn:Hp; [|done].
    destruct (exited p) eqn:He; [done|].
    injection Hrun as <-. eapply R_trans; [by eapply R_exit|].
    apply steady_on_exit.
  - destruct (procs w !! h) as [p|]; [|done].
    injection Hrun as <-. apply steady_on_error.
  - destruct (timers w) as [|[h line] rest] eqn:Ht; [done|].
    injection Hrun as <-. by eapply R_timer_fires.
Qed.

Lemma run_all_steady trace : ∀ w w', run_all trace w = Some w' → R w w'.
Proof.
  induction trace as [|a trace IH]; intros w w' Hrun; cbn [run_all] in Hrun.
  - injection Hrun as <-. apply R_refl.
  - destruct (run a w) as [w1|] eqn:Ha; [|done].
    eapply R_trans; [by eapply run_steady|by apply IH].
Qed.
End Steady.


(** ** Answering an approval request *)

Section Approval.
Context {rt : Runtime}.

(** The state after [respondToApproval] has found the request and a stdin,
    in one equation: the line is written and the request removed before
    the audit entry is built, which fails when the name of the tool cannot
    be converted to a string. *)
Lemma respondToApproval_found w chatId response r managed request0 h :
  chats w !! chatId = Some r → heap w !! r = Some managed →
  pa_get (response_key response) (pendingApprovals managed) = Some request0 →
  current_stdin w managed = Some h →
  respondToApproval chatId response w =
    let heap' := alter (λ m, set_processState processing
                               (set_pendingApprovals
                                  (pa_delete (response_key response)) m))
                   r (heap w) in
    let procs' := alter (write_stdin
                           (str_or_undefined
                              (JSON_stringify (control_response response request0))
                            +:+ str1 newline)) h (procs w) in
    match approval_log_message response request0 with
    | Some text =>
        (Ok true,
         {| chats := chats w; heap := heap'; procs := procs';
            emitted := emitted w
                       ++ [chat_status chatId "running" (Some processing) None;
                           transcript_entry
                             {| msg_id := slice0 8 (randomUUID (clock w));
                                msg_chat_id := chatId; msg_type := ty_log_event;
                                content := LogEventContent "approval_response" text;
                                msg_timestamp := Date_toISOString (S (clock w)) |}];
            timers := timers w;
            clock := S (S (clock w)) |})
    | None =>
        (Throw TypeError,
         {| chats := chats w; heap := heap'; procs := procs';
            emitted := emitted w
                       ++ [chat_status chatId "running" (Some processing) None];
            timers := timers w;
            clock := S (clock w) |})
    end.
Proof.
  intros Hc Hh Hp Hs. unfold respondToApproval.
  erewrite bind_Ok by reflexivity. rewrite Hc.
  erewrite bind_Ok by (by apply read_Some). rewrite Hp.
  erewrite bind_Ok by reflexivity. rewrite Hs.
  do 4 mstep. cbv zeta.
  destruct (approval_log_message response request0) as [text|].
  - do 3 mstep. rewrite mret_run. by rewrite <- app_assoc.
  - erewrite bind_Throw by reflexivity. done.
Qed.

Lemma approval_log_message_Some response request0 tn :
  js_String (tool_name request0) = Some tn →
  approval_log_message response request0
  = Some ((match behavior response with allow => "✅" | deny => "❌" end)
          +:+ " " +:+ tn +:+ ": " +:+ behavior_string (behavior response)).
Proof. intros H. unfold approval_log_message. by rewrite H. Qed.

Lemma approval_log_message_printable response request0 :
  match approval_log_message response request0 with
  | Some _ => printable (tool_name request0) = true
  | None => printable (tool_name request0) = false
  end.
Proof.
  unfold approval_log_message, printable.
  by destruct (js_String (tool_name request0)).
Qed.

Lemma respondToApproval_success w chatId response r managed request0 h text :
  chats w !! chatId = Some r → heap w !! r = Some managed →
  pa_get (response_key response) (pendingApprovals managed) = Some request0 →
  current_stdin w managed = Some h →
  approval_log_message response request0 = Some text →
  respondToApproval chatId response w =
    (Ok true,
     {| chats := chats w;
        heap := alter (λ m, set_processState processing
                              (set_pendingApprovals
                                 (pa_delete (response_key response)) m))
                  r (heap w);
        procs := alter (write_stdin
                          (str_or_undefined
                             (JSON_stringify (control_response response request0))
                           +:+ str1 newline)) h (procs w);
        emitted := emitted w
                   ++ [chat_status chatId "running" (Some processing) None;
                       transcript_entry
                         {| msg_id := slice0 8 (randomUUID (clock w));
                            msg_chat_id := chatId; msg_type := ty_log_event;
                            content := LogEventContent "approval_response" text;
                            msg_timestamp := Date_toISOString (S (clock w)) |}];
        timers := timers w;
        clock := S (S (clock w)) |}).
Proof.
  intros Hc Hh Hp Hs Ht.
  rewrite (respondToApproval_found _ _ _ _ _ _ _ Hc Hh Hp Hs). cbv zeta.
  by rewrite Ht.
Qed.

Lemma respondToApproval_no_stdin w chatId response r managed request0 :
  chats w !! chatId = Some r → heap w !! r = Some managed →
  pa_get (response_key response) (pendingApprovals managed) = Some request0 →
  current_stdin w managed = None →
  respondToApproval chatId response w = (Ok false, w).
Proof.
  intros Hc Hh Hp Hs. unfold respondToApproval.
  erewrite bind_Ok by reflexivity. rewrite Hc.
  erewrite bind_Ok by (by apply read_Some). rewrite Hp.
  erewrite bind_Ok by reflexivity. by rewrite Hs.
Qed.

(** A request id that is not pending: the error message is built, and
    building it fails when the id cannot be converted to a string. *)
Lemma respondToApproval_not_pending w chatId response r managed :
  chats w !! chatId = Some r → heap w !! r = Some managed →
  pa_get (response_key response) (pendingApprovals managed) = None →
  respondToApproval chatId response w
  = (if printable (resp_request_id response) then Ok false else Throw TypeError, w).
Proof.
  intros Hc Hh Hp. unfold respondToApproval.
  erewrite bind_Ok by reflexivity. rewrite Hc.
  erewrite bind_Ok by (by apply read_Some). rewrite Hp.
  destruct (printable (resp_request_id response)) eqn:E.
  - apply printable_Some in E as [s E].
    by erewrite bind_Ok by (by eapply console_log_Some).
  - apply printable_None in E.
    by erewrite bind_Throw by (by apply console_log_None).
Qed.

(** Without a child to write to, the call fails and changes nothing. *)
Lemma respondToApproval_refused w chatId response r managed :
  chats w !! chatId = Some r → heap w !! r = Some managed →
  current_stdin w managed = None →
  respondToApproval chatId response w
  = (match pa_get (response_key response) (pendingApprovals managed) with
     | Some _ => Ok false
     | None => if printable (resp_request_id response)
               then Ok false else Throw TypeError
     end, w).
Proof.
  intros Hc Hh Hs.
  destruct (pa_get _ _) as [request0|] eqn:Hp.
  - by eapply respondToApproval_no_stdin.
  - by eapply respondToApproval_not_pending.
Qed.

(** C1.  A decision sent by [respondToApproval] (for a request that is
    pending, to a current child with a stdin) appends exactly one chunk
    to the stdin of the current child: the JSON text of the envelope
    [{type: "control_response", response: {subtype: "success",
    request_id, response: payload}}] followed by a newline, the text
    itself holding no line break.  The payload is [{behavior: "allow",
    updatedInput, toolUseID}] with the caller's edited input when one is
    supplied and the request's input otherwise, and the request's
    tool_use_id; or [{behavior: "deny", message}] with the caller's
    message when one is supplied and the default reason otherwise.  The
    call then returns [true]; when the tool name of the request cannot be
    converted to a string it throws a TypeError instead, from the audit
    entry it builds after the line has been written. *)
Theorem respondToApproval_writes_control_response
    w chatId response r managed request0 h p chunks :
  chats w !! chatId = Some r → heap w !! r = Some managed →
  pa_get (response_key response) (pendingApprovals managed) = Some request0 →
  currentProcess managed = Some h → procs w !! h = Some p →
  stdin p = Some chunks →
  let payload :=
    match behavior response with
    | allow =>
        JObj [("behavior", JStr "allow");
              ("updatedInput",
               if truthy (updated_input response) then updated_input response
               else input request0);
              ("toolUseID", tool_use_id request0)]
    | deny =>
        JObj [("behavior", JStr "deny");
              ("message",
               if truthy (message response) then message response
               else JStr "User denied this action")]
    end in
  let envelope :=
    JObj [("type", JStr "control_response");
          ("response", JObj [("subtype", JStr "success");
                             ("request_id", resp_request_id response);
                             ("response", payload)])] in
  ∃ w' p' body,
    respondToApproval chatId response w
    = (if printable (tool_name request0) then Ok true else Throw TypeError, w')
    ∧ JSON_stringify envelope = Some body
    ∧ no_newline body = true
    ∧ stdin p' = Some (chunks ++ [body +:+ str1 newline])
    ∧ procs w' = <[h := p']> (procs w).
Proof.
  intros Hc Hh Hp Hcur Hproc Hin payload envelope.
  assert (Hs : current_stdin w managed = Some h).
  { apply current_stdin_Some. eauto. }
  assert (Henv : control_response response request0 = envelope).
  { unfold control_response, envelope, payload, js_or. by destruct (behavior response). }
  destruct (JSON_stringify envelope) as [body|] eqn:Ebody; [|done].
  assert (Hprocs : alter (write_stdin
                            (str_or_undefined
                               (JSON_stringify (control_response response request0))
                             +:+ str1 newline)) h (procs w)
                   = <[h := write_stdin (body +:+ str1 newline) p]> (procs w)).
  { rewrite Henv, Ebody. cbn [str_or_undefined]. by apply list_alter_insert. }
  rewrite (respondToApproval_found _ _ _ _ _ _ _ Hc Hh Hp Hs). cbv zeta.
  pose proof (approval_log_message_printable response request0) as Hprint.
  destruct (approval_log_message response request0) as [text|]; rewrite Hprint;
    eexists _, (write_stdin (body +:+ str1 newline) p), body;
    (split; [reflexivity|]); wsimpl;
    (split; [done|]); (split; [by eapply JSON_stringify_one_line|]);
    (split; [unfold write_stdin; cbn [stdin]; by rewrite Hin|]); exact Hprocs.
Qed.

End Approval.


(** C1 on the first of two pending requests of the captured run *)
Lemma respondToApproval_writes_control_response_witness :
  ∃ managed request0 p,
    chats world_two_pending !! "00000000" = Some 0%nat
    ∧ heap world_two_pending !! 0%nat = Some managed
    ∧ pa_get (response_key (allow_req "req-1")) (pendingApprovals managed)
      = Some request0
    ∧ currentProcess managed = Some 0%nat
    ∧ procs world_two_pending !! 0%nat = Some p
    ∧ stdin p = Some []
    ∧ ∃ w' p' body,
        respondToApproval (rt := demo_runtime) "00000000" (allow_req "req-1")
          world_two_pending = (Ok true, w')
        ∧ JSON_stringify
            (JObj [("type", JStr "control_response");
                   ("response",
                    JObj [("subtype", JStr "success");
                          ("request_id", JStr "req-1");
                          ("response",
                           JObj [("behavior", JStr "allow");
                                 ("updatedInput", JObj [("command", JStr "ls /tmp")]);
                                 ("toolUseID", JStr "toolu_01")])])]) = Some body
        ∧ no_newline body = true
        ∧ stdin p' = Some ([] ++ [body +:+ str1 newline])
        ∧ procs w' = <[0%nat := p']> (procs world_two_pending).
Proof.
  eexists _, _, _.
  split; [reflexivity|]. split; [reflexivity|]. split; [reflexivity|].
  split; [reflexivity|]. split; [reflexivity|]. split; [reflexivity|].
  exact (respondToApproval_writes_control_response (rt := demo_runtime)
           world_two_pending "00000000" (allow_req "req-1") 0%nat _ _ 0%nat _ []
           eq_refl eq_refl eq_refl eq_refl eq_refl eq_refl).
Defined.



(** ** Sending a message *)

Section Sending.
Context {rt : Runtime}.

Lemma sendMessage_accept w chatId message0 attachments r managed :
  chats w !! chatId = Some r → heap w !! r = Some managed →
  isProcessing managed = false ∨ process_gone w managed = true →
  sendMessage chatId message0 attachments w =
    (Ok true,
     {| chats := chats w;
        heap := <[r := started managed (length (procs w))
                          (Date_toISOString (clock w))]> (heap w);
        procs := procs w ++ [new_child managed r chatId];
        emitted := emitted w
                   ++ [chat_status chatId "running" (Some processing) None];
        timers := timers w
                  ++ [(length (procs w),
                       str_or_undefined
                         (JSON_stringify (user_message message0 attachments))
                       +:+ str1 newline)];
        clock := S (clock w) |}).
Proof.
  intros Hc Hh Hfree. unfold sendMessage.
  mstep. rewrite Hc. mstep. mstep.
  destruct (isProcessing managed && process_gone w managed) eqn:Estale.
  - rewrite when_true. mstep. mstep.
    cbn [isProcessing set_processState set_isProcessing].
    repeat mstep. rewrite mret_run. f_equal.
    f_equal. rewrite !list_alter_alter_eq.
    by rewrite (list_alter_insert _ _ _ _ Hh).
  - rewrite when_false. mstep. mstep.
    assert (Hp : isProcessing managed = false).
    { destruct Hfree as [|Hg]; [done|]. rewrite Hg, andb_true_r in Estale. done. }
    rewrite Hp. repeat mstep. rewrite mret_run. f_equal.
    f_equal. rewrite !list_alter_alter_eq.
    by rewrite (list_alter_insert _ _ _ _ Hh).
Qed.

Lemma sendMessage_reject w chatId message0 attachments r managed :
  chats w !! chatId = Some r → heap w !! r = Some managed →
  isProcessing managed = true → process_gone w managed = false →
  sendMessage chatId message0 attachments w = (Ok false, w).
Proof.
  intros Hc Hh Hp Hg. unfold sendMessage.
  mstep. rewrite Hc. mstep. mstep. rewrite Hp, Hg. simpl andb.
  rewrite when_false. mstep. mstep. destruct w. by rewrite Hp.
Qed.

(** What an accepted [sendMessage] found and what it left *)
Lemma sendMessage_accepted_inv w chatId message0 attachments w' :
  sendMessage chatId message0 attachments w = (Ok true, w') →
  ∃ r managed,
    chats w !! chatId = Some r ∧ heap w !! r = Some managed
    ∧ (isProcessing managed = false ∨ process_gone w managed = true)
    ∧ w' = {| chats := chats w;
              heap := <[r := started managed (length (procs w))
                                (Date_toISOString (clock w))]> (heap w);
              procs := procs w ++ [new_child managed r chatId];
              emitted := emitted w
                         ++ [chat_status chatId "running" (Some processing) None];
              timers := timers w
                        ++ [(length (procs w),
                             str_or_undefined
                               (JSON_stringify (user_message message0 attachments))
                             +:+ str1 newline)];
              clock := S (clock w) |}.
Proof.
  intros Hrun.
  destruct (chats w !! chatId) as [r|] eqn:Hc.
  2: { unfold sendMessage in Hrun. revert Hrun. mstep. by rewrite Hc. }
  destruct (heap w !! r) as [managed|] eqn:Hh.
  2: { unfold sendMessage in Hrun. revert Hrun. mstep. rewrite Hc.
       erewrite bind_Throw; [done|]. unfold read. by rewrite Hh. }
  destruct (isProcessing managed) eqn:Hp; [destruct (process_gone w managed) eqn:Hg|].
  - rewrite (sendMessage_accept _ _ _ _ _ _ Hc Hh) in Hrun by auto.
    injection Hrun as <-. exists r, managed. auto.
  - by rewrite (sendMessage_reject _ _ _ _ _ _ Hc Hh Hp Hg) in Hrun.
  - rewrite (sendMessage_accept _ _ _ _ _ _ Hc Hh) in Hrun by auto.
    injection Hrun as <-. exists r, managed. auto.
Qed.

(** C3, as the code has it.  While the [isProcessing] flag of a session is
    set and its current child has neither been killed nor reported an
    exit code, [sendMessage] returns [false] without throwing, spawns
    nothing and leaves the world as it was; this is the situation right
    after an accepted [sendMessage], so a second call that follows
    directly is rejected. *)
Theorem sendMessage_rejected_while_processing
    w chatId message0 attachments message1 attachments1 :
  (∀ r managed,
     chats w !! chatId = Some r → heap w !! r = Some managed →
     isProcessing managed = true → process_gone w managed = false →
     sendMessage chatId message1 attachments1 w = (Ok false, w))
  ∧ (∀ w1, sendMessage chatId message0 attachments w = (Ok true, w1) →
           sendMessage chatId message1 attachments1 w1 = (Ok false, w1)).
Proof.
  split.
  - intros r managed. apply sendMessage_reject.
  - intros w1 (r & managed & Hc & Hh & _ & ->)%sendMessage_accepted_inv.
    eapply sendMessage_reject; wsimpl.
    + exact Hc.
    + apply list_lookup_insert_eq. by eapply lookup_lt_Some.
    + reflexivity.
    + unfold process_gone. cbn [started currentProcess]. wsimpl.
      rewrite lookup_app_r by done. by rewrite Nat.sub_diag.
Qed.

(** C8.  An accepted [sendMessage] spawns one child whose arguments are
    the streaming and permission flags followed by the conversation
    identity: [--session-id <sessionId>] (and [--append-system-prompt]
    with the system prompt when there is one) exactly when the message
    count of the session is 0, and [--resume <sessionId>] exactly when it
    is greater; the count is then incremented.  A chat created from an
    existing session id starts with count 1 under that id, a chat
    created without one with count 0. *)
Theorem spawn_identity_follows_message_count :
  (∀ w chatId message0 attachments w' r managed,
     chats w !! chatId = Some r → heap w !! r = Some managed →
     sendMessage chatId message0 attachments w = (Ok true, w') →
     ∃ child managed',
       procs w' = procs w ++ [child]
       ∧ heap w' !! r = Some managed'
       ∧ messageCount managed' = S (messageCount managed)
       ∧ (messageCount managed = 0%nat →
          spawn_args child =
            common_args managed
            ++ ["--session-id"; sessionId managed]
            ++ match systemPrompt managed with
               | Some sp => if truthy_str sp
                            then ["--append-system-prompt"; sp] else []
               | None => []
               end)
       ∧ (0 < messageCount managed →
          spawn_args child = common_args managed ++ ["--resume"; sessionId managed])%nat)
  ∧ (∀ w dir chatName systemPrompt0 existingSessionId mode,
       ∃ c managed w',
         createChat dir chatName systemPrompt0 existingSessionId mode w = (Ok c, w')
         ∧ chats w' !! id c = Some (length (heap w))
         ∧ heap w' !! length (heap w) = Some managed
         ∧ match existingSessionId with
           | Some sid =>
               if truthy_str sid
               then messageCount managed = 1%nat ∧ sessionId managed = sid
               else messageCount managed = 0%nat
           | None => messageCount managed = 0%nat
           end).
Proof.
  split.
  - intros w chatId message0 attachments w' r managed Hc Hh
      (r' & managed0 & Hc' & Hh' & _ & ->)%sendMessage_accepted_inv.
    assert (r' = r) as -> by congruence.
    assert (managed0 = managed) as -> by congruence.
    eexists _, _. wsimpl. split; [reflexivity|].
    split; [apply list_lookup_insert_eq; by eapply lookup_lt_Some|].
    split; [reflexivity|].
    cbn [new_child spawn_args]. unfold build_args, identity_args, opt_truthy.
    split.
    + intros ->. simpl Nat.eqb. cbv iota.
      destruct (systemPrompt managed) as [sp|]; [|done]. by destruct (truthy_str sp).
    + intros Hpos. destruct (messageCount managed); [lia|done].
  - intros w dir chatName systemPrompt0 existingSessionId mode.
    unfold createChat, fresh_id.
    destruct (opt_truthy existingSessionId) as [sid|] eqn:Esid.
    + eexists _, _, _. unfold mbind, M_bind, mret, M_ret, alloc, modify, emit,
        fresh_uuid, new_Date_toISOString. cbn -[slice0 String.append].
      split; [reflexivity|]. cbn -[slice0 String.append].
      split; [apply lookup_insert_eq|].
      split; [by rewrite lookup_app_r, Nat.sub_diag|].
      unfold opt_truthy in Esid. destruct existingSessionId as [sid'|]; [|done].
      destruct (truthy_str sid'); [|done]. injection Esid as ->.
      cbn. done.
    + eexists _, _, _. unfold mbind, M_bind, mret, M_ret, alloc, modify, emit,
        fresh_uuid, new_Date_toISOString. cbn -[slice0 String.append].
      split; [reflexivity|]. cbn -[slice0 String.append].
      split; [apply lookup_insert_eq|].
      split; [by rewrite lookup_app_r, Nat.sub_diag|].
      unfold opt_truthy in Esid. destruct existingSessionId as [sid'|]; [|done].
      by destruct (truthy_str sid').
Qed.
End Sending.

Section Exit.
Context {rt : Runtime}.

(** A session without a current child refuses every answer and stays as
    it is. *)
Lemma respondToApproval_no_child w chatId response r managed :
  chats w !! chatId = Some r → heap w !! r = Some managed →
  currentProcess managed = None →
  respondToApproval chatId response w
  = (match pa_get (response_key response) (pendingApprovals managed) with
     | Some _ => Ok false
     | None => if printable (resp_request_id response)
               then Ok false else Throw TypeError
     end, w).
Proof.
  intros Hc Hh Hcur. eapply respondToApproval_refused; [done..|].
  unfold current_stdin. by rewrite Hcur.
Qed.

(** *** Only a message gives a session a child *)

Lemma no_child_refl r w : no_child r w w.
Proof. intros m Hm Hcur. eauto. Qed.

Lemma no_child_trans r w1 w2 w3 : no_child r w1 w2 → no_child r w2 w3 → no_child r w1 w3.
Proof.
  intros H12 H23 m Hm Hcur. destruct (H12 m Hm Hcur) as (m2 & Hm2 & Hcur2).
  eauto.
Qed.

Lemma no_child_same_heap r w w' : heap w' = heap w → no_child r w w'.
Proof. intros Hh m Hm Hcur. rewrite Hh. eauto. Qed.

Lemma no_child_update r r' f :
  (∀ m, currentProcess m = None → currentProcess (f m) = None) →
  steady (no_child r) (update r' f).
Proof.
  intros Hf w m Hm Hcur. unfold update, modify. wsimpl.
  destruct (decide (r' = r)) as [->|Hne].
  - exists (f m). by rewrite list_lookup_alter_eq, Hm; auto.
  - exists m. by rewrite list_lookup_alter_ne.
Qed.

Lemma no_child_alloc r m0 : steady (no_child r) (alloc m0).
Proof.
  intros w m Hm Hcur. unfold alloc. wsimpl. exists m. split; [|done].
  rewrite lookup_app_l; [done|]. by eapply lookup_lt_Some.
Qed.

Ltac no_child_steady r lem :=
  let keeps := constr:(λ f : ManagedChat → ManagedChat,
                         ∀ m, currentProcess m = None →
                              currentProcess (f m) = None) in
  let any_child := constr:(λ _ : ChildProcess → ChildProcess, True) in
  let any_new := constr:(λ _ : ManagedChat, True) in
  first [ eapply lem with (R := no_child r) (okM := keeps) (okP := any_child)
        | eapply lem with (R := no_child r) (okM := keeps)
        | eapply lem with (R := no_child r) (okNew := any_new)
        | eapply lem with (R := no_child r) (okP := any_child)
        | eapply lem with (R := no_child r) ];
  first [ apply no_child_refl | apply no_child_trans
        | by intros; intros ?; apply no_child_same_heap
        | by intros; apply no_child_same_heap
        | apply no_child_update | intros; apply no_child_alloc
        | done | by intros | idtac ].

(** A step that sends no message to the session gives it no child. *)
Lemma run_no_child r a w w' :
  sends_to r a w = false → run a w = Some w' → no_child r w w'.
Proof.
  intros Hquiet Hrun. destruct a; cbn [run sends_to] in Hrun, Hquiet.
  - injection Hrun as <-. no_child_steady r steady_createChat.
  - injection Hrun as <-. apply bool_decide_eq_false in Hquiet.
    destruct (chats w !! chatId) as [r'|] eqn:Hc.
    2: { unfold sendMessage. mstep. rewrite Hc. apply no_child_refl. }
    destruct (heap w !! r') as [managed|] eqn:Hh.
    2: { unfold sendMessage. mstep. rewrite Hc.
         erewrite bind_Throw by (unfold read; by rewrite Hh). apply no_child_refl. }
    destruct (isProcessing managed) eqn:Hp;
      [destruct (process_gone w managed) eqn:Hg|].
    2: { rewrite (sendMessage_reject _ _ _ _ _ _ Hc Hh Hp Hg). apply no_child_refl. }
    all: rewrite (sendMessage_accept _ _ _ _ _ _ Hc Hh) by auto;
      intros m Hm Hcur; wsimpl; exists m; split; [|done];
      rewrite list_lookup_insert_ne; [done|congruence].
  - injection Hrun as <-. no_child_steady r steady_respondToApproval.
  - injection Hrun as <-. no_child_steady r steady_setAutoApprove.
  - injection Hrun as <-. no_child_steady r steady_stopChat.
  - injection Hrun as <-. no_child_steady r steady_cleanup.
  - destruct (procs w !! h) as [p|]; [|done].
    destruct (rl_closed p); [done|].
    injection Hrun as <-. no_child_steady r steady_handleStreamLine.
  - destruct (procs w !! h) as [p|] eqn:Hp; [|done].
    destruct (exited p) eqn:He; [done|].
    injection Hrun as <-.
    eapply (no_child_trans _ _ (set_procs (alter (set_exited code) h (procs w)) w));
      [by apply no_child_same_heap|].
    no_child_steady r steady_on_exit.
  - destruct (procs w !! h) as [p|]; [|done].
    injection Hrun as <-. no_child_steady r steady_on_error.
  - destruct (timers w) as [|[h line] rest] eqn:Ht; [done|].
    injection Hrun as <-. by apply no_child_same_heap.
Qed.

Lemma run_without_send_no_child r trace : ∀ w w',
  run_without_send r trace w = Some w' → no_child r w w'.
Proof.
  induction trace as [|a trace IH]; intros w w' Hrun; cbn [run_without_send] in Hrun.
  - injection Hrun as <-. apply no_child_refl.
  - destruct (sends_to r a w) eqn:Hquiet; [done|].
    destruct (run a w) as [w1|] eqn:Ha; [|done].
    eapply no_child_trans; [by eapply run_no_child|by apply IH].
Qed.

(** C2, as the code has it.  When a child exits (whatever the process
    state and the exit code), the handler sets [processState] to
    [finished] and [isProcessing] to [false], releases the process handle
    and emits a single status event; the pending approvals are kept.  A
    [respondToApproval] for the session that follows the exit returns
    [false] and changes nothing, as there is no stdin to write to (for an
    id that is not pending and cannot be converted to a string it throws
    a TypeError, changing nothing either); and so it is after any run in
    which no message is sent to the session, whatever else happens.  The
    stale requests are not discarded: the next message is accepted, and
    an answer to a stale request then succeeds and is written to the
    stdin of the new child. *)
Theorem exit_marks_finished_and_keeps_pending
    w h code p managed message0 attachments :
  procs w !! h = Some p → exited p = false →
  heap w !! owner p = Some managed →
  ∃ w' managed',
    run (ProcExit h code) w = Some w'
    ∧ heap w' !! owner p = Some managed'
    ∧ processState managed' = finished
    ∧ isProcessing managed' = false
    ∧ currentProcess managed' = None
    ∧ pendingApprovals managed' = pendingApprovals managed
    ∧ emitted w' = emitted w
                   ++ [chat_status (owner_chat p) "ready" (Some finished) None]
    ∧ (chats w !! owner_chat p = Some (owner p) →
       (∀ response,
          respondToApproval (owner_chat p) response w'
          = (match pa_get (response_key response) (pendingApprovals managed) with
             | Some _ => Ok false
             | None => if printable (resp_request_id response)
                       then Ok false else Throw TypeError
             end, w'))
       ∧ ∃ w2 child0,
           sendMessage (owner_chat p) message0 attachments w' = (Ok true, w2)
           ∧ procs w2 = procs w' ++ [child0]
           ∧ ∀ response request0,
               pa_get (response_key response) (pendingApprovals managed)
               = Some request0 →
               ∃ w3 child,
                 respondToApproval (owner_chat p) response w2
                 = (if printable (tool_name request0)
                    then Ok true else Throw TypeError, w3)
                 ∧ procs w3 = procs w' ++ [child]
                 ∧ owner child = owner p
                 ∧ stdin child
                   = Some [str_or_undefined
                             (JSON_stringify (control_response response request0))
                           +:+ str1 newline])
    ∧ (∀ trace w'' chatId response,
         run_without_send (owner p) trace w' = Some w'' →
         chats w'' !! chatId = Some (owner p) →
         ∃ outcome,
           respondToApproval chatId response w'' = (outcome, w'')
           ∧ outcome ≠ Ok true).
Proof.
  intros Hp Hex Hh. unfold run. rewrite Hp, Hex. unfold on_exit.
  mstep. mstep.
  set (managed' := set_currentProcess None
                     (set_processState finished (set_isProcessing false managed))).
  assert (Hclose : ∀ w0, ∃ ps,
             close_stdoutRL (stdoutRL managed') w0 = (Ok tt, set_procs ps w0)).
  { intros w0. unfold close_stdoutRL.
    destruct (stdoutRL managed') as [h'|].
    - eexists. apply update_proc_run.
    - exists (procs w0). by destruct w0. }
  match goal with |- context [mbind _ _ ?w0] => destruct (Hclose w0) as [ps Hps] end.
  erewrite bind_Ok by exact Hps. wsimpl. rewrite emit_run. wsimpl.
  eexists _, managed'. split; [reflexivity|]. wsimpl.
  assert (Hh' : alter (λ m, set_currentProcess None
                              (set_processState finished (set_isProcessing false m)))
                  (owner p) (heap w) !! owner p = Some managed').
  { by rewrite list_lookup_alter_eq, Hh. }
  split; [exact Hh'|].
  repeat (split; [reflexivity|]).
  split; cycle 1.
  { intros trace w'' chatId response Hrun Hc''.
    destruct (run_without_send_no_child _ _ _ _ Hrun managed' Hh' eq_refl)
      as (m'' & Hm'' & Hcur'').
    rewrite (respondToApproval_no_child _ _ response _ _ Hc'' Hm'' Hcur'').
    eexists. split; [reflexivity|].
    destruct (pa_get _ _); [done|].
    by destruct (printable (resp_request_id response)). }
  intros Hc. split.
  { intros response.
    eapply (respondToApproval_no_child _ _ response _ managed');
      [exact Hc|exact Hh'|reflexivity]. }
  eexists _, _. split.
  { eapply sendMessage_accept; wsimpl; [exact Hc|exact Hh'|by left]. }
  wsimpl. split; [reflexivity|].
  intros response request0 Hget.
  erewrite respondToApproval_found; wsimpl.
  2: exact Hc.
  2: { apply list_lookup_insert_eq. by eapply lookup_lt_Some. }
  2: exact Hget.
  2: { unfold current_stdin. cbn [started currentProcess]. wsimpl.
       rewrite lookup_app_r by done. by rewrite Nat.sub_diag. }
  cbv zeta. pose proof (approval_log_message_printable response request0) as Hprint.
  assert (Halter : ∀ f, alter f (length ps) (ps ++ [new_child managed' (owner p)
                                                     (owner_chat p)])
                        = ps ++ [f (new_child managed' (owner p) (owner_chat p))]).
  { intros f. apply list_eq. intros i.
    destruct (decide (i = length ps)) as [->|Hne].
    - rewrite list_lookup_alter_eq, !lookup_app_r by done.
      by rewrite Nat.sub_diag.
    - rewrite list_lookup_alter_ne by done.
      destruct (decide (i < length ps)%nat) as [Hlt|Hge].
      + by rewrite !lookup_app_l.
      + rewrite !lookup_app_r by lia.
        destruct (i - length ps)%nat as [|n] eqn:E; [lia|done]. }
  destruct (approval_log_message response request0) as [text|]; rewrite Hprint;
    eexists _, _; (split; [reflexivity|]); wsimpl;
    (split; [apply Halter|]); by split.
Qed.
End Exit.

(** C3 on the captured first turn *)
Lemma sendMessage_rejected_while_processing_witness :
  ∃ managed,
    chats world_first_turn !! "00000000" = Some 0%nat
    ∧ heap world_first_turn !! 0%nat = Some managed
    ∧ isProcessing managed = true
    ∧ process_gone world_first_turn managed = false
    ∧ sendMessage (rt := demo_runtime) "00000000" "again" None world_first_turn
      = (Ok false, world_first_turn).
Proof.
  eexists. split; [reflexivity|]. split; [reflexivity|].
  split; [reflexivity|]. split; [reflexivity|].
  exact (proj1 (sendMessage_rejected_while_processing (rt := demo_runtime)
                  world_first_turn "00000000" "hello" None "again" None)
           0%nat _ eq_refl eq_refl eq_refl eq_refl).
Defined.

(** C3 fails as stated: once the result line has arrived the next message
    is accepted, and its child runs beside the first, which has not
    exited.  A message is also accepted after [stopChat], with the state
    still [processing] and the killed child not yet gone. *)
Lemma two_live_children_counterexample :
  (run_all (rt := demo_runtime) trace_second_turn_early init_world
   = Some world_second_turn_early
   ∧ chats world_second_turn_early !! "00000000" = Some 0%nat
   ∧ map exited (live_children world_second_turn_early 0) = [false; false])
  ∧ (run_all (rt := demo_runtime) trace_stopped init_world = Some world_stopped
     ∧ (processState <$> heap world_stopped !! 0%nat) = Some processing
     ∧ (exited <$> procs world_stopped !! 0%nat) = Some false
     ∧ (sendMessage (rt := demo_runtime) "00000000" "still there?" None
          world_stopped).1 = Ok true).
Proof. repeat split; vm_compute; reflexivity. Qed.

(** C8 on the first message of a fresh chat *)
Lemma spawn_identity_follows_message_count_witness :
  ∃ managed w',
    chats world_created !! "00000000" = Some 0%nat
    ∧ heap world_created !! 0%nat = Some managed
    ∧ sendMessage (rt := demo_runtime) "00000000" "hello" None world_created
      = (Ok true, w')
    ∧ ∃ child managed',
        procs w' = procs world_created ++ [child]
        ∧ heap w' !! 0%nat = Some managed'
        ∧ messageCount managed' = S (messageCount managed)
        ∧ (messageCount managed = 0%nat →
           spawn_args child =
             common_args managed
             ++ ["--session-id"; sessionId managed]
             ++ match systemPrompt managed with
                | Some sp => if truthy_str sp
                             then ["--append-system-prompt"; sp] else []
                | None => []
                end)
        ∧ (0 < messageCount managed →
           spawn_args child = common_args managed ++ ["--resume"; sessionId managed])%nat.
Proof.
  eexists _, _. split; [reflexivity|]. split; [reflexivity|].
  assert (Hrun : sendMessage (rt := demo_runtime) "00000000" "hello" None world_created
                 = (Ok true, (sendMessage (rt := demo_runtime) "00000000" "hello" None
                                world_created).2))
    by (vm_compute; reflexivity).
  split; [exact Hrun|].
  exact (proj1 (spawn_identity_follows_message_count (rt := demo_runtime))
           world_created "00000000" "hello" None _ 0%nat _ eq_refl eq_refl Hrun).
Defined.

(** C2 on the captured run *)
Lemma exit_marks_finished_and_keeps_pending_witness :
  ∃ p managed,
    procs world_two_pending !! 0%nat = Some p
    ∧ exited p = false
    ∧ heap world_two_pending !! owner p = Some managed
    ∧ ∃ w' managed',
        run (rt := demo_runtime) (ProcExit 0 (Some 1)) world_two_pending = Some w'
        ∧ heap w' !! owner p = Some managed'
        ∧ processState managed' = finished
        ∧ isProcessing managed' = false
        ∧ currentProcess managed' = None
        ∧ pendingApprovals managed' = pendingApprovals managed
        ∧ emitted w' = emitted world_two_pending
                       ++ [chat_status (owner_chat p) "ready" (Some finished) None]
        ∧ respondToApproval (rt := demo_runtime) (owner_chat p) (allow_req "req-1") w'
          = (Ok false, w').
Proof.
  eexists _, _. split; [reflexivity|]. split; [reflexivity|]. split; [reflexivity|].
  destruct (exit_marks_finished_and_keeps_pending (rt := demo_runtime)
              world_two_pending 0%nat (Some 1) _ _ "and in /var?" None
              eq_refl eq_refl eq_refl)
    as (w' & managed' & Hrun & Hh & Hst & Hp & Hcur & Hpa & He & Hresp & _).
  exists w', managed'. repeat (split; [assumption|]).
  exact (proj1 (Hresp eq_refl) (allow_req "req-1")).
Defined.

(** C2 fails as stated: the child dies with exit code 1 while two approvals
    are pending; both stay in [pendingApprovals] and the state is
    [finished], not [error].  After the next message the first of them is
    answered with success, on the stdin of the second child. *)
Lemma exit_keeps_pending_counterexample :
  ∃ managed,
    run_all (rt := demo_runtime) trace_exit_while_pending init_world
    = Some world_exit_while_pending
    ∧ heap world_exit_while_pending !! 0%nat = Some managed
    ∧ pending_ids (pendingApprovals managed)
      = [JStr "req-1"; JStr "req-2"]
    ∧ pendingApprovals managed ≠ []
    ∧ processState managed = finished
    ∧ ∃ w2 w3,
        sendMessage (rt := demo_runtime) "00000000" "and in /var?" None
          world_exit_while_pending = (Ok true, w2)
        ∧ respondToApproval (rt := demo_runtime) "00000000" (allow_req "req-1") w2
          = (Ok true, w3)
        ∧ (stdin <$> procs w3 !! 1%nat)
          = Some (Some [json_text
               "{'type':'control_response','response':{'subtype':'success','request_id':'req-1','response':{'behavior':'allow','updatedInput':{'command':'ls /tmp'},'toolUseID':'toolu_01'}}}"
               +:+ str1 newline]).
Proof.
  eexists. split; [vm_compute; reflexivity|]. split; [reflexivity|].
  split; [reflexivity|]. split; [discriminate|]. split; [reflexivity|].
  eexists _, _. split; [vm_compute; reflexivity|].
  split; vm_compute; reflexivity.
Qed.

(** ** Awaiting approval implies a pending request *)

Section Preservation.
Context {rt : Runtime}.

Lemma preserves_ret {A} (a : A) : preserves (mret a : M A).
Proof. by intros w H. Qed.

Lemma preserves_throw {A} e : preserves (throw e : M A).
Proof. by intros w H. Qed.

Lemma preserves_bind {A B} (m : M A) (f : A → M B) :
  preserves m → (∀ a, preserves (f a)) → preserves (m ≫= f).
Proof.
  intros Hm Hf w H. unfold mbind, M_bind.
  specialize (Hm w H). destruct (m w) as [[a|e] w']; simpl in *; [|done].
  by apply Hf.
Qed.

Lemma preserves_try_catch body : preserves body → preserves (try_catch body).
Proof.
  intros Hb w H. unfold try_catch. specialize (Hb w H).
  by destruct (body w) as [res w'].
Qed.

Lemma preserves_when b body : preserves body → preserves (when_ b body).
Proof. intros Hb. destruct b; [done|]. apply preserves_ret. Qed.

Lemma preserves_for_of {A} (l : list A) body :
  (∀ x, preserves (body x)) → preserves (for_of l body).
Proof.
  intros Hb. induction l as [|x l IH]; simpl.
  - apply preserves_ret.
  - apply preserves_bind; auto.
Qed.

Lemma preserves_same_heap {A} (c : M A) :
  (∀ w, heap (c w).2 = heap w) → preserves c.
Proof. intros Hc w H. unfold all_awaiting_have_pending. by rewrite Hc. Qed.

Lemma preserves_gets {A} (f : World → A) : preserves (gets f).
Proof. by apply preserves_same_heap. Qed.

Lemma preserves_emit e : preserves (emit e).
Proof. by apply preserves_same_heap. Qed.

Lemma preserves_read r : preserves (read r).
Proof. apply preserves_same_heap. intros w. unfold read. by destruct (heap w !! r). Qed.

Lemma preserves_update_proc h f : preserves (update_proc h f).
Proof. by apply preserves_same_heap. Qed.

Lemma preserves_close_stdoutRL rl : preserves (close_stdoutRL rl).
Proof. destruct rl; [apply preserves_update_proc | apply preserves_ret]. Qed.

Lemma preserves_setTimeout_write h line : preserves (setTimeout_write h line).
Proof. by apply preserves_same_heap. Qed.

Lemma preserves_fresh_uuid : preserves fresh_uuid.
Proof. by apply preserves_same_heap. Qed.

Lemma preserves_fresh_id : preserves fresh_id.
Proof. by apply preserves_same_heap. Qed.

Lemma preserves_new_Date : preserves new_Date_toISOString.
Proof. by apply preserves_same_heap. Qed.

Lemma preserves_spawn args dir r chatId : preserves (spawn args dir r chatId).
Proof. by apply preserves_same_heap. Qed.

Lemma preserves_lift_opt {A} e (o : option A) : preserves (lift_opt e o).
Proof. destruct o; [apply preserves_ret | apply preserves_throw]. Qed.

Lemma preserves_prop v k : preserves (prop v k).
Proof. apply preserves_lift_opt. Qed.

Lemma preserves_set_chats f :
  preserves (modify (λ w, set_chats (f w) w)).
Proof. by apply preserves_same_heap. Qed.

Lemma preserves_update r f :
  (∀ m, awaiting_has_pending m → awaiting_has_pending (f m)) →
  preserves (update r f).
Proof.
  intros Hf w H. unfold update, modify, all_awaiting_have_pending in *. simpl.
  apply Forall_alter; [done|]. intros m _. rewrite Forall_forall in H.
  intros Hm. apply Hf. done.
Qed.

Lemma preserves_alloc m : awaiting_has_pending m → preserves (alloc m).
Proof.
  intros Hm w H. unfold alloc, all_awaiting_have_pending in *. simpl.
  apply Forall_app. split; [done|]. by constructor.
Qed.

(** Decomposing a computation into its primitive actions *)
Ltac pres_fun :=
  let m := fresh "m" in
  let H := fresh "H" in
  let Hs := fresh "Hs" in
  intros m H; unfold awaiting_has_pending in *;
  cbn [processState pendingApprovals set_processState set_pendingApprovals
       set_isProcessing set_chat set_messageCount set_currentProcess
       set_stdoutRL set_autoApprove];
  first [ done | intros Hs; first [ discriminate Hs | apply pa_set_nonempty ] ].

Ltac pres :=
  repeat first
    [ apply preserves_ret | apply preserves_throw | apply preserves_gets
    | apply preserves_emit | apply preserves_read | apply preserves_update_proc
    | apply preserves_close_stdoutRL | apply preserves_setTimeout_write
    | apply preserves_fresh_uuid | apply preserves_fresh_id
    | apply preserves_new_Date | apply preserves_spawn
    | apply preserves_lift_opt | apply preserves_prop
    | apply preserves_set_chats
    | apply preserves_update; pres_fun
    | apply preserves_alloc; unfold awaiting_has_pending; done
    | apply preserves_try_catch
    | apply preserves_when
    | apply preserves_for_of; intros ?
    | apply preserves_bind; [|intros ?]
    | match goal with
      | |- preserves (match ?x with _ => _ end) => destruct x
      | |- preserves (let _ := _ in _) => cbv zeta
      end ].

Lemma preserves_respondToApproval chatId response :
  preserves (respondToApproval chatId response).
Proof. unfold respondToApproval. pres. Qed.

Lemma preserves_handleControlRequest msg r chatId :
  preserves (handleControlRequest msg r chatId).
Proof.
  unfold handleControlRequest. pres.
Qed.

Lemma preserves_handleStreamLine line r chatId :
  preserves (handleStreamLine line r chatId).
Proof.
  unfold handleStreamLine, assistant_block, tool_result_entry. pres.
Qed.

Lemma preserves_createChat dir n sp sid mode :
  preserves (createChat dir n sp sid mode).
Proof. unfold createChat. pres. Qed.

Lemma preserves_sendMessage chatId message0 attachments :
  preserves (sendMessage chatId message0 attachments).
Proof. unfold sendMessage. pres. Qed.

Lemma preserves_setAutoApprove chatId enabled :
  preserves (setAutoApprove chatId enabled).
Proof. unfold setAutoApprove. pres. Qed.

Lemma preserves_stopChat chatId : preserves (stopChat chatId).
Proof. unfold stopChat, kill. pres. Qed.

Lemma preserves_cleanup : preserves cleanup.
Proof. unfold cleanup. pres. Qed.

Lemma preserves_on_exit r chatId : preserves (on_exit r chatId).
Proof. unfold on_exit. pres. Qed.

Lemma preserves_on_error r chatId e : preserves (on_error r chatId e).
Proof. unfold on_error. pres. Qed.

Lemma run_preserves a w w' :
  run a w = Some w' → all_awaiting_have_pending w → all_awaiting_have_pending w'.
Proof.
  intros Hrun H. destruct a; simpl in Hrun.
  - injection Hrun as <-. by apply preserves_createChat.
  - injection Hrun as <-. by apply preserves_sendMessage.
  - injection Hrun as <-. by apply preserves_respondToApproval.
  - injection Hrun as <-. by apply preserves_setAutoApprove.
  - injection Hrun as <-. by apply preserves_stopChat.
  - injection Hrun as <-. by apply preserves_cleanup.
  - destruct (procs w !! h) as [p|]; [|done].
    destruct (rl_closed p); [done|].
    injection Hrun as <-. by apply preserves_handleStreamLine.
  - destruct (procs w !! h) as [p|]; [|done].
    destruct (exited p); [done|].
    injection Hrun as <-. by apply preserves_on_exit.
  - destruct (procs w !! h) as [p|]; [|done].
    injection Hrun as <-. by apply preserves_on_error.
  - destruct (timers w) as [|[h line] rest]; [done|].
    by injection Hrun as <-.
Qed.

Lemma run_all_preserves trace : ∀ w w',
  run_all trace w = Some w' →
  all_awaiting_have_pending w → all_awaiting_have_pending w'.
Proof.
  induction trace as [|a trace IH]; intros w w' Hrun H; simpl in Hrun.
  - by injection Hrun as <-.
  - destruct (run a w) as [w1|] eqn:Ha; [|done].
    eapply IH; [exact Hrun|]. by eapply run_preserves.
Qed.

(** C4, as the code has it.  In every state the manager can reach, a
    session whose [processState] is [awaiting_approval] has a non-empty
    [pendingApprovals]: inserting a request establishes both, and every
    operation that empties the map or ends the turn moves the state
    away from [awaiting_approval]. *)
Theorem awaiting_approval_has_pending w r managed :
  reachable w → heap w !! r = Some managed →
  processState managed = awaiting_approval → pendingApprovals managed ≠ [].
Proof.
  intros [trace Hrun] Hh.
  assert (Hinv : all_awaiting_have_pending w).
  { eapply run_all_preserves; [exact Hrun|]. constructor. }
  unfold all_awaiting_have_pending in Hinv. rewrite Forall_lookup in Hinv.
  by apply (Hinv r managed).
Qed.
End Preservation.

(** C4 on the captured run with two pending requests *)
Lemma awaiting_approval_has_pending_witness :
  ∃ managed,
    reachable (rt := demo_runtime) world_two_pending
    ∧ heap world_two_pending !! 0%nat = Some managed
    ∧ processState managed = awaiting_approval
    ∧ pendingApprovals managed ≠ [].
Proof.
  assert (Hreach : reachable (rt := demo_runtime) world_two_pending).
  { exists trace_two_pending. vm_compute. reflexivity. }
  eexists. split; [exact Hreach|]. split; [reflexivity|]. split; [reflexivity|].
  exact (awaiting_approval_has_pending (rt := demo_runtime)
           world_two_pending 0%nat _ Hreach eq_refl eq_refl).
Defined.

(** C4 fails as stated: after one of two pending requests is answered the
    state is [processing] although a request is still pending and the child
    is alive. *)
Lemma answered_one_of_two_counterexample :
  ∃ managed child,
    run_all (rt := demo_runtime) trace_one_answered init_world
    = Some world_one_answered
    ∧ heap world_one_answered !! 0%nat = Some managed
    ∧ pending_ids (pendingApprovals managed) = [JStr "req-2"]
    ∧ currentProcess managed = Some 0%nat
    ∧ procs world_one_answered !! 0%nat = Some child
    ∧ exited child = false
    ∧ processState managed = processing
    ∧ ¬ (processState managed = awaiting_approval
         ↔ pendingApprovals managed ≠ [] ∧ exited child = false).
Proof.
  eexists _, _. split; [vm_compute; reflexivity|].
  do 6 (split; [reflexivity|]).
  intros [_ H]. by discriminate H.
Qed.

(** ** Lines that are not understood *)

Section Tolerance.
Context {rt : Runtime}.

Lemma get_prop_opt_prop msg k0 x k :
  get_prop msg k0 = Some x → get_prop msg k = Some (opt_prop msg k).
Proof. unfold opt_prop. by destruct msg. Qed.

Lemma prop_None v k w : get_prop v k = None → prop v k w = (Throw TypeError, w).
Proof. intros H. unfold prop. by rewrite H. Qed.

Lemma try_catch_run body w :
  try_catch body w = (Ok tt, (body w).2).
Proof. unfold try_catch. by destruct (body w). Qed.

(** C6.  A line that [JSON.parse] rejects, a parsed value whose [type] is
    none of [control_request], [assistant], [user], [result], and a
    [control_request] whose request subtype is not [can_use_tool] are
    all handled without an exception leaving the handler, without any
    event, and without any change to the sessions (process state and
    pending approvals included), the registry, the children or the
    timers. *)
Theorem unknown_input_tolerated w line r chatId :
  (JSON_parse line = None
   ∨ (∃ msg, JSON_parse line = Some msg
             ∧ strict_eq_str (opt_prop msg "type") "control_request" = false
             ∧ strict_eq_str (opt_prop msg "type") "assistant" = false
             ∧ strict_eq_str (opt_prop msg "type") "user" = false
             ∧ strict_eq_str (opt_prop msg "type") "result" = false)
   ∨ (∃ msg, JSON_parse line = Some msg
             ∧ strict_eq_str (opt_prop msg "type") "control_request" = true
             ∧ strict_eq_str (opt_prop (opt_prop msg "request") "subtype")
                 "can_use_tool" = false)) →
  ∃ w',
    handleStreamLine line r chatId w = (Ok tt, w')
    ∧ emitted w' = emitted w ∧ heap w' = heap w ∧ chats w' = chats w
    ∧ procs w' = procs w ∧ timers w' = timers w.
Proof.
  intros Hcase. unfold handleStreamLine. rewrite try_catch_run.
  eexists. split; [reflexivity|].
  destruct Hcase as [Hparse | [(msg & Hparse & Hc & Ha & Hu & Hr)
                              | (msg & Hparse & Hc & Hsub)]];
    rewrite Hparse.
  - done.
  - mstep. mstep.
    destruct (get_prop msg "type") as [ty|] eqn:Hty;
      [|by erewrite bind_Throw by (by apply prop_None)].
    erewrite bind_Ok by (apply prop_Some; by eapply get_prop_opt_prop).
    erewrite bind_Ok by (apply prop_Some; by eapply get_prop_opt_prop).
    rewrite Hc, Ha, Hu, Hr.
    destruct (strict_eq_str (opt_prop msg "type") "system"
              && strict_eq_str (opt_prop msg "subtype") "init"); [done|].
    erewrite bind_Ok by (apply prop_Some; by eapply get_prop_opt_prop).
    simpl andb. rewrite !when_false. done.
  - mstep. mstep.
    destruct (get_prop msg "type") as [ty|] eqn:Hty;
      [|by erewrite bind_Throw by (by apply prop_None)].
    erewrite bind_Ok by (apply prop_Some; by eapply get_prop_opt_prop).
    erewrite bind_Ok by (apply prop_Some; by eapply get_prop_opt_prop).
    rewrite Hc.
    assert (Hsys : strict_eq_str (opt_prop msg "type") "system" = false).
    { destruct (opt_prop msg "type") as [| | | |s| |]; try done. simpl in *.
      apply String.eqb_eq in Hc. by subst. }
    rewrite Hsys. cbn [andb].
    unfold handleControlRequest.
    erewrite bind_Ok by (apply prop_Some; by eapply get_prop_opt_prop).
    rewrite Hsub. cbn [negb]. by rewrite console_log_world.
Qed.
End Tolerance.

(** C6 on a line that is not JSON *)
Lemma unknown_input_tolerated_witness :
  JSON_parse (Runtime := demo_runtime) "Debugger attached." = None
  ∧ ∃ w',
      handleStreamLine (rt := demo_runtime) "Debugger attached." 0 "00000000"
        world_two_pending = (Ok tt, w')
      ∧ emitted w' = emitted world_two_pending
      ∧ heap w' = heap world_two_pending
      ∧ chats w' = chats world_two_pending
      ∧ procs w' = procs world_two_pending
      ∧ timers w' = timers world_two_pending.
Proof.
  assert (H : JSON_parse (Runtime := demo_runtime) "Debugger attached." = None)
    by (vm_compute; reflexivity).
  split; [exact H|].
  exact (unknown_input_tolerated (rt := demo_runtime) world_two_pending
           "Debugger attached." 0%nat "00000000" (or_introl H)).
Defined.

(** ** Content blocks *)

Section Blocks.
Context {rt : Runtime}.

Lemma assistant_block_run chatId ts block w :
  block_well_formed block = true →
  ∃ w' msgs,
    assistant_block chatId ts block w = (Ok tt, w')
    ∧ emitted w' = emitted w ++ map transcript_entry msgs
    ∧ map entry_kind msgs = option_list (block_entry block)
    ∧ Forall (λ m, msg_chat_id m = chatId) msgs
    ∧ same_sessions w w'.
Proof.
  unfold block_well_formed, block_entry, assistant_block. intros Hwf.
  destruct (get_prop block "type") as [ty|] eqn:Hty; [|done].
  assert (Hprop : ∀ k, get_prop block k = Some (opt_prop block k))
    by (intros k; by eapply get_prop_opt_prop).
  assert (ty = opt_prop block "type") as -> by (rewrite Hprop in Hty; congruence).
  erewrite bind_Ok by (by apply prop_Some).
  destruct (strict_eq_str (opt_prop block "type") "text").
  - erewrite bind_Ok by (by apply prop_Some).
    destruct (log_slice (opt_prop block "text")) as [shown|]; [|done].
    apply printable_Some in Hwf as [s Hs].
    mstep. erewrite bind_Ok by (by eapply console_log_Some).
    mstep. rewrite emit_run. wsimpl.
    eexists _, [_]. split; [reflexivity|]. wsimpl.
    split; [reflexivity|]. split; [reflexivity|].
    split; [by repeat constructor|by repeat split].
  - destruct (strict_eq_str (opt_prop block "type") "tool_use").
    + apply printable_Some in Hwf as [s Hs].
      erewrite bind_Ok by (by apply prop_Some).
      erewrite bind_Ok by (by eapply console_log_Some).
      mstep. do 2 (erewrite bind_Ok by (by apply prop_Some)).
      rewrite emit_run. wsimpl.
      eexists _, [_]. split; [reflexivity|]. wsimpl.
      split; [reflexivity|]. split; [reflexivity|].
      split; [by repeat constructor|by repeat split].
    + exists w, []. split; [reflexivity|]. rewrite app_nil_r.
      by repeat split.
Qed.

Lemma assistant_blocks_run chatId ts blocks :
  Forall (λ b, block_well_formed b = true) blocks →
  ∀ w, ∃ w' msgs,
    for_of blocks (assistant_block chatId ts) w = (Ok tt, w')
    ∧ emitted w' = emitted w ++ map transcript_entry msgs
    ∧ map entry_kind msgs = omap block_entry blocks
    ∧ Forall (λ m, msg_chat_id m = chatId) msgs
    ∧ same_sessions w w'.
Proof.
  induction 1 as [|block blocks Hb _ IH]; intros w.
  - exists w, []. split; [reflexivity|]. rewrite app_nil_r. by repeat split.
  - destruct (assistant_block_run chatId ts block w Hb)
      as (w1 & msgs1 & Hrun1 & He1 & Hk1 & Hc1 & Hs1).
    destruct (IH w1) as (w2 & msgs2 & Hrun2 & He2 & Hk2 & Hc2 & Hs2).
    exists w2, (msgs1 ++ msgs2). simpl for_of.
    erewrite bind_Ok by exact Hrun1. split; [exact Hrun2|].
    split; [by rewrite He2, He1, map_app, app_assoc|].
    split.
    { rewrite map_app, Hk1, Hk2. simpl. by destruct (block_entry block). }
    split; [by apply Forall_app|].
    destruct Hs1 as (?&?&?&?), Hs2 as (?&?&?&?).
    unfold same_sessions. repeat split; congruence.
Qed.

Lemma typed_message_props msg k0 s :
  strict_eq_str (opt_prop msg k0) s = true →
  ∀ k, get_prop msg k = Some (opt_prop msg k).
Proof. intros H k. unfold opt_prop in *. by destruct msg. Qed.

Lemma strict_eq_str_other v s t :
  strict_eq_str v s = true → s ≠ t → strict_eq_str v t = false.
Proof.
  destruct v; simpl; try done. intros ->%String.eqb_eq Hne.
  by apply String.eqb_neq.
Qed.

Lemma tool_result_entry_run chatId ts first w :
  strict_eq_str (opt_prop first "type") "tool_result" = true →
  tool_result_entry chatId ts first w =
    match tool_result_content first with
    | Some c =>
        (Ok tt,
         {| chats := chats w; heap := heap w; procs := procs w;
            emitted := emitted w
                       ++ [transcript_entry
                             {| msg_id := slice0 8 (randomUUID (clock w));
                                msg_chat_id := chatId; msg_type := ty_tool_result;
                                content := c; msg_timestamp := ts |}];
            timers := timers w; clock := S (clock w) |})
    | None => (Throw TypeError, w)
    end.
Proof.
  intros Hres. pose proof (typed_message_props _ _ _ Hres) as Hfirst.
  unfold tool_result_entry, tool_result_content.
  erewrite bind_Ok by (by apply prop_Some).
  destruct (js_String (js_or (opt_prop first "content") (JStr EmptyString)))
    as [text|] eqn:Etext.
  - erewrite bind_Ok by (by apply to_string_Some). mstep.
    do 2 (erewrite bind_Ok by (by apply prop_Some)).
    by rewrite emit_run.
  - erewrite bind_Throw; [done|]. unfold to_string. by rewrite Etext.
Qed.

(** C5, as the code has it.  For an assistant line whose content is an
    array of well-formed blocks (none is [null]; the text of a text
    block and the name of a tool use can be written to the log) the
    handler emits transcript entries only, appended to the events
    emitted so far: one per [text] block and one per [tool_use] block,
    in the order of the blocks, and none for a block of any other type.
    For a user line it looks at the first content block only and emits
    one [tool_result] entry when that block is a tool result whose
    content can be converted to a string (the output is its first 100
    code units), and nothing otherwise.  Neither changes a session. *)
Theorem stream_line_entries_in_block_order w line r chatId msg :
  JSON_parse line = Some msg →
  (∀ blocks,
     strict_eq_str (opt_prop msg "type") "assistant" = true →
     opt_prop (opt_prop msg "message") "content" = JArr blocks →
     Forall (λ b, block_well_formed b = true) blocks →
     ∃ w' msgs,
       handleStreamLine line r chatId w = (Ok tt, w')
       ∧ emitted w' = emitted w ++ map transcript_entry msgs
       ∧ map entry_kind msgs = omap block_entry blocks
       ∧ Forall (λ m, msg_chat_id m = chatId) msgs
       ∧ same_sessions w w')
  ∧ (strict_eq_str (opt_prop msg "type") "user" = true →
     truthy (opt_prop (opt_prop msg "message") "content") = true →
     let first := index0 (opt_prop (opt_prop msg "message") "content") in
     ∃ w' msgs,
       handleStreamLine line r chatId w = (Ok tt, w')
       ∧ emitted w' = emitted w ++ map transcript_entry msgs
       ∧ map entry_kind msgs =
           (if strict_eq_str (opt_prop first "type") "tool_result"
            then match tool_result_content first with
                 | Some c => [(ty_tool_result, c)]
                 | None => []
                 end
            else [])
       ∧ Forall (λ m, msg_chat_id m = chatId) msgs
       ∧ same_sessions w w').
Proof.
  intros Hparse. split.
  - intros blocks Hty Hcontent Hwf.
    pose proof (typed_message_props _ _ _ Hty) as Hprop.
    destruct (assistant_blocks_run chatId (Date_toISOString (clock w)) blocks Hwf
                (set_clock (S (clock w)) w))
      as (w1 & msgs & Hrun & He & Hk & Hc & Hs).
    exists w1, msgs.
    split; [|split; [exact He|split; [exact Hk|split; [exact Hc|exact Hs]]]].
    unfold handleStreamLine. rewrite try_catch_run, Hparse. f_equal.
    mstep. mstep.
    do 2 (erewrite bind_Ok by (by apply prop_Some)).
    rewrite (strict_eq_str_other _ _ "system" Hty) by done.
    rewrite (strict_eq_str_other _ _ "control_request" Hty) by done.
    rewrite (strict_eq_str_other _ _ "user" Hty) by done.
    rewrite (strict_eq_str_other _ _ "result" Hty) by done.
    rewrite Hty. cbn [andb].
    erewrite bind_Ok by (by apply prop_Some).
    rewrite Hcontent. cbn [truthy]. rewrite when_true, !when_false.
    erewrite bind_Ok.
    2: { erewrite bind_Ok by (apply lift_opt_Some). exact Hrun. }
    reflexivity.
  - intros Hty Htruthy first.
    pose proof (typed_message_props _ _ _ Hty) as Hprop.
    unfold handleStreamLine. rewrite try_catch_run, Hparse.
    mstep. mstep.
    do 2 (erewrite bind_Ok by (by apply prop_Some)).
    rewrite (strict_eq_str_other _ _ "system" Hty) by done.
    rewrite (strict_eq_str_other _ _ "control_request" Hty) by done.
    rewrite (strict_eq_str_other _ _ "assistant" Hty) by done.
    rewrite (strict_eq_str_other _ _ "result" Hty) by done.
    rewrite Hty. cbn [andb].
    erewrite bind_Ok by (by apply prop_Some).
    rewrite Htruthy. rewrite when_true, !when_false. fold first.
    mstep.
    destruct (strict_eq_str (opt_prop first "type") "tool_result") eqn:Hres.
    + rewrite when_true.
      pose proof (tool_result_entry_run chatId (Date_toISOString (clock w)) first
                    (set_clock (S (clock w)) w) Hres) as Hentry.
      unfold set_clock in Hentry. cbn [chats heap procs emitted timers clock] in Hentry.
      destruct (tool_result_content first) as [c|].
      * erewrite bind_Ok by exact Hentry.
        rewrite mret_run. wsimpl.
        eexists _, [_]. split; [reflexivity|]. wsimpl.
        split; [reflexivity|]. split; [reflexivity|].
        split; [by repeat constructor|by repeat split].
      * erewrite bind_Throw by exact Hentry. wsimpl.
        eexists _, []. split; [reflexivity|]. wsimpl.
        rewrite app_nil_r. by repeat split.
    + rewrite when_false. mstep. rewrite mret_run.
      eexists _, []. split; [reflexivity|]. wsimpl.
      rewrite app_nil_r. by repeat split.
Qed.
End Blocks.
(** ** Auto-approve *)

Section AutoApprove.
Context {rt : Runtime}.

Lemma answered_all pas : all_printable pas = true → answered pas = pas.
Proof.
  induction pas as [|kv rest IH]; cbn [all_printable forallb answered]; [done|].
  intros [Hkv Hrest]%andb_prop. rewrite Hkv. f_equal. by apply IH.
Qed.

Lemma allow_audit_printable kv :
  match allow_audit kv with
  | Some _ => printable (tool_name kv.2) = true
  | None => printable (tool_name kv.2) = false
  end.
Proof.
  unfold allow_audit.
  pose proof (approval_log_message_printable (allow_response kv.1) kv.2) as H.
  by destruct (approval_log_message (allow_response kv.1) kv.2).
Qed.

(** The loop of [setAutoApprove] on a session whose current child has a
    stdin *)
Lemma approve_all_run chatId r h pas : ∀ w managed p chunks,
  chats w !! chatId = Some r → heap w !! r = Some managed →
  pendingApprovals managed = pas → currentProcess managed = Some h →
  procs w !! h = Some p → stdin p = Some chunks →
  ∃ w' managed' p' new,
    for_of (map fst pas)
      (λ requestId, respondToApproval chatId (allow_response requestId);; mret tt) w
    = (if all_printable pas then Ok tt else Throw TypeError, w')
    ∧ chats w' = chats w
    ∧ heap w' !! r = Some managed'
    ∧ pendingApprovals managed' = drop (length (answered pas)) pas
    ∧ autoApprove managed' = autoApprove managed
    ∧ procs w' !! h = Some p'
    ∧ stdin p' = Some (chunks ++ map allow_line (answered pas))
    ∧ emitted w' = emitted w ++ new
    ∧ map entry_kind (transcript_entries new) = omap allow_audit (answered pas).
Proof.
  induction pas as [|[k v] rest IH]; intros w managed p chunks Hc Hh Hpas Hcur Hp Hin.
  - exists w, managed, p, []. rewrite !app_nil_r. by repeat split.
  - assert (Hs : current_stdin w managed = Some h)
      by (apply current_stdin_Some; eauto).
    assert (Hget : pa_get (response_key (allow_response k))
                     (pendingApprovals managed) = Some v)
      by (rewrite Hpas; apply pa_get_head).
    pose proof (respondToApproval_found w chatId (allow_response k) r managed v h
                  Hc Hh Hget Hs) as Hrun.
    cbv zeta in Hrun.
    pose proof (allow_audit_printable (k, v)) as Hprint.
    unfold allow_audit in Hprint. cbn [fst snd] in Hprint.
    cbn [map fst for_of all_printable forallb answered snd].
    destruct (approval_log_message (allow_response k) v) as [text|] eqn:Etext;
      rewrite Hprint.
    + match type of Hrun with _ = (_, ?W) => set (w1 := W) in Hrun end.
      destruct (IH w1
                  (set_processState processing
                     (set_pendingApprovals (pa_delete (held k)) managed))
                  (write_stdin (allow_line (k, v)) p)
                  (chunks ++ [allow_line (k, v)]))
        as (w' & managed' & p' & new & Hloop & Hc' & Hh' & Hpa' & Hau' & Hp'
            & Hin' & He' & Hk').
      * exact Hc.
      * unfold w1. wsimpl. by rewrite list_lookup_alter_eq, Hh.
      * cbn [pendingApprovals set_processState set_pendingApprovals].
        rewrite Hpas. apply pa_delete_head.
      * done.
      * unfold w1. wsimpl. by rewrite list_lookup_alter_eq, Hp.
      * unfold write_stdin. cbn [stdin]. by rewrite Hin.
      * eexists w', managed', p', (_ :: _ :: new).
        erewrite bind_Ok.
        2: { erewrite bind_Ok by exact Hrun. apply mret_run. }
        split; [exact Hloop|]. split; [by rewrite Hc'|].
        split; [exact Hh'|]. split; [exact Hpa'|].
        split; [by rewrite Hau'|]. split; [exact Hp'|].
        split; [rewrite Hin'; cbn [map]; by rewrite <- app_assoc|].
        split; [rewrite He'; unfold w1; wsimpl; rewrite <- app_assoc; reflexivity|].
        rewrite transcript_entries_status, transcript_entries_entry.
        cbn [map omap list_omap]. unfold allow_audit at 1. cbn [fst snd].
        rewrite Etext. cbn. by rewrite Hk'.
    + eexists _, _, _, [_].
      erewrite bind_Throw.
      2: { erewrite bind_Throw by exact Hrun. reflexivity. }
      split; [reflexivity|]. wsimpl. split; [reflexivity|].
      split; [by rewrite list_lookup_alter_eq, Hh|].
      cbn [pendingApprovals set_processState set_pendingApprovals].
      split; [rewrite Hpas; cbn [length drop]; apply pa_delete_head|].
      split; [reflexivity|].
      split; [by rewrite list_lookup_alter_eq, Hp|].
      split; [unfold write_stdin; cbn [stdin]; by rewrite Hin|].
      split; [reflexivity|].
      cbn [map omap list_omap]. unfold allow_audit. cbn [fst snd].
      by rewrite Etext.
Qed.

(** Every key of the map is found. *)
Lemma pa_get_key k v pas : (k, v) ∈ pas → is_Some (pa_get (held k) pas).
Proof.
  induction pas as [|[k' v'] rest IH]; [by intros ?%elem_of_nil|].
  cbn [pa_get]. destruct (same_key (held k) k') eqn:E; [done|].
  intros [[= -> ->]|Hin]%elem_of_cons; [|auto].
  by rewrite same_key_held in E.
Qed.

(** The loop of [setAutoApprove] on a session without a stdin: every call
    finds its request and gives up. *)
Lemma approve_none_run chatId r managed keys : ∀ w,
  chats w !! chatId = Some r → heap w !! r = Some managed →
  current_stdin w managed = None →
  Forall (λ k, is_Some (pa_get (held k) (pendingApprovals managed))) keys →
  for_of keys
    (λ requestId, respondToApproval chatId (allow_response requestId);; mret tt) w
  = (Ok tt, w).
Proof.
  intros w Hc Hh Hs. induction 1 as [|k keys [v Hk] _ IH]; [done|].
  cbn [for_of]. erewrite bind_Ok; [exact IH|].
  erewrite bind_Ok; [apply mret_run|].
  by eapply (respondToApproval_no_stdin _ _ (allow_response k)).
Qed.

(** C7, as the code has it.  Enabling auto-approve for a session whose
    current child has a stdin answers the pending requests with an allow
    decision, in the order of arrival: each is removed from
    [pendingApprovals], its encoded response is written to the stdin, and
    one audit entry is emitted for it.  All requests are answered when
    their tool names can be converted to strings; at the first whose tool
    name cannot, the call ends with a TypeError after the response to it
    has been written, and the later requests stay pending.  A
    [can_use_tool] request that arrives while auto-approve is set is
    answered with an allow decision at once (replacing a request pending
    under the same id); no approval request event and no approval prompt
    entry is emitted, only the status change, the audit entry of the
    response and a log entry naming the auto-approved tool.  When the name
    of its tool cannot be converted to a string, the request is dropped
    without an answer, an entry or an event.  Without a stdin of a current
    child, enabling auto-approve answers nothing: it sets the flag and
    leaves the requests pending. *)
Theorem auto_approve_resolves_with_stdin :
  (∀ w chatId r managed h p chunks,
     chats w !! chatId = Some r → heap w !! r = Some managed →
     currentProcess managed = Some h → procs w !! h = Some p →
     stdin p = Some chunks →
     let pending := pendingApprovals managed in
     ∃ w' managed' p' new,
       setAutoApprove chatId true w
       = (if all_printable pending then Ok true else Throw TypeError, w')
       ∧ heap w' !! r = Some managed'
       ∧ autoApprove managed' = true
       ∧ pendingApprovals managed' = drop (length (answered pending)) pending
       ∧ procs w' !! h = Some p'
       ∧ stdin p' = Some (chunks ++ map allow_line (answered pending))
       ∧ emitted w' = emitted w ++ new
       ∧ map entry_kind (transcript_entries new) = omap allow_audit (answered pending)
       ∧ (all_printable pending = true →
          answered pending = pending ∧ pendingApprovals managed' = []))
  ∧ (∀ w line chatId r managed h p chunks msg,
       JSON_parse line = Some msg →
       strict_eq_str (opt_prop msg "type") "control_request" = true →
       strict_eq_str (opt_prop (opt_prop msg "request") "subtype")
         "can_use_tool" = true →
       chats w !! chatId = Some r → heap w !! r = Some managed →
       autoApprove managed = true →
       currentProcess managed = Some h → procs w !! h = Some p →
       stdin p = Some chunks →
       ∃ w' request0 key,
         handleStreamLine line r chatId w = (Ok tt, w')
         ∧ key_value key = opt_prop msg "request_id"
         ∧ request_id request0 = opt_prop msg "request_id"
         ∧ tool_name request0 = opt_prop (opt_prop msg "request") "tool_name"
         ∧ tool_use_id request0 = opt_prop (opt_prop msg "request") "tool_use_id"
         ∧ input request0 = opt_prop (opt_prop msg "request") "input"
         ∧ match js_String (tool_name request0) with
           | Some tool =>
               ∃ managed' p' e1 e2,
                 heap w' !! r = Some managed'
                 ∧ pendingApprovals managed'
                   = pa_delete (held key) (pendingApprovals managed)
                 ∧ (pa_get (held key) (pendingApprovals managed) = None →
                    pendingApprovals managed' = pendingApprovals managed)
                 ∧ procs w' !! h = Some p'
                 ∧ stdin p' = Some (chunks ++ [allow_line (key, request0)])
                 ∧ emitted w'
                   = emitted w
                     ++ [chat_status chatId "running" (Some processing) None;
                         transcript_entry e1; transcript_entry e2]
                 ∧ allow_audit (key, request0) = Some (entry_kind e1)
                 ∧ entry_kind e2
                   = (ty_log_event,
                      LogEventContent "auto_approval" ("AUTO-APPROVED: " +:+ tool))
           | None => same_sessions w w' ∧ emitted w' = emitted w
           end)
  ∧ (∀ w chatId r managed,
       chats w !! chatId = Some r → heap w !! r = Some managed →
       current_stdin w managed = None →
       ∃ w' managed',
         setAutoApprove chatId true w = (Ok true, w')
         ∧ heap w' !! r = Some managed'
         ∧ autoApprove managed' = true
         ∧ pendingApprovals managed' = pendingApprovals managed
         ∧ procs w' = procs w
         ∧ emitted w' = emitted w).
Proof.
  split_and!.
  - intros w chatId r managed h p chunks Hc Hh Hcur Hp Hin pending.
    unfold setAutoApprove. mstep. rewrite Hc. mstep. mstep.
    cbn [pendingApprovals set_autoApprove andb]. fold pending.
    destruct pending as [|kv rest] eqn:Hpas.
    + cbn [length Nat.ltb Nat.leb]. rewrite when_false. mstep. rewrite mret_run.
      eexists _, _, p, []. split; [reflexivity|]. wsimpl.
      split; [by rewrite list_lookup_alter_eq, Hh|].
      split; [reflexivity|]. split; [exact Hpas|]. split; [exact Hp|].
      rewrite !app_nil_r. by repeat split.
    + cbn [length Nat.ltb Nat.leb]. rewrite when_true.
      edestruct (approve_all_run chatId r h (kv :: rest)
                   {| chats := chats w;
                      heap := alter (set_autoApprove true) r (heap w);
                      procs := procs w; emitted := emitted w;
                      timers := timers w; clock := clock w |}
                   (set_autoApprove true managed) p chunks)
        as (w' & managed' & p' & new & Hloop & Hc' & Hh' & Hpa' & Hau' & Hp'
            & Hin' & He' & Hk'); wsimpl; try done.
      { by rewrite list_lookup_alter_eq, Hh. }
      exists w', managed', p', new.
      split.
      { destruct (all_printable (kv :: rest)).
        - erewrite bind_Ok by exact Hloop. apply mret_run.
        - by erewrite bind_Throw by exact Hloop. }
      split; [exact Hh'|]. split; [exact Hau'|]. split; [exact Hpa'|].
      split; [exact Hp'|]. split; [exact Hin'|]. split; [exact He'|].
      split; [exact Hk'|].
      intros Hall. rewrite Hpa', (answered_all _ Hall). split; [done|].
      apply drop_all.
  - intros w line chatId r managed h p chunks msg Hparse Hty Hsub Hc Hh Hauto
      Hcur Hp Hin.
    pose proof (typed_message_props _ _ _ Hty) as Hprop.
    pose proof (typed_message_props _ _ _ Hsub) as Hreq.
    unfold handleStreamLine. rewrite try_catch_run, Hparse.
    mstep. mstep. do 2 (erewrite bind_Ok by (by apply prop_Some)).
    rewrite (strict_eq_str_other _ _ "system" Hty) by done.
    rewrite Hty. cbn [andb]. unfold handleControlRequest.
    erewrite bind_Ok by (by apply prop_Some). rewrite Hsub. cbn [negb].
    mstep.
    do 5 (erewrite bind_Ok by (by apply prop_Some)).
    mstep. mstep. rewrite Hauto. cbv zeta.
    set (rid := opt_prop msg "request_id").
    set (key := {| key_value := rid; key_ident := S (clock w) |}).
    set (request0 := {| request_id := rid; chat_id := chatId;
                        tool_name := opt_prop (opt_prop msg "request") "tool_name";
                        tool_use_id := opt_prop (opt_prop msg "request") "tool_use_id";
                        input := opt_prop (opt_prop msg "request") "input";
                        suggestions := opt_prop (opt_prop msg "request")
                                         "permission_suggestions";
                        timestamp := Date_toISOString (S (clock w)) |}).
    eexists _, request0, key. split; [reflexivity|].
    do 5 (split; [reflexivity|]).
    destruct (js_String (tool_name request0)) as [tool|] eqn:Etool.
    + erewrite bind_Ok by (by eapply console_log_Some).
      mstep.
      erewrite bind_Ok.
      2: { eapply (respondToApproval_success _ chatId (allow_response key) r
                     (set_pendingApprovals (pa_set key request0) managed)
                     request0 h).
           - exact Hc.
           - wsimpl. by rewrite list_lookup_alter_eq, Hh.
           - apply pa_get_set_eq.
           - apply current_stdin_Some. split; [done|]. eauto.
           - by apply approval_log_message_Some. }
      wsimpl. mstep. erewrite bind_Ok by (by apply to_string_Some).
      rewrite emit_run. wsimpl.
      eexists _, _, _, _.
      split; [by rewrite !list_lookup_alter_eq, Hh|].
      cbn [pendingApprovals set_pendingApprovals set_processState].
      split; [apply pa_delete_set|].
      split.
      { intros Hfresh.
        etrans; [apply pa_delete_set|]. by apply pa_delete_absent. }
      split; [by rewrite list_lookup_alter_eq, Hp|].
      split; [unfold write_stdin; cbn [stdin]; by rewrite Hin|].
      split; [by rewrite <- !app_assoc|].
      split; [|reflexivity].
      unfold allow_audit. cbn [fst snd].
      by erewrite approval_log_message_Some by exact Etool.
    + erewrite bind_Throw by (by apply console_log_None). cbn [snd].
      by repeat split.
  - intros w chatId r managed Hc Hh Hs.
    unfold setAutoApprove. mstep. rewrite Hc. mstep. mstep.
    assert (Hs' : current_stdin
                    {| chats := chats w;
                       heap := alter (set_autoApprove true) r (heap w);
                       procs := procs w; emitted := emitted w;
                       timers := timers w; clock := clock w |}
                    (set_autoApprove true managed) = None) by exact Hs.
    assert (Hkeys : Forall (λ k, is_Some (pa_get (held k)
                                            (pendingApprovals
                                               (set_autoApprove true managed))))
                      (map fst (pendingApprovals (set_autoApprove true managed)))).
    { apply Forall_forall. intros k ([k' v] & -> & Hin)%list_elem_of_fmap.
      by eapply pa_get_key. }
    erewrite bind_Ok.
    2: { destruct (_ && _); [|apply mret_run]. rewrite when_true.
         eapply approve_none_run; [exact Hc| |exact Hs'|exact Hkeys].
         wsimpl. by rewrite list_lookup_alter_eq, Hh. }
    rewrite mret_run. eexists _, _. split; [reflexivity|]. wsimpl.
    split; [by rewrite list_lookup_alter_eq, Hh|]. by repeat split.
Qed.
End AutoApprove.

(** ** The claims on the captured run *)

(** C5 on the assistant line with a thinking, a text and a tool-use block *)
Lemma stream_line_entries_in_block_order_witness :
  JSON_parse (Runtime := demo_runtime) (line_of msg_assistant_mixed)
  = Some msg_assistant_mixed
  ∧ ∃ w' msgs,
      handleStreamLine (rt := demo_runtime) (line_of msg_assistant_mixed) 0
        "00000000" world_first_turn = (Ok tt, w')
      ∧ emitted w' = emitted world_first_turn ++ map transcript_entry msgs
      ∧ map entry_kind msgs
        = omap block_entry
            [thinking_block "The user wants a listing.";
             text_block "Listing the files.";
             tool_use_block "toolu_01" "Bash" (JObj [("command", JStr "ls /tmp")])]
      ∧ Forall (λ m, msg_chat_id m = "00000000") msgs
      ∧ same_sessions world_first_turn w'.
Proof.
  assert (Hparse : JSON_parse (Runtime := demo_runtime) (line_of msg_assistant_mixed)
                   = Some msg_assistant_mixed) by (vm_compute; reflexivity).
  split; [exact Hparse|].
  refine (proj1 (stream_line_entries_in_block_order (rt := demo_runtime)
                   world_first_turn _ 0%nat "00000000" _ Hparse)
            _ eq_refl eq_refl _).
  repeat constructor.
Defined.

(** C5 fails as stated: of the three blocks of the assistant line the
    thinking block yields no entry, and of the two tool results of the
    user line only the first yields one. *)
Lemma blocks_dropped_counterexample :
  run_all (rt := demo_runtime) trace_mixed_blocks init_world = Some world_mixed_blocks
  ∧ opt_prop (opt_prop msg_assistant_mixed "message") "content"
    = JArr [thinking_block "The user wants a listing.";
            text_block "Listing the files.";
            tool_use_block "toolu_01" "Bash" (JObj [("command", JStr "ls /tmp")])]
  ∧ map entry_kind (transcript_entries (new_events world_first_turn world_mixed_blocks))
    = [(ty_assistant, AssistantContent (JStr "Listing the files."));
       (ty_tool_use,
        ToolUseContent (JStr "Bash") (JStr "toolu_01")
          (JObj [("command", JStr "ls /tmp")]))]
  ∧ run_all (rt := demo_runtime) trace_two_results init_world = Some world_two_results
  ∧ opt_prop (opt_prop msg_user_two_results "message") "content"
    = JArr [tool_result_block "toolu_01" "a.txt"; tool_result_block "toolu_02" "ok"]
  ∧ map entry_kind (transcript_entries (new_events world_first_turn world_two_results))
    = [(ty_tool_result, ToolResultContent (JStr "toolu_01") "a.txt" JUndefined)].
Proof. repeat split; vm_compute; reflexivity. Qed.

(** C7 on the captured run with two pending requests and a live child *)
Lemma auto_approve_resolves_with_stdin_witness :
  ∃ managed p,
    chats world_two_pending !! "00000000" = Some 0%nat
    ∧ heap world_two_pending !! 0%nat = Some managed
    ∧ currentProcess managed = Some 0%nat
    ∧ procs world_two_pending !! 0%nat = Some p
    ∧ stdin p = Some []
    ∧ all_printable (pendingApprovals managed) = true
    ∧ ∃ w' managed' p' new,
        setAutoApprove (rt := demo_runtime) "00000000" true world_two_pending
        = (Ok true, w')
        ∧ heap w' !! 0%nat = Some managed'
        ∧ autoApprove managed' = true
        ∧ pendingApprovals managed' = []
        ∧ procs w' !! 0%nat = Some p'
        ∧ stdin p' = Some ([] ++ map allow_line (pendingApprovals managed))
        ∧ emitted w' = emitted world_two_pending ++ new
        ∧ map entry_kind (transcript_entries new)
          = omap allow_audit (pendingApprovals managed).
Proof.
  eexists _, _. do 6 (split; [reflexivity|]).
  destruct (proj1 (auto_approve_resolves_with_stdin (rt := demo_runtime))
              world_two_pending "00000000" 0%nat _ 0%nat _ []
              eq_refl eq_refl eq_refl eq_refl eq_refl)
    as (w' & managed' & p' & new & Hrun & Hh & Hau & _ & Hp & Hin & He & Hk & Hall).
  destruct (Hall eq_refl) as [Hans Hnil].
  rewrite Hans in Hin, Hk.
  exists w', managed', p', new.
  split; [exact Hrun|]. by repeat split.
Defined.

(** C7 fails as stated: the child has exited with two requests pending
    (they are kept); enabling auto-approve then answers neither, writes
    nothing and emits no audit entry. *)
Lemma auto_approve_after_exit_counterexample :
  ∃ managed child,
    run_all (rt := demo_runtime) (trace_two_pending ++ [ProcExit 0 (Some 0)])
      init_world = Some world_exit_0
    ∧ setAutoApprove (rt := demo_runtime) "00000000" true world_exit_0
      = (Ok true, world_auto_after_exit)
    ∧ heap world_auto_after_exit !! 0%nat = Some managed
    ∧ autoApprove managed = true
    ∧ pending_ids (pendingApprovals managed) = [JStr "req-1"; JStr "req-2"]
    ∧ new_events world_exit_0 world_auto_after_exit = []
    ∧ procs world_auto_after_exit !! 0%nat = Some child
    ∧ stdin child = Some [].
Proof.
  eexists _, _. split; [vm_compute; reflexivity|].
  split; [vm_compute; reflexivity|]. by repeat split.
Qed.

(** C9 at a [Task] tool use: the stream handler emits the generic
    [tool_use] entry, where the transcript route builds an [agent_spawn]
    entry with the descriptor of the sub-agent from the same block. *)
Theorem task_tool_use_is_generic_in_stream :
  run_all (rt := demo_runtime) trace_task init_world = Some world_task
  ∧ map entry_kind (transcript_entries (new_events world_first_turn world_task))
    = [(ty_tool_use, ToolUseContent (JStr "Task") (JStr "toolu_07") task_input)]
  ∧ match (route_tool_uses (rt := demo_runtime) (JStr "2025-01-01T00:00:00.000Z")
             (JArr [tool_use_block "toolu_07" "Task" task_input]) init_world).1
    with
    | Ok entries => map (λ e, (re_type e, re_content e)) entries
    | Throw _ => []
    end
    = [(ty_agent_spawn,
        RouteAgentSpawn (JStr "code-reviewer") (JStr "Review the diff")
          (JStr "Review the staged changes.") (JStr "toolu_07") JUndefined
          "running" JUndefined)].
Proof. repeat split; vm_compute; reflexivity. Qed.

(** The bytes written for an allow and for a deny decision on the first
    pending request of the captured run *)
Example allow_line_bytes :
  (stdin <$> procs (respondToApproval (rt := demo_runtime) "00000000"
                      (allow_req "req-1") world_two_pending).2 !! 0%nat)
  = Some (Some [json_text
      "{'type':'control_response','response':{'subtype':'success','request_id':'req-1','response':{'behavior':'allow','updatedInput':{'command':'ls /tmp'},'toolUseID':'toolu_01'}}}"
      +:+ str1 newline]).
Proof. vm_compute. reflexivity. Qed.

Example deny_line_bytes :
  (stdin <$> procs (respondToApproval (rt := demo_runtime) "00000000"
                      (deny_req "req-1" JUndefined) world_two_pending).2 !! 0%nat)
  = Some (Some [json_text
      "{'type':'control_response','response':{'subtype':'success','request_id':'req-1','response':{'behavior':'deny','message':'User denied this action'}}}"
      +:+ str1 newline]).
Proof. vm_compute. reflexivity. Qed.

Example deny_with_reason_bytes :
  (stdin <$> procs (respondToApproval (rt := demo_runtime) "00000000"
                      (deny_req "req-2" (JStr "Not in /tmp")) world_two_pending).2
             !! 0%nat)
  = Some (Some [json_text
      "{'type':'control_response','response':{'subtype':'success','request_id':'req-2','response':{'behavior':'deny','message':'Not in /tmp'}}}"
      +:+ str1 newline]).
Proof. vm_compute. reflexivity. Qed.

Example allow_with_edited_input_bytes :
  (stdin <$> procs (respondToApproval (rt := demo_runtime) "00000000"
                      (edited_allow "req-1" (JObj [("command", JStr "ls -la /tmp")]))
                      world_two_pending).2 !! 0%nat)
  = Some (Some [json_text
      "{'type':'control_response','response':{'subtype':'success','request_id':'req-1','response':{'behavior':'allow','updatedInput':{'command':'ls -la /tmp'},'toolUseID':'toolu_01'}}}"
      +:+ str1 newline]).
Proof. vm_compute. reflexivity. Qed.

(** A line break inside a string of the payload is escaped, not written. *)
Example reason_with_line_break_bytes :
  (stdin <$> procs (respondToApproval (rt := demo_runtime) "00000000"
                      (deny_req "req-1" (JStr ("no" +:+ str1 newline +:+ "way")))
                      world_two_pending).2 !! 0%nat)
  = Some (Some [json_text
      "{'type':'control_response','response':{'subtype':'success','request_id':'req-1','response':{'behavior':'deny','message':'no\nway'}}}"
      +:+ str1 newline]).
Proof. vm_compute. reflexivity. Qed.

(** The scenario of a granted permission: processing, awaiting approval,
    processing again after the decision, idle after the result line. *)
Example granted_permission_states :
  states_along trace_granted init_world
  = [Some idle; Some processing; Some awaiting_approval; Some processing; Some idle].
Proof. vm_compute. reflexivity. Qed.

(** Lines of an unknown type or an unknown request subtype, on the run
    with two pending requests: nothing is emitted, no session changes. *)
Example unknown_lines_ignored :
  let w1 := (handleStreamLine (rt := demo_runtime) (line_of msg_stream_event) 0
               "00000000" world_two_pending).2 in
  let w2 := (handleStreamLine (rt := demo_runtime) (line_of msg_interrupt) 0
               "00000000" world_two_pending).2 in
  (emitted w1, heap w1) = (emitted world_two_pending, heap world_two_pending)
  ∧ (emitted w2, heap w2) = (emitted world_two_pending, heap world_two_pending).
Proof. split; vm_compute; reflexivity. Qed.

(** After [stopChat] the flag counts as stale (the child was killed), so a
    message sent before the child has exited is accepted as well. *)
Example send_after_stop_spawns_second_child :
  map exited (live_children (world_after trace_send_after_stop) 0) = [false; false]
  ∧ map killed (live_children (world_after trace_send_after_stop) 0) = [true; false].
Proof. split; vm_compute; reflexivity. Qed.

(** * Further properties of the manager *)

(** ** Stopping a chat *)

Section Stopping.
Context {rt : Runtime}.

Lemma bind_assoc_run {A B C} (m : M A) (f : A → M B) (g : B → M C) w :
  ((m ≫= f) ≫= g) w = (m ≫= (λ x, f x ≫= g)) w.
Proof. unfold mbind, M_bind. by destruct (m w) as [[a|e] w']. Qed.

Lemma list_alter_None {A} (f : A → A) (l : list A) i :
  l !! i = None → alter f i l = l.
Proof.
  intros H. apply list_eq. intros j. destruct (decide (i = j)) as [<-|Hne].
  - by rewrite list_lookup_alter_eq, H.
  - by rewrite list_lookup_alter_ne.
Qed.

Lemma close_stdoutRL_run rl w :
  close_stdoutRL rl w
  = (Ok tt,
     set_procs (match rl with
                | Some h => alter close_rl h (procs w)
                | None => procs w
                end) w).
Proof. unfold close_stdoutRL. destruct rl; [done|]. by destruct w. Qed.

Lemma stopChat_known w chatId r managed :
  chats w !! chatId = Some r → heap w !! r = Some managed →
  stopChat chatId w =
    (Ok true,
     {| chats := chats w;
        heap := alter (set_chat (set_status stopped)) r (heap w);
        procs := stop_children managed (procs w);
        emitted := emitted w ++ [chat_status chatId "stopped" None None];
        timers := timers w; clock := clock w |}).
Proof.
  intros Hc Hh. unfold stopChat, stop_children.
  mstep. rewrite Hc. mstep.
  destruct (currentProcess managed) as [h|].
  - rewrite bind_assoc_run. mstep. destruct (procs w !! h) as [p|] eqn:Hp.
    + destruct (killed p) eqn:Hk; cbn [negb].
      * assert (E : alter (λ p, if killed p then p
                                else if exited p then p else set_killed p)
                      h (procs w) = procs w).
        { rewrite (list_alter_insert _ _ _ _ Hp), Hk. by apply list_insert_id. }
        rewrite E, when_false. mstep.
        erewrite bind_Ok by apply close_stdoutRL_run. repeat mstep.
        by rewrite mret_run.
      * assert (E : alter (λ p, if killed p then p
                                else if exited p then p else set_killed p)
                      h (procs w)
                    = alter (λ p, if exited p then p else set_killed p) h (procs w)).
        { apply list_alter_ext; [|done]. intros p' Hp'.
          assert (p' = p) as -> by congruence. by rewrite Hk. }
        rewrite E, when_true. unfold kill. mstep.
        erewrite bind_Ok by apply close_stdoutRL_run. repeat mstep.
        by rewrite mret_run.
    + assert (E : alter (λ p, if killed p then p
                              else if exited p then p else set_killed p)
                    h (procs w) = procs w).
      { by apply list_alter_None. }
      rewrite E. mstep. erewrite bind_Ok by apply close_stdoutRL_run.
      repeat mstep. by rewrite mret_run.
  - mstep. erewrite bind_Ok by apply close_stdoutRL_run. repeat mstep.
    by rewrite mret_run.
Qed.

Lemma stop_children_lookup managed ps j :
  stop_children managed ps !! j = stop_child managed j <$> ps !! j.
Proof.
  unfold stop_children, stop_child.
  destruct (stdoutRL managed) as [h'|], (currentProcess managed) as [h|];
    rewrite ?list_lookup_alter; repeat case_decide; repeat case_bool_decide;
    simplify_eq; try done; by destruct (ps !! j).
Qed.

Lemma stop_child_idemp managed j p :
  stop_child managed j (stop_child managed j p) = stop_child managed j p.
Proof.
  unfold stop_child. repeat case_bool_decide; try done;
    destruct (killed p) eqn:Hk, (exited p) eqn:He; cbn; rewrite ?Hk, ?He; done.
Qed.

(** X1.  [stopChat] on a registered chat returns [true], sets the status
    of the chat to [stopped] and emits one status event; it leaves the
    process state, the [isProcessing] flag, the pending approvals and the
    process handle as they are.  A current child that has not exited is
    marked killed, and no further stdout line of the session's reader is
    handled. *)
Theorem stopChat_stops_and_silences w chatId r managed :
  chats w !! chatId = Some r → heap w !! r = Some managed →
  ∃ w' managed',
    stopChat chatId w = (Ok true, w')
    ∧ heap w' !! r = Some managed'
    ∧ status (chat managed') = stopped
    ∧ processState managed' = processState managed
    ∧ isProcessing managed' = isProcessing managed
    ∧ pendingApprovals managed' = pendingApprovals managed
    ∧ currentProcess managed' = currentProcess managed
    ∧ emitted w' = emitted w ++ [chat_status chatId "stopped" None None]
    ∧ (∀ h p, currentProcess managed = Some h → procs w !! h = Some p →
              exited p = false →
              ∃ p', procs w' !! h = Some p' ∧ killed p' = true
                    ∧ stdin p' = stdin p)
    ∧ (∀ h line, stdoutRL managed = Some h → run (StdoutLine h line) w' = None).
Proof.
  intros Hc Hh. eexists _, _. split; [by apply stopChat_known|]. wsimpl.
  split; [by rewrite list_lookup_alter_eq, Hh|].
  do 6 (split; [reflexivity|]). split.
  - intros h p Hcur Hp Hex. rewrite stop_children_lookup, Hp. simpl.
    eexists. split; [reflexivity|]. unfold stop_child.
    rewrite Hcur. rewrite (bool_decide_eq_true_2 (Some h = Some h)) by done.
    rewrite Hex.
    destruct (killed p) eqn:Hk; case_bool_decide; cbn; by rewrite ?Hk.
  - intros h line Hrl. unfold run. wsimpl. rewrite stop_children_lookup.
    destruct (procs w !! h) as [p|]; [|done]. simpl. unfold stop_child.
    rewrite Hrl. by rewrite (bool_decide_eq_true_2 (Some h = Some h)) by done.
Qed.

(** X2.  [stopChat] is idempotent: a second call on the same chat returns
    [true] again and changes neither the sessions nor the children nor the
    registry; it only emits the status event once more. *)
Theorem stopChat_idempotent w chatId r managed :
  chats w !! chatId = Some r → heap w !! r = Some managed →
  ∀ w1, stopChat chatId w = (Ok true, w1) →
  stopChat chatId w1
  = (Ok true,
     set_emitted (emitted w1 ++ [chat_status chatId "stopped" None None]) w1).
Proof.
  intros Hc Hh w1 Hrun. rewrite (stopChat_known _ _ _ _ Hc Hh) in Hrun.
  injection Hrun as <-.
  erewrite stopChat_known; wsimpl; [|exact Hc|by rewrite list_lookup_alter_eq, Hh].
  unfold set_emitted. wsimpl. do 2 f_equal.
  - rewrite list_alter_alter_eq. by apply list_alter_ext.
  - apply list_eq. intros j. rewrite !stop_children_lookup.
    destruct (procs w !! j) as [p|]; [|done]. simpl. f_equal.
    apply (stop_child_idemp managed j p).
Qed.
End Stopping.

(** X1 on the captured first turn *)
Lemma stopChat_stops_and_silences_witness :
  ∃ managed,
    chats world_first_turn !! "00000000" = Some 0%nat
    ∧ heap world_first_turn !! 0%nat = Some managed
    ∧ ∃ w' managed',
        stopChat "00000000" world_first_turn = (Ok true, w')
        ∧ heap w' !! 0%nat = Some managed'
        ∧ status (chat managed') = stopped
        ∧ processState managed' = processState managed
        ∧ isProcessing managed' = isProcessing managed
        ∧ pendingApprovals managed' = pendingApprovals managed
        ∧ currentProcess managed' = currentProcess managed
        ∧ emitted w' = emitted world_first_turn
                       ++ [chat_status "00000000" "stopped" None None]
        ∧ (∀ h p, currentProcess managed = Some h →
                  procs world_first_turn !! h = Some p → exited p = false →
                  ∃ p', procs w' !! h = Some p' ∧ killed p' = true
                        ∧ stdin p' = stdin p)
        ∧ (∀ h line, stdoutRL managed = Some h →
                     run (rt := demo_runtime) (StdoutLine h line) w' = None).
Proof.
  eexists. split; [reflexivity|]. split; [reflexivity|].
  exact (stopChat_stops_and_silences (rt := demo_runtime) world_first_turn
           "00000000" 0%nat _ eq_refl eq_refl).
Defined.

(** X2 on the captured first turn *)
Lemma stopChat_idempotent_witness :
  ∃ managed,
    chats world_first_turn !! "00000000" = Some 0%nat
    ∧ heap world_first_turn !! 0%nat = Some managed
    ∧ stopChat "00000000" world_first_turn
      = (Ok true, world_stopped)
    ∧ stopChat "00000000" world_stopped
      = (Ok true,
         set_emitted (emitted world_stopped
                      ++ [chat_status "00000000" "stopped" None None])
           world_stopped).
Proof.
  assert (Hrun : stopChat "00000000" world_first_turn
                 = (Ok true, world_stopped)) by (vm_compute; reflexivity).
  eexists. split; [reflexivity|]. split; [reflexivity|]. split; [exact Hrun|].
  exact (stopChat_idempotent world_first_turn "00000000"
           0%nat _ eq_refl eq_refl _ Hrun).
Defined.

(** ** The end of a turn, and what follows it *)

Section Turns.
Context {rt : Runtime}.

Lemma result_line_run w line r chatId msg :
  JSON_parse line = Some msg →
  strict_eq_str (opt_prop msg "type") "result" = true →
  handleStreamLine line r chatId w =
    (Ok tt,
     if printable (opt_prop msg "subtype") then
       {| chats := chats w;
          heap := alter (λ m, set_processState idle (set_isProcessing false m)) r
                    (heap w);
          procs := procs w;
          emitted := emitted w ++ [chat_status chatId "ready" (Some idle) None];
          timers := timers w; clock := S (clock w) |}
     else
       {| chats := chats w; heap := heap w; procs := procs w;
          emitted := emitted w; timers := timers w; clock := S (clock w) |}).
Proof.
  intros Hparse Hty. pose proof (typed_message_props _ _ _ Hty) as Hprop.
  unfold handleStreamLine. rewrite try_catch_run, Hparse. f_equal.
  mstep. mstep. do 2 (erewrite bind_Ok by (by apply prop_Some)).
  rewrite (strict_eq_str_other _ _ "system" Hty) by done.
  rewrite (strict_eq_str_other _ _ "control_request" Hty) by done.
  rewrite (strict_eq_str_other _ _ "assistant" Hty) by done.
  rewrite (strict_eq_str_other _ _ "user" Hty) by done.
  rewrite Hty. cbn [andb].
  erewrite bind_Ok by (by apply prop_Some).
  rewrite !when_false, when_true. mstep. mstep.
  destruct (printable (opt_prop msg "subtype")) eqn:E.
  - apply printable_Some in E as [s E].
    erewrite bind_Ok by (by eapply console_log_Some).
    mstep. by rewrite emit_run.
  - apply printable_None in E.
    by erewrite bind_Throw by (by apply console_log_None).
Qed.

(** X3.  A [result] line whose [subtype] can be written to the log (any
    value but an object with a [toString] field, or an array that holds
    one) ends the turn: the process state becomes [idle], the
    [isProcessing] flag is cleared and one status event is emitted, while
    the process handle and the pending approvals stay.  The next
    [sendMessage] to the chat is then accepted, whether or not the child
    has exited, and for a session that has had a turn its child is started
    with [--resume] and the session id.  A [result] line with any other
    [subtype] is dropped: the handler returns, no event is emitted and the
    turn stays open. *)
Theorem result_line_ends_turn w line r chatId msg managed :
  JSON_parse line = Some msg →
  strict_eq_str (opt_prop msg "type") "result" = true →
  chats w !! chatId = Some r → heap w !! r = Some managed →
  (printable (opt_prop msg "subtype") = true →
   ∃ w1 managed1,
     handleStreamLine line r chatId w = (Ok tt, w1)
     ∧ heap w1 !! r = Some managed1
     ∧ processState managed1 = idle
     ∧ isProcessing managed1 = false
     ∧ pendingApprovals managed1 = pendingApprovals managed
     ∧ currentProcess managed1 = currentProcess managed
     ∧ emitted w1 = emitted w ++ [chat_status chatId "ready" (Some idle) None]
     ∧ procs w1 = procs w
     ∧ ∀ message0 attachments,
         ∃ w2 child,
           sendMessage chatId message0 attachments w1 = (Ok true, w2)
           ∧ procs w2 = procs w1 ++ [child]
           ∧ owner child = r
           ∧ (0 < messageCount managed →
              spawn_args child
              = common_args managed ++ ["--resume"; sessionId managed])%nat)
  ∧ (printable (opt_prop msg "subtype") = false →
     ∃ w1,
       handleStreamLine line r chatId w = (Ok tt, w1)
       ∧ same_sessions w w1 ∧ emitted w1 = emitted w).
Proof.
  intros Hparse Hty Hc Hh.
  rewrite (result_line_run _ _ r chatId _ Hparse Hty). split; intros ->.
  - eexists _, (set_processState idle (set_isProcessing false managed)).
    split; [reflexivity|]. wsimpl.
    split; [by rewrite list_lookup_alter_eq, Hh|].
    do 6 (split; [reflexivity|]).
    intros message0 attachments. eexists _, _. split.
    + eapply sendMessage_accept; wsimpl;
        [exact Hc | by rewrite list_lookup_alter_eq, Hh | by left].
    + wsimpl. split; [reflexivity|]. split; [reflexivity|].
      intros Hpos. cbn [new_child spawn_args]. unfold build_args, identity_args. cbn.
      destruct (messageCount managed); [lia|done].
  - eexists. split; [reflexivity|]. by repeat split.
Qed.

Lemma on_error_run w r chatId err_message :
  on_error r chatId err_message w =
    (Ok tt,
     {| chats := chats w;
        heap := alter (λ m, set_currentProcess None
                              (set_processState error (set_isProcessing false m)))
                  r (heap w);
        procs := procs w;
        emitted := emitted w
                   ++ [chat_status chatId "error" (Some error) (Some err_message)];
        timers := timers w; clock := clock w |}).
Proof. unfold on_error. mstep. by rewrite emit_run. Qed.

Lemma on_exit_run w r chatId managed :
  heap w !! r = Some managed →
  on_exit r chatId w =
    (Ok tt,
     {| chats := chats w;
        heap := alter (λ m, set_currentProcess None
                              (set_processState finished (set_isProcessing false m)))
                  r (heap w);
        procs := match stdoutRL managed with
                 | Some h => alter close_rl h (procs w)
                 | None => procs w
                 end;
        emitted := emitted w ++ [chat_status chatId "ready" (Some finished) None];
        timers := timers w; clock := clock w |}).
Proof.
  intros Hh. unfold on_exit. mstep. mstep.
  erewrite bind_Ok by apply close_stdoutRL_run. wsimpl. by rewrite emit_run.
Qed.

(** X4.  The [error] event of a child sets the process state of its
    session to [error], clears [isProcessing], releases the handle and
    emits one status event carrying the message of the error; the status
    of the chat, the pending approvals and the children are left as they
    are.  After it, as after the exit of a child, the session accepts the
    next [sendMessage]. *)
Theorem session_recovers_after_error_or_exit w h p managed :
  procs w !! h = Some p → heap w !! owner p = Some managed →
  chats w !! owner_chat p = Some (owner p) →
  (∀ err_message,
     ∃ w1 managed1,
       run (ProcError h err_message) w = Some w1
       ∧ heap w1 !! owner p = Some managed1
       ∧ processState managed1 = error
       ∧ isProcessing managed1 = false
       ∧ currentProcess managed1 = None
       ∧ pendingApprovals managed1 = pendingApprovals managed
       ∧ status (chat managed1) = status (chat managed)
       ∧ procs w1 = procs w
       ∧ emitted w1
         = emitted w
           ++ [chat_status (owner_chat p) "error" (Some error) (Some err_message)]
       ∧ ∀ message0 attachments,
           ∃ w2, sendMessage (owner_chat p) message0 attachments w1 = (Ok true, w2))
  ∧ (∀ code w1,
       run (ProcExit h code) w = Some w1 →
       ∀ message0 attachments,
         ∃ w2, sendMessage (owner_chat p) message0 attachments w1 = (Ok true, w2)).
Proof.
  intros Hp Hh Hc. split.
  - intros err_message. unfold run. rewrite Hp, on_error_run. wsimpl.
    eexists _, (set_currentProcess None
                  (set_processState error (set_isProcessing false managed))).
    split; [reflexivity|]. wsimpl.
    split; [by rewrite list_lookup_alter_eq, Hh|].
    do 7 (split; [reflexivity|]).
    intros message0 attachments. eexists.
    eapply sendMessage_accept; wsimpl;
      [exact Hc | by rewrite list_lookup_alter_eq, Hh | by left].
  - intros code w1 Hrun message0 attachments.
    unfold run in Hrun. rewrite Hp in Hrun.
    destruct (exited p); [done|]. injection Hrun as <-.
    erewrite on_exit_run by (wsimpl; exact Hh). wsimpl. eexists.
    eapply sendMessage_accept; wsimpl;
      [exact Hc | by rewrite list_lookup_alter_eq, Hh | by left].
Qed.
End Turns.

(** X3 on the captured first turn *)
Lemma result_line_ends_turn_witness :
  JSON_parse (Runtime := demo_runtime) (line_of msg_result) = Some msg_result
  ∧ strict_eq_str (opt_prop msg_result "type") "result" = true
  ∧ chats world_first_turn !! "00000000" = Some 0%nat
  ∧ ∃ managed,
      heap world_first_turn !! 0%nat = Some managed
      ∧ ∃ w1 managed1,
          handleStreamLine (rt := demo_runtime) (line_of msg_result) 0 "00000000"
            world_first_turn = (Ok tt, w1)
          ∧ heap w1 !! 0%nat = Some managed1
          ∧ processState managed1 = idle
          ∧ isProcessing managed1 = false
          ∧ pendingApprovals managed1 = pendingApprovals managed
          ∧ currentProcess managed1 = currentProcess managed
          ∧ emitted w1 = emitted world_first_turn
                         ++ [chat_status "00000000" "ready" (Some idle) None]
          ∧ procs w1 = procs world_first_turn
          ∧ ∀ message0 attachments,
              ∃ w2 child,
                sendMessage (rt := demo_runtime) "00000000" message0 attachments w1
                = (Ok true, w2)
                ∧ procs w2 = procs w1 ++ [child]
                ∧ owner child = 0%nat
                ∧ (0 < messageCount managed →
                   spawn_args child
                   = common_args managed ++ ["--resume"; sessionId managed])%nat.
Proof.
  assert (Hparse : JSON_parse (Runtime := demo_runtime) (line_of msg_result)
                   = Some msg_result) by (vm_compute; reflexivity).
  split; [exact Hparse|]. split; [reflexivity|]. split; [reflexivity|].
  eexists. split; [reflexivity|].
  exact (proj1 (result_line_ends_turn (rt := demo_runtime) world_first_turn
                  (line_of msg_result) 0%nat "00000000" msg_result _
                  Hparse eq_refl eq_refl eq_refl) eq_refl).
Defined.

(** X4 on the child of the captured first turn *)
Lemma session_recovers_after_error_or_exit_witness :
  ∃ p managed,
    procs world_first_turn !! 0%nat = Some p
    ∧ heap world_first_turn !! owner p = Some managed
    ∧ chats world_first_turn !! owner_chat p = Some (owner p)
    ∧ (∀ err_message,
         ∃ w1 managed1,
           run (rt := demo_runtime) (ProcError 0 err_message) world_first_turn
           = Some w1
           ∧ heap w1 !! owner p = Some managed1
           ∧ processState managed1 = error
           ∧ isProcessing managed1 = false
           ∧ currentProcess managed1 = None
           ∧ pendingApprovals managed1 = pendingApprovals managed
           ∧ status (chat managed1) = status (chat managed)
           ∧ procs w1 = procs world_first_turn
           ∧ emitted w1
             = emitted world_first_turn
               ++ [chat_status (owner_chat p) "error" (Some error) (Some err_message)]
           ∧ ∀ message0 attachments,
               ∃ w2, sendMessage (rt := demo_runtime) (owner_chat p) message0
                       attachments w1 = (Ok true, w2))
      ∧ (∀ code w1,
           run (rt := demo_runtime) (ProcExit 0 code) world_first_turn = Some w1 →
           ∀ message0 attachments,
             ∃ w2, sendMessage (rt := demo_runtime) (owner_chat p) message0
                     attachments w1 = (Ok true, w2)).
Proof.
  eexists _, _. split; [reflexivity|]. split; [reflexivity|]. split; [reflexivity|].
  exact (session_recovers_after_error_or_exit (rt := demo_runtime)
           world_first_turn 0%nat _ _ eq_refl eq_refl eq_refl).
Defined.

(** ** A permission request, from the line to the reply *)

Section Requests.
Context {rt : Runtime}.

(** The handler on a [can_use_tool] request that is not approved
    automatically: the request is stored and the session waits; the tool
    name is written to the log, then the status event is emitted and the
    preview of the input is built, then the request is announced.  The
    first two can fail, and what was done before stays. *)
Lemma control_request_line_run w line r chatId msg managed :
  JSON_parse line = Some msg →
  strict_eq_str (opt_prop msg "type") "control_request" = true →
  strict_eq_str (opt_prop (opt_prop msg "request") "subtype") "can_use_tool" = true →
  heap w !! r = Some managed → autoApprove managed = false →
  let request0 := request_of chatId msg (Date_toISOString (S (clock w))) in
  let rid := opt_prop msg "request_id" in
  let key := {| key_value := rid; key_ident := S (clock w) |} in
  let w0 := {| chats := chats w;
               heap := alter (λ m, set_processState awaiting_approval
                                     (set_pendingApprovals (pa_set key request0) m))
                         r (heap w);
               procs := procs w; emitted := emitted w;
               timers := timers w; clock := S (S (clock w)) |} in
  let w1 := set_emitted
              (emitted w
               ++ [chat_status chatId "running" (Some awaiting_approval) None]) w0 in
  handleStreamLine line r chatId w =
    (Ok tt,
     if printable (tool_name request0) then
       match JSON_stringify_pretty (input request0) with
       | Some text =>
           {| chats := chats w; heap := heap w0; procs := procs w;
              emitted := emitted w1
                         ++ [approval_request chatId request0;
                             transcript_entry
                               {| msg_id := slice0 8 (randomUUID (S (S (clock w))));
                                  msg_chat_id := chatId;
                                  msg_type := ty_approval_prompt;
                                  content :=
                                    ApprovalPromptContent rid (tool_name request0)
                                      (tool_use_id request0) (input request0)
                                      (input_preview text);
                                  msg_timestamp := timestamp request0 |}];
              timers := timers w; clock := S (S (S (clock w))) |}
       | None => w1
       end
     else w0).
Proof.
  intros Hparse Hty Hsub Hh Hauto request0 rid key w0 w1.
  pose proof (typed_message_props _ _ _ Hty) as Hprop.
  pose proof (typed_message_props _ _ _ Hsub) as Hreq.
  unfold handleStreamLine. rewrite try_catch_run, Hparse. f_equal.
  mstep. mstep. do 2 (erewrite bind_Ok by (by apply prop_Some)).
  rewrite (strict_eq_str_other _ _ "system" Hty) by done.
  rewrite Hty. cbn [andb]. unfold handleControlRequest.
  erewrite bind_Ok by (by apply prop_Some). rewrite Hsub. cbn [negb].
  mstep.
  do 5 (erewrite bind_Ok by (by apply prop_Some)).
  mstep. mstep. rewrite Hauto. cbv zeta. mstep.
  fold rid. fold key.
  change {| request_id := rid; chat_id := chatId;
            tool_name := opt_prop (opt_prop msg "request") "tool_name";
            tool_use_id := opt_prop (opt_prop msg "request") "tool_use_id";
            input := opt_prop (opt_prop msg "request") "input";
            suggestions := opt_prop (opt_prop msg "request")
                             "permission_suggestions";
            timestamp := Date_toISOString (S (clock w)) |}
    with request0.
  change (opt_prop (opt_prop msg "request") "tool_name") with (tool_name request0).
  change (opt_prop (opt_prop msg "request") "input") with (input request0).
  destruct (printable (tool_name request0)) eqn:Ename.
  - apply printable_Some in Ename as [tool Etool].
    erewrite bind_Ok by (by eapply console_log_Some). mstep.
    destruct (JSON_stringify_pretty (input request0)) as [text|] eqn:Htext.
    + mstep. mstep. mstep. rewrite emit_run. wsimpl.
      unfold w1, w0. wsimpl. by rewrite <- !app_assoc.
    + by erewrite bind_Throw by reflexivity.
  - apply printable_None in Ename.
    by erewrite bind_Throw by (by apply console_log_None).
Qed.

(** X5. A [can_use_tool] request that arrives while auto-approve is off
    (with a tool name that can be written to the log, and an input) is
    held for the user: it is stored under its request id, where an answer
    from outside finds it when the id is a string or another primitive,
    the session waits in [awaiting_approval], and listeners are told in a
    fixed order, status change, then the request itself, then a prompt
    entry.  The preview of the input in that entry is the indented JSON
    text when that has at most 500 code units, and its first 500 code
    units followed by three dots when it is longer.  Nothing is written
    to the child, and the turn stays open. *)
Theorem permission_request_held_for_user w line r chatId msg managed text :
  JSON_parse line = Some msg →
  strict_eq_str (opt_prop msg "type") "control_request" = true →
  strict_eq_str (opt_prop (opt_prop msg "request") "subtype") "can_use_tool" = true →
  heap w !! r = Some managed → autoApprove managed = false →
  printable (opt_prop (opt_prop msg "request") "tool_name") = true →
  JSON_stringify_pretty (opt_prop (opt_prop msg "request") "input") = Some text →
  let request0 := request_of chatId msg (Date_toISOString (S (clock w))) in
  ∃ w1 managed1 key id0 preview,
    handleStreamLine line r chatId w = (Ok tt, w1) ∧
    heap w1 !! r = Some managed1 ∧
    processState managed1 = awaiting_approval ∧
    key_value key = opt_prop msg "request_id" ∧
    pendingApprovals managed1 = pa_set key request0 (pendingApprovals managed) ∧
    pa_get (held key) (pendingApprovals managed1) = Some request0 ∧
    (∀ response,
       resp_request_id response = opt_prop msg "request_id" →
       is_object (opt_prop msg "request_id") = false →
       pa_get (response_key response) (pendingApprovals managed1) = Some request0) ∧
    isProcessing managed1 = isProcessing managed ∧
    currentProcess managed1 = currentProcess managed ∧
    chat managed1 = chat managed ∧
    procs w1 = procs w ∧
    emitted w1 =
      emitted w
      ++ [chat_status chatId "running" (Some awaiting_approval) None;
          approval_request chatId request0;
          transcript_entry
            {| msg_id := id0; msg_chat_id := chatId; msg_type := ty_approval_prompt;
               content := ApprovalPromptContent (request_id request0)
                            (tool_name request0) (tool_use_id request0)
                            (input request0) preview;
               msg_timestamp := timestamp request0 |}] ∧
    ((js_length text ≤ 500)%nat → preview = text) ∧
    ((500 < js_length text)%nat → preview = slice0 500 text +:+ "...") ∧
    (js_length preview ≤ 503)%nat.
Proof.
  intros Hparse Hty Hsub Hh Hauto Hname Htext request0.
  pose proof (control_request_line_run w line r chatId msg managed
                Hparse Hty Hsub Hh Hauto) as Hrun.
  cbv zeta in Hrun. fold request0 in Hrun.
  change (tool_name request0)
    with (opt_prop (opt_prop msg "request") "tool_name") in Hrun at 1.
  change (input request0) with (opt_prop (opt_prop msg "request") "input") in Hrun at 1.
  rewrite Hname, Htext in Hrun.
  destruct (input_preview_spec text) as (Hshort & Hlong & Hlen).
  eexists _, _, {| key_value := opt_prop msg "request_id"; key_ident := S (clock w) |},
    _, (input_preview text).
  split; [exact Hrun|]. wsimpl.
  split; [by rewrite list_lookup_alter_eq, Hh|]. wsimpl.
  split_and!; try done.
  - apply pa_get_set_eq.
  - intros response Hid Hprim.
    cbn [pendingApprovals set_processState set_pendingApprovals].
    etrans; [|apply pa_get_set_eq].
    apply pa_get_prim; cbn [response_key held ref_value key_value]; by rewrite ?Hid.
  - by rewrite <- app_assoc.
Qed.

(** X6. A [can_use_tool] request that cannot be announced leaves the
    session waiting for an answer nobody was asked for.  When the request
    carries no [input], it is stored and the state becomes
    [awaiting_approval], but building the preview fails after the status
    event, so neither the [approval_request] event nor the prompt entry
    is emitted.  When the name of its tool cannot be written to the log
    (an object with a [toString] field), it is stored and the state
    changes, and no event is emitted at all.  The error is swallowed by
    [handleStreamLine]. *)
Theorem permission_request_without_input_not_announced w line r chatId msg managed :
  JSON_parse line = Some msg →
  strict_eq_str (opt_prop msg "type") "control_request" = true →
  strict_eq_str (opt_prop (opt_prop msg "request") "subtype") "can_use_tool" = true →
  heap w !! r = Some managed → autoApprove managed = false →
  (printable (opt_prop (opt_prop msg "request") "tool_name") = true →
   opt_prop (opt_prop msg "request") "input" = JUndefined →
   ∃ w1 managed1,
     handleStreamLine line r chatId w = (Ok tt, w1) ∧
     heap w1 !! r = Some managed1 ∧
     processState managed1 = awaiting_approval ∧
     pendingApprovals managed1 ≠ [] ∧
     procs w1 = procs w ∧
     emitted w1 =
       emitted w ++ [chat_status chatId "running" (Some awaiting_approval) None])
  ∧ (printable (opt_prop (opt_prop msg "request") "tool_name") = false →
     ∃ w1 managed1,
       handleStreamLine line r chatId w = (Ok tt, w1) ∧
       heap w1 !! r = Some managed1 ∧
       processState managed1 = awaiting_approval ∧
       pendingApprovals managed1 ≠ [] ∧
       procs w1 = procs w ∧
       emitted w1 = emitted w).
Proof.
  intros Hparse Hty Hsub Hh Hauto.
  pose proof (control_request_line_run w line r chatId msg managed
                Hparse Hty Hsub Hh Hauto) as Hrun.
  cbv zeta in Hrun.
  change (tool_name (request_of chatId msg (Date_toISOString (S (clock w)))))
    with (opt_prop (opt_prop msg "request") "tool_name") in Hrun at 1.
  change (input (request_of chatId msg (Date_toISOString (S (clock w)))))
    with (opt_prop (opt_prop msg "request") "input") in Hrun at 1.
  split.
  - intros Hname Hin. rewrite Hname, Hin in Hrun.
    change (JSON_stringify_pretty JUndefined) with (@None string) in Hrun.
    eexists _, _. split; [exact Hrun|]. wsimpl.
    split; [by rewrite list_lookup_alter_eq, Hh|]. wsimpl.
    repeat split; try done. apply pa_set_nonempty.
  - intros Hname. rewrite Hname in Hrun.
    eexists _, _. split; [exact Hrun|]. wsimpl.
    split; [by rewrite list_lookup_alter_eq, Hh|]. wsimpl.
    repeat split; try done. apply pa_set_nonempty.
Qed.

(** X7. Round trip of one permission request.  When a request whose id is
    a string (or another primitive) and not pending yet is held for the
    user and then answered under that id, the line written to the child
    is the [control_response] for that very request (its id, and for
    [allow] its tool-use id and, unless edited, its input), the set of
    pending requests is what it was before the request arrived, the state
    is [processing] again, and a second answer to the same id is refused
    without any effect. *)
Theorem permission_request_answered_once
  w line r chatId msg managed text h response :
  JSON_parse line = Some msg →
  strict_eq_str (opt_prop msg "type") "control_request" = true →
  strict_eq_str (opt_prop (opt_prop msg "request") "subtype") "can_use_tool" = true →
  chats w !! chatId = Some r → heap w !! r = Some managed →
  autoApprove managed = false →
  printable (opt_prop (opt_prop msg "request") "tool_name") = true →
  JSON_stringify_pretty (opt_prop (opt_prop msg "request") "input") = Some text →
  current_stdin w managed = Some h →
  resp_request_id response = opt_prop msg "request_id" →
  is_object (opt_prop msg "request_id") = false →
  pa_get (response_key response) (pendingApprovals managed) = None →
  let request0 := request_of chatId msg (Date_toISOString (S (clock w))) in
  ∃ w1 w2 managed2,
    handleStreamLine line r chatId w = (Ok tt, w1) ∧
    respondToApproval chatId response w1 = (Ok true, w2) ∧
    procs w2 =
      alter (write_stdin
               (str_or_undefined (JSON_stringify (control_response response request0))
                +:+ str1 newline)) h (procs w) ∧
    heap w2 !! r = Some managed2 ∧
    pendingApprovals managed2 = pendingApprovals managed ∧
    processState managed2 = processing ∧
    respondToApproval chatId response w2 = (Ok false, w2).
Proof.
  intros Hparse Hty Hsub Hc Hh Hauto Hname Htext Hs Hid Hprim Hfresh request0.
  pose proof (control_request_line_run w line r chatId msg managed
                Hparse Hty Hsub Hh Hauto) as Hrun.
  cbv zeta in Hrun. fold request0 in Hrun.
  change (tool_name request0)
    with (opt_prop (opt_prop msg "request") "tool_name") in Hrun at 1.
  change (input request0) with (opt_prop (opt_prop msg "request") "input") in Hrun at 1.
  rewrite Hname, Htext in Hrun.
  set (key := {| key_value := opt_prop msg "request_id"; key_ident := S (clock w) |})
    in *.
  assert (Hkey : ∀ m, pa_get (response_key response) m = pa_get (held key) m).
  { intros m. apply pa_get_prim; cbn [response_key held ref_value key_value key];
      by rewrite ?Hid. }
  assert (Hdel : ∀ m, pa_delete (response_key response) m = pa_delete (held key) m).
  { intros m. apply pa_delete_prim; cbn [response_key held ref_value key_value key];
      by rewrite ?Hid. }
  set (managed1 := set_processState awaiting_approval
                     (set_pendingApprovals (pa_set key request0) managed)).
  apply printable_Some in Hname as [tool Htool].
  eexists _, _, (set_processState processing
                   (set_pendingApprovals (pa_delete (response_key response))
                      managed1)).
  split; [exact Hrun|].
  split.
  { eapply (respondToApproval_success _ chatId response r managed1 request0 h);
      wsimpl.
    - exact Hc.
    - by rewrite list_lookup_alter_eq, Hh.
    - rewrite Hkey. apply pa_get_set_eq.
    - exact Hs.
    - by apply approval_log_message_Some. }
  wsimpl. split; [done|].
  split; [by rewrite !list_lookup_alter_eq, Hh|].
  assert (Hback : pa_delete (response_key response)
                    (pa_set key request0 (pendingApprovals managed))
                  = pendingApprovals managed).
  { rewrite Hdel, pa_delete_set. apply pa_delete_absent. by rewrite <- Hkey. }
  unfold managed1, set_processState, set_pendingApprovals.
  cbn [pendingApprovals processState].
  split_and!; try done.
  erewrite respondToApproval_not_pending; wsimpl.
  - rewrite Hid. by rewrite (printable_prim _ Hprim).
  - exact Hc.
  - by rewrite !list_lookup_alter_eq, Hh.
  - cbn [pendingApprovals]. by rewrite Hback.
Qed.
End Requests.

(** X5 on the captured first turn and the captured request for [Bash] *)
Lemma permission_request_held_for_user_witness :
  JSON_parse (Runtime := demo_runtime) (line_of msg_can_use_bash)
  = Some msg_can_use_bash
  ∧ ∃ managed text,
      heap world_first_turn !! 0%nat = Some managed
      ∧ autoApprove managed = false
      ∧ JSON_stringify_pretty (opt_prop (opt_prop msg_can_use_bash "request") "input")
        = Some text
      ∧ ∃ w1 managed1,
          handleStreamLine (rt := demo_runtime) (line_of msg_can_use_bash) 0
            "00000000" world_first_turn = (Ok tt, w1)
          ∧ heap w1 !! 0%nat = Some managed1
          ∧ processState managed1 = awaiting_approval
          ∧ pending_ids (pendingApprovals managed1) = [JStr "req-1"]
          ∧ procs w1 = procs world_first_turn
          ∧ length (emitted w1) = (length (emitted world_first_turn) + 3)%nat.
Proof.
  assert (Hparse : JSON_parse (Runtime := demo_runtime) (line_of msg_can_use_bash)
                   = Some msg_can_use_bash) by (vm_compute; reflexivity).
  split; [exact Hparse|].
  eexists _, _. split; [reflexivity|]. split; [reflexivity|].
  split; [vm_compute; reflexivity|].
  destruct (permission_request_held_for_user (rt := demo_runtime) world_first_turn
              (line_of msg_can_use_bash) 0%nat "00000000" msg_can_use_bash _ _
              Hparse eq_refl eq_refl eq_refl eq_refl eq_refl eq_refl)
    as (w1 & managed1 & key & id0 & preview & Hrun & Hh & Hst & _ & _ & Hpa & _ & _
        & _ & _ & Hprocs & Hem & _).
  exists w1, managed1. split; [exact Hrun|]. split; [exact Hh|].
  split; [exact Hst|]. split.
  - vm_compute in Hrun. injection Hrun as <-. vm_compute in Hh.
    injection Hh as <-. reflexivity.
  - split; [exact Hprocs|]. rewrite Hem, length_app. reflexivity.
Defined.

(** X6 on the captured first turn and a request without [input] *)
Lemma permission_request_without_input_not_announced_witness :
  JSON_parse (Runtime := demo_runtime_no_input) (line_of msg_can_use_no_input)
  = Some msg_can_use_no_input
  ∧ opt_prop (opt_prop msg_can_use_no_input "request") "input" = JUndefined
  ∧ ∃ managed,
      heap world_first_turn !! 0%nat = Some managed
      ∧ autoApprove managed = false
      ∧ ∃ w1 managed1,
          handleStreamLine (rt := demo_runtime_no_input)
            (line_of msg_can_use_no_input) 0 "00000000" world_first_turn
          = (Ok tt, w1)
          ∧ heap w1 !! 0%nat = Some managed1
          ∧ processState managed1 = awaiting_approval
          ∧ pendingApprovals managed1 ≠ []
          ∧ procs w1 = procs world_first_turn
          ∧ emitted w1
            = emitted world_first_turn
              ++ [chat_status "00000000" "running" (Some awaiting_approval) None].
Proof.
  assert (Hparse : JSON_parse (Runtime := demo_runtime_no_input)
                     (line_of msg_can_use_no_input)
                   = Some msg_can_use_no_input) by (vm_compute; reflexivity).
  split; [exact Hparse|]. split; [reflexivity|].
  eexists. split; [reflexivity|]. split; [reflexivity|].
  exact (proj1 (permission_request_without_input_not_announced
                  (rt := demo_runtime_no_input) world_first_turn
                  (line_of msg_can_use_no_input) 0%nat "00000000"
                  msg_can_use_no_input _
                  Hparse eq_refl eq_refl eq_refl eq_refl) eq_refl eq_refl).
Defined.

(** X7 on the captured first turn: the request for [Bash] is allowed *)
Lemma permission_request_answered_once_witness :
  JSON_parse (Runtime := demo_runtime) (line_of msg_can_use_bash)
  = Some msg_can_use_bash
  ∧ chats world_first_turn !! "00000000" = Some 0%nat
  ∧ ∃ managed text,
      heap world_first_turn !! 0%nat = Some managed
      ∧ autoApprove managed = false
      ∧ JSON_stringify_pretty (opt_prop (opt_prop msg_can_use_bash "request") "input")
        = Some text
      ∧ pa_get (response_key (allow_req "req-1")) (pendingApprovals managed) = None
      ∧ current_stdin world_first_turn managed = Some 0%nat
      ∧ ∃ w1 w2 managed2,
          handleStreamLine (rt := demo_runtime) (line_of msg_can_use_bash) 0
            "00000000" world_first_turn = (Ok tt, w1)
          ∧ respondToApproval (rt := demo_runtime) "00000000" (allow_req "req-1") w1
            = (Ok true, w2)
          ∧ procs w2
            = alter (write_stdin
                       (str_or_undefined
                          (JSON_stringify
                             (control_response (allow_req "req-1")
                                (request_of "00000000" msg_can_use_bash
                                   (Date_toISOString (Runtime := demo_runtime)
                                      (S (clock world_first_turn))))))
                        +:+ str1 newline)) 0%nat (procs world_first_turn)
          ∧ heap w2 !! 0%nat = Some managed2
          ∧ pendingApprovals managed2 = pendingApprovals managed
          ∧ processState managed2 = processing
          ∧ respondToApproval (rt := demo_runtime) "00000000" (allow_req "req-1") w2
            = (Ok false, w2).
Proof.
  assert (Hparse : JSON_parse (Runtime := demo_runtime) (line_of msg_can_use_bash)
                   = Some msg_can_use_bash) by (vm_compute; reflexivity).
  split; [exact Hparse|]. split; [reflexivity|].
  eexists _, _. split; [reflexivity|]. split; [reflexivity|].
  split; [vm_compute; reflexivity|]. split; [reflexivity|]. split; [reflexivity|].
  exact (permission_request_answered_once (rt := demo_runtime) world_first_turn
           (line_of msg_can_use_bash) 0%nat "00000000" msg_can_use_bash _ _ 0%nat
           (allow_req "req-1")
           Hparse eq_refl eq_refl eq_refl eq_refl eq_refl eq_refl eq_refl eq_refl
           eq_refl eq_refl eq_refl).
Defined.

(** ** The first message of a turn, unknown chats, and cleanup *)

Section Delivery.
Context {rt : Runtime}.



(** X9. A chat id that is not registered is refused by every operation:
    [sendMessage], [respondToApproval], [setAutoApprove] and [stopChat]
    return [false], the getters return [false], the empty list or [null],
    and nothing is changed, spawned, written or emitted. *)
Theorem unknown_chat_refused w chatId :
  chats w !! chatId = None →
  (∀ message0 attachments, sendMessage chatId message0 attachments w = (Ok false, w))
  ∧ (∀ response, respondToApproval chatId response w = (Ok false, w))
  ∧ (∀ enabled, setAutoApprove chatId enabled w = (Ok false, w))
  ∧ stopChat chatId w = (Ok false, w)
  ∧ getAutoApprove chatId w = (Ok false, w)
  ∧ getPendingApprovals chatId w = (Ok [], w)
  ∧ getChat chatId w = (Ok None, w)
  ∧ getSessionInfo chatId w = (Ok None, w)
  ∧ getProcessState chatId w = (Ok None, w).
Proof.
  intros Hc. split_and!; intros;
    unfold sendMessage, respondToApproval, setAutoApprove, stopChat, getAutoApprove,
      getPendingApprovals, getChat, getSessionInfo, getProcessState;
    mstep; by rewrite Hc.
Qed.
End Delivery.


(** X9 on a chat id that was never created *)
Lemma unknown_chat_refused_witness :
  chats world_created !! "ffffffff" = None
  ∧ (∀ message0 attachments,
       sendMessage (rt := demo_runtime) "ffffffff" message0 attachments world_created
       = (Ok false, world_created))
  ∧ stopChat "ffffffff" world_created = (Ok false, world_created).
Proof.
  split; [reflexivity|].
  pose proof (unknown_chat_refused (rt := demo_runtime) world_created "ffffffff"
                eq_refl) as (Hsend & _ & _ & Hstop & _).
  split; [exact Hsend | exact Hstop].
Defined.

(** ** cleanup *)

Section Cleanup.
Context {rt : Runtime}.

(** The registry after the loop of [cleanup] over [l] *)
Lemma foldl_delete_lookup (l : list (string * nat)) : ∀ (c : gmap string nat) k,
  foldl (λ c e, delete e.1 c) c l !! k
  = if decide (k ∈ l.*1) then None else c !! k.
Proof.
  induction l as [|[k0 r0] l IH]; intros c k; cbn [foldl fmap list_fmap fst].
  - rewrite decide_False; [done|]. by intros ?%elem_of_nil.
  - rewrite IH. destruct (decide (k = k0)) as [->|Hne].
    + rewrite lookup_delete_eq.
      rewrite (decide_True (P := k0 ∈ k0 :: l.*1)) by (by left).
      by destruct (decide (k0 ∈ l.*1)).
    + rewrite lookup_delete_ne by done.
      destruct (decide (k ∈ l.*1)) as [Hl|Hl].
      * rewrite decide_True; [done|by right].
      * rewrite decide_False; [done|]. intros [?|?]%elem_of_cons; done.
Qed.

Lemma foldl_delete_size (l : list (string * nat)) : ∀ c : gmap string nat,
  NoDup l.*1 → (∀ e, e ∈ l → c !! e.1 = Some e.2) →
  (size (foldl (λ c e, delete e.1 c) c l) + length l = size c)%nat.
Proof.
  induction l as [|[k0 r0] l IH]; intros c Hnd Hin;
    cbn [foldl fmap list_fmap fst length] in *.
  - lia.
  - apply NoDup_cons in Hnd as [Hk0 Hnd].
    assert (Hk : c !! k0 = Some r0) by (apply (Hin (k0, r0)); by left).
    pose proof (map_size_delete_Some k0 c (mk_is_Some _ _ Hk)) as Hsz.
    assert (Hpos : size c ≠ 0%nat).
    { intros Hz%map_size_empty_inv. by rewrite Hz, lookup_empty in Hk. }
    specialize (IH (delete k0 c) Hnd).
    enough (size (foldl (λ c e, delete e.1 c) (delete k0 c) l) + length l
            = size (delete k0 c))%nat by lia.
    apply IH.
    intros [k r] He. cbn [fst snd]. rewrite lookup_delete_ne.
    + apply (Hin (k, r)). by right.
    + intros <-. apply Hk0. apply list_elem_of_fmap. by exists (k0, r).
Qed.

Lemma cleanup_loop (l : list (string * nat)) : ∀ w,
  (∀ e, e ∈ l → is_Some (heap w !! e.2)) →
  ∃ w',
    for_of l
      (λ entry : string * nat,
         managed ← read entry.2;
         close_stdoutRL (stdoutRL managed);;
         modify (λ w, set_chats (delete entry.1 (chats w)) w)) w = (Ok tt, w')
    ∧ chats w' = foldl (λ c e, delete e.1 c) (chats w) l
    ∧ heap w' = heap w ∧ emitted w' = emitted w ∧ timers w' = timers w
    ∧ clock w' = clock w
    ∧ ∀ h, procs w' !! h = procs w !! h
           ∨ procs w' !! h = close_rl <$> procs w !! h.
Proof.
  induction l as [|e l IH]; intros w Hin.
  - eexists. split; [reflexivity|]. split_and!; try done. by left.
  - destruct (Hin e ltac:(by left)) as [managed Hm].
    cbn [for_of]. rewrite bind_assoc_run. mstep.
    rewrite bind_assoc_run. erewrite bind_Ok by apply close_stdoutRL_run. wsimpl.
    mstep.
    match goal with |- context [for_of l _ ?w0] => destruct (IH w0) as (w' & Hrun & Hc & Hh & He & Ht & Hk & Hp) end.
    { intros e' He'. wsimpl. apply Hin. by right. }
    exists w'. split; [exact Hrun|]. revert Hc Hh He Ht Hk Hp. wsimpl.
    intros Hc Hh He Ht Hk Hp. split_and!; try done.
    intros h. destruct (stdoutRL managed) as [h0|]; [|apply Hp].
    destruct (decide (h0 = h)) as [->|Hne].
    + right. destruct (Hp h) as [-> | ->]; rewrite list_lookup_alter_eq; [done|].
      by destruct (procs w !! h).
    + destruct (Hp h) as [-> | ->]; rewrite list_lookup_alter_ne by done; auto.
Qed.

Lemma NoDup_fst_filter {A B} (f : A * B → bool) (l : list (A * B)) :
  NoDup l.*1 → NoDup (List.filter f l).*1.
Proof.
  induction l as [|x l IH]; cbn [List.filter fmap list_fmap]; [done|].
  intros [Hx Hl]%NoDup_cons. destruct (f x); cbn [fmap list_fmap]; [|auto].
  apply NoDup_cons. split; [|auto]. intros (y & Hy & Hin)%list_elem_of_fmap.
  apply Hx. apply list_elem_of_fmap. exists y. split; [done|].
  apply list_elem_of_In. apply list_elem_of_In in Hin.
  by apply List.filter_In in Hin as [? _].
Qed.

Lemma filter_nil_of_false {A} (f : A → bool) (l : list A) :
  (∀ x, x ∈ l → f x = false) → List.filter f l = [].
Proof.
  induction l as [|x l IH]; intros H; cbn [List.filter]; [done|].
  rewrite (H x) by (by left). apply IH. intros y Hy. apply H. by right.
Qed.

(** [cleanup] in one statement; [victims] are the entries it removes. *)
Lemma cleanup_run w :
  ∃ victims w',
    cleanup w = (Ok (length victims), w')
    ∧ (∀ k r, (k, r) ∈ victims
              ↔ chats w !! k = Some r ∧ removable_at w r = true)
    ∧ (∀ chatId,
         chats w' !! chatId
         = match chats w !! chatId with
           | Some r => if removable_at w r then None else Some r
           | None => None
           end)
    ∧ (length victims + size (chats w') = size (chats w))%nat
    ∧ heap w' = heap w ∧ emitted w' = emitted w ∧ timers w' = timers w
    ∧ (∀ h, procs w' !! h = procs w !! h
            ∨ procs w' !! h = close_rl <$> procs w !! h)
    ∧ cleanup w' = (Ok 0%nat, w').
Proof.
  set (f := λ (objects : list ManagedChat) (entry : string * nat),
              match objects !! entry.2 with
              | Some m => removable (status (chat m))
              | None => false
              end).
  set (victims := List.filter (f (heap w)) (map_to_list (chats w))).
  assert (Hvict : ∀ k r, (k, r) ∈ victims
                         ↔ chats w !! k = Some r ∧ removable_at w r = true).
  { intros k r. unfold victims. rewrite list_elem_of_In, List.filter_In.
    rewrite <- list_elem_of_In, elem_of_map_to_list. done. }
  destruct (cleanup_loop victims w) as (w' & Hrun & Hc & Hh & He & Ht & Hk & Hp).
  { intros [k r] [_ Hr]%Hvict. unfold removable_at in Hr. cbn [snd].
    by destruct (heap w !! r). }
  assert (Hlook : ∀ chatId,
            chats w' !! chatId
            = match chats w !! chatId with
              | Some r => if removable_at w r then None else Some r
              | None => None
              end).
  { intros chatId. rewrite Hc, foldl_delete_lookup.
    destruct (decide (chatId ∈ victims.*1)) as [Hin|Hout].
    - apply list_elem_of_fmap in Hin as ([k r] & -> & Hin). cbn [fst].
      apply Hvict in Hin as [-> ->]. done.
    - destruct (chats w !! chatId) as [r|] eqn:Hr; [|done].
      destruct (removable_at w r) eqn:Hrem; [|done].
      exfalso. apply Hout. apply list_elem_of_fmap. exists (chatId, r).
      split; [done|]. by apply Hvict. }
  exists victims, w'. split.
  { unfold cleanup. mstep. mstep. cbv zeta. fold (f (heap w)). fold victims.
    erewrite bind_Ok by exact Hrun. by rewrite mret_run. }
  split; [exact Hvict|]. split; [exact Hlook|]. split.
  { rewrite Hc, Nat.add_comm. apply foldl_delete_size.
    - apply NoDup_fst_filter, NoDup_fst_map_to_list.
    - intros [k r] Hin. by apply Hvict in Hin as [? _]. }
  split_and!; try done.
  unfold cleanup. mstep. mstep. cbv zeta. rewrite Hh.
  rewrite (filter_nil_of_false _ (map_to_list (chats w'))).
  { cbn [for_of]. mstep. by rewrite mret_run. }
  intros [k r] Hin%elem_of_map_to_list. rewrite Hlook in Hin. cbn [snd].
  destruct (chats w !! k) as [r'|]; [|done].
  unfold removable_at in Hin. destruct (heap w !! r') as [m|] eqn:Hm.
  - destruct (removable (status (chat m))) eqn:Hrem; [done|].
    injection Hin as <-. by rewrite Hm.
  - injection Hin as <-. by rewrite Hm.
Qed.

(** X10. [cleanup] removes from the registry exactly the chats whose
    status is [stopped] (or [error]) and returns how many it removed; the
    session objects, the emitted events and the timers are untouched, no
    child is killed or written to (only readers are closed), and a second
    [cleanup] right after finds nothing to remove. *)
Theorem cleanup_removes_stopped_chats w :
  ∃ n w',
    cleanup w = (Ok n, w')
    ∧ (∀ chatId,
         chats w' !! chatId
         = match chats w !! chatId with
           | Some r => if removable_at w r then None else Some r
           | None => None
           end)
    ∧ (n + size (chats w') = size (chats w))%nat
    ∧ heap w' = heap w ∧ emitted w' = emitted w ∧ timers w' = timers w
    ∧ (∀ h, procs w' !! h = procs w !! h
            ∨ procs w' !! h = close_rl <$> procs w !! h)
    ∧ cleanup w' = (Ok 0%nat, w').
Proof.
  destruct (cleanup_run w) as (victims & w' & Hrun & _ & Hrest).
  by exists (length victims), w'.
Qed.
End Cleanup.
(** ** What stays as it is: events, identities, children *)

Section History.
Context {rt : Runtime}.

Lemma same_identity_refl m : same_identity m m.
Proof. unfold same_identity. by split_and!. Qed.

Lemma same_identity_trans m1 m2 m3 :
  same_identity m1 m2 → same_identity m2 m3 → same_identity m1 m3.
Proof.
  unfold same_identity. intros (?&?&?&?&?&?&?&?&?&?) (?&?&?&?&?&?&?&?&?&?).
  split_and!; try congruence; [auto | lia].
Qed.

Lemma child_grows_refl p : child_grows p p.
Proof.
  unfold child_grows. split_and!; try done.
  intros chunks ->. exists []. by rewrite app_nil_r.
Qed.

Lemma child_grows_trans p1 p2 p3 :
  child_grows p1 p2 → child_grows p2 p3 → child_grows p1 p3.
Proof.
  unfold child_grows.
  intros (?&?&?&?&Hk1&He1&Hr1&Hs1) (?&?&?&?&Hk2&He2&Hr2&Hs2).
  split_and!; try congruence; auto.
  - intros He. destruct (He1 He) as [He' Hc']. destruct (He2 He') as [? ?].
    split; congruence.
  - intros chunks Hc. destruct (Hs1 _ Hc) as [more1 Hw1].
    destruct (Hs2 _ Hw1) as [more2 Hw2]. exists (more1 ++ more2)%list.
    by rewrite app_assoc.
Qed.

Lemma history_refl w : history w w.
Proof.
  split_and!; [done| | |done].
  - intros r m Hm. eauto using same_identity_refl.
  - intros h p Hp. eauto using child_grows_refl.
Qed.

Lemma history_trans w1 w2 w3 : history w1 w2 → history w2 w3 → history w1 w3.
Proof.
  intros (He1 & Hh1 & Hp1 & Hc1) (He2 & Hh2 & Hp2 & Hc2). split_and!.
  - by etrans.
  - intros r m Hm. destruct (Hh1 _ _ Hm) as (m2 & Hm2 & Hi).
    destruct (Hh2 _ _ Hm2) as (m3 & Hm3 & Hi'). eauto using same_identity_trans.
  - intros h p Hp. destruct (Hp1 _ _ Hp) as (p2 & Hp2' & Hi).
    destruct (Hp2 _ _ Hp2') as (p3 & Hp3 & Hi'). eauto using child_grows_trans.
  - lia.
Qed.

Lemma history_same w w' :
  emitted w' = emitted w → heap w' = heap w → procs w' = procs w →
  clock w' = clock w → history w w'.
Proof.
  intros He Hh Hp Hc. destruct (history_refl w) as (He' & Hh' & Hp' & Hc').
  unfold history. by rewrite He, Hh, Hp, Hc.
Qed.

Lemma history_heap w objects :
  (∀ r m, heap w !! r = Some m →
          ∃ m', objects !! r = Some m' ∧ same_identity m m') →
  history w (set_heap objects w).
Proof.
  intros H. split_and!; wsimpl; [done|exact H| |done].
  intros h p Hp. eauto using child_grows_refl.
Qed.

Lemma history_procs w children :
  (∀ h p, procs w !! h = Some p →
          ∃ p', children !! h = Some p' ∧ child_grows p p') →
  history w (set_procs children w).
Proof.
  intros H. split_and!; wsimpl; [done| |exact H|done].
  intros r m Hm. eauto using same_identity_refl.
Qed.

Lemma history_alter_procs w h f :
  (∀ p, procs w !! h = Some p → child_grows p (f p)) →
  history w (set_procs (alter f h (procs w)) w).
Proof.
  intros Hf. apply history_procs. intros h' p Hp.
  destruct (decide (h = h')) as [<-|Hne].
  - rewrite list_lookup_alter_eq, Hp. eauto.
  - rewrite list_lookup_alter_ne by done. eauto using child_grows_refl.
Qed.

Lemma history_emit e : steady history (emit e).
Proof.
  intros w. destruct (history_refl w) as (_ & Hh & Hp & Hc).
  split_and!; [by apply prefix_app_r|exact Hh|exact Hp|exact Hc].
Qed.

Lemma history_update r f :
  (∀ m, same_identity m (f m)) → steady history (update r f).
Proof.
  intros Hf w. apply history_heap. intros r' m Hm.
  destruct (decide (r = r')) as [<-|Hne].
  - rewrite list_lookup_alter_eq, Hm. eauto.
  - rewrite list_lookup_alter_ne by done. eauto using same_identity_refl.
Qed.

Lemma history_update_proc h f :
  (∀ p, child_grows p (f p)) → steady history (update_proc h f).
Proof. intros Hf w. apply history_alter_procs. auto. Qed.

Lemma history_alloc m : steady history (alloc m).
Proof.
  intros w. apply history_heap. intros r m0 Hm.
  rewrite lookup_app_l by (by eapply lookup_lt_Some).
  eauto using same_identity_refl.
Qed.

Lemma history_spawn args dir r chatId : steady history (spawn args dir r chatId).
Proof.
  intros w. apply history_procs. intros h p Hp.
  rewrite lookup_app_l by (by eapply lookup_lt_Some).
  eauto using child_grows_refl.
Qed.

Lemma history_clock w : history w (set_clock (S (clock w)) w).
Proof.
  destruct (history_refl w) as (He & Hh & Hp & _).
  split_and!; wsimpl; [exact He|exact Hh|exact Hp|lia].
Qed.

Lemma history_setTimeout h line : steady history (setTimeout_write h line).
Proof. intros w. by apply history_same. Qed.

Lemma history_set_chats f : steady history (modify (λ w, set_chats (f w) w)).
Proof. intros w. by apply history_same. Qed.

Lemma child_grows_write line p : child_grows p (write_stdin line p).
Proof.
  unfold child_grows. split_and!; try done. cbn [stdin write_stdin].
  intros chunks ->. by exists [line].
Qed.

Lemma child_grows_close p : child_grows p (close_rl p).
Proof.
  unfold child_grows. split_and!; try done.
  intros chunks Hc. exists []. by rewrite app_nil_r.
Qed.

Lemma child_grows_kill p : child_grows p (if exited p then p else set_killed p).
Proof.
  destruct (exited p) eqn:He; [apply child_grows_refl|].
  unfold child_grows.
  cbn [set_killed spawn_args spawn_cwd owner owner_chat killed exited exitCode
       rl_closed stdin].
  split_and!; try done; try (by rewrite He).
  intros chunks Hc. exists []. by rewrite app_nil_r.
Qed.

Lemma history_exit w h p code :
  procs w !! h = Some p → exited p = false →
  history w (set_procs (alter (set_exited code) h (procs w)) w).
Proof.
  intros Hp He. apply history_alter_procs. intros p' Hp'.
  assert (p' = p) as -> by congruence.
  unfold child_grows.
  cbn [set_exited spawn_args spawn_cwd owner owner_chat killed exited exitCode
       rl_closed stdin].
  split_and!; try done; try (by rewrite He).
  intros chunks Hc. exists []. by rewrite app_nil_r.
Qed.

Lemma history_timer_fires w h line rest :
  timers w = (h, line) :: rest →
  history w (set_timers rest (set_procs (alter (write_stdin line) h (procs w)) w)).
Proof.
  intros _. eapply history_trans.
  - apply (history_alter_procs w h (write_stdin line)).
    intros p _. apply child_grows_write.
  - by apply history_same.
Qed.

Lemma same_identity_started managed h t : same_identity managed (started managed h t).
Proof. unfold same_identity. split_and!; try done. cbn. lia. Qed.

Lemma history_sendMessage chatId message0 attachments :
  steady history (sendMessage chatId message0 attachments).
Proof.
  intros w. destruct (sendMessage chatId message0 attachments w) as [res w'] eqn:Hrun.
  cbn [snd].
  destruct (chats w !! chatId) as [r|] eqn:Hc.
  2: { unfold sendMessage in Hrun. revert Hrun. mstep. rewrite Hc, mret_run.
       intros [= _ <-]. apply history_refl. }
  destruct (heap w !! r) as [managed|] eqn:Hh.
  2: { unfold sendMessage in Hrun. revert Hrun. mstep. rewrite Hc.
       erewrite bind_Throw by (unfold read; by rewrite Hh).
       intros [= _ <-]. apply history_refl. }
  assert (Hacc : (isProcessing managed = false ∨ process_gone w managed = true)
                 → history w w').
  { intros Hfree.
    rewrite (sendMessage_accept _ _ _ _ _ _ Hc Hh Hfree) in Hrun.
    injection Hrun as _ <-. split_and!; wsimpl.
    - by apply prefix_app_r.
    - intros r' m Hm. destruct (decide (r = r')) as [<-|Hne].
      + rewrite list_lookup_insert_eq by (by eapply lookup_lt_Some).
        assert (m = managed) as -> by congruence.
        eauto using same_identity_started.
      + rewrite list_lookup_insert_ne by done. eauto using same_identity_refl.
    - intros h p Hp. rewrite lookup_app_l by (by eapply lookup_lt_Some).
      eauto using child_grows_refl.
    - lia. }
  destruct (isProcessing managed) eqn:Hp; [|by auto].
  destruct (process_gone w managed) eqn:Hg; [by auto|].
  rewrite (sendMessage_reject _ _ _ _ _ _ Hc Hh Hp Hg) in Hrun.
  injection Hrun as _ <-. apply history_refl.
Qed.

(** Every run of the manager is a step of [history]. *)
Lemma run_all_history trace w w' : run_all trace w = Some w' → history w w'.
Proof.
  apply (run_all_steady history history_refl history_trans
           (λ f, ∀ m, same_identity m (f m)) (λ f, ∀ p, child_grows p (f p))
           (λ _, True)).
  all: first
    [ apply history_emit | apply history_update | apply history_update_proc
    | apply history_spawn | apply history_clock | apply history_setTimeout
    | apply history_set_chats | apply history_exit | apply history_timer_fires
    | apply child_grows_write | apply child_grows_close | apply child_grows_kill
    | apply history_sendMessage
    | by intros m _; apply history_alloc
    | by intros; unfold same_identity; split_and!
    | done ].
Qed.
End History.

Section HistoryTheorems.
Context {rt : Runtime}.

(** X12. The identity of a session never changes: over every run, a
    session object keeps its session id, system prompt, permission mode
    and the id, name, working directory, creation time and session id of
    its chat; a chat that was stopped stays stopped, and the message count
    never goes down. *)
Theorem session_identity_is_fixed trace w w' r m :
  run_all trace w = Some w' → heap w !! r = Some m →
  ∃ m',
    heap w' !! r = Some m'
    ∧ sessionId m' = sessionId m
    ∧ systemPrompt m' = systemPrompt m
    ∧ permissionMode m' = permissionMode m
    ∧ id (chat m') = id (chat m)
    ∧ name (chat m') = name (chat m)
    ∧ cwd (chat m') = cwd (chat m)
    ∧ created_at (chat m') = created_at (chat m)
    ∧ session_id (chat m') = session_id (chat m)
    ∧ (status (chat m) = stopped → status (chat m') = stopped)
    ∧ (messageCount m ≤ messageCount m')%nat.
Proof.
  intros Hrun Hm. destruct (run_all_history _ _ _ Hrun) as (_ & Hh & _).
  destruct (Hh _ _ Hm) as (m' & Hm' & Hi). by exists m'.
Qed.

(** X14. A conversation is established once.  When a session has counted
    a message (it has spawned a child, or was created from an existing
    session id), then after any run every accepted [sendMessage] for it
    spawns its child with [--resume] and the session id the session had,
    with the permission flags it had, in the working directory it had;
    [--session-id] is not used again. *)
Theorem later_children_resume_the_session
  trace w w' r m chatId message0 attachments w2 :
  run_all trace w = Some w' → heap w !! r = Some m →
  (0 < messageCount m)%nat →
  chats w' !! chatId = Some r →
  sendMessage chatId message0 attachments w' = (Ok true, w2) →
  ∃ child,
    procs w2 = procs w' ++ [child]
    ∧ spawn_args child = common_args m ++ ["--resume"; sessionId m]
    ∧ spawn_cwd child = cwd (chat m)
    ∧ owner child = r.
Proof.
  intros Hrun Hm Hpos Hc Hsend.
  destruct (run_all_history _ _ _ Hrun) as (_ & Hh & _).
  destruct (Hh _ _ Hm) as (m' & Hm' & Hsid & _ & Hmode & _ & _ & Hcwd & _ & _ & _ & Hcnt).
  apply sendMessage_accepted_inv in Hsend
    as (r' & managed & Hc' & Hh' & _ & ->).
  assert (r' = r) as -> by congruence.
  assert (managed = m') as -> by congruence.
  eexists. wsimpl. split; [reflexivity|].
  unfold new_child. cbn [spawn_args spawn_cwd owner].
  split_and!; [|done|done].
  unfold build_args, identity_args, common_args.
  destruct (Nat.eqb_spec (messageCount m') 0) as [Hz|_]; [lia|].
  by rewrite Hmode, Hsid.
Qed.
End HistoryTheorems.

(** X12 on the two permission requests of the captured first turn *)
Lemma session_identity_is_fixed_witness :
  ∃ m,
    run_all (rt := demo_runtime) trace_two_requests world_first_turn
    = Some world_two_pending
    ∧ heap world_first_turn !! 0%nat = Some m
    ∧ ∃ m',
        heap world_two_pending !! 0%nat = Some m'
        ∧ sessionId m' = sessionId m
        ∧ systemPrompt m' = systemPrompt m
        ∧ permissionMode m' = permissionMode m
        ∧ id (chat m') = id (chat m)
        ∧ name (chat m') = name (chat m)
        ∧ cwd (chat m') = cwd (chat m)
        ∧ created_at (chat m') = created_at (chat m)
        ∧ session_id (chat m') = session_id (chat m)
        ∧ (status (chat m) = stopped → status (chat m') = stopped)
        ∧ (messageCount m ≤ messageCount m')%nat.
Proof.
  assert (Hrun : run_all (rt := demo_runtime) trace_two_requests world_first_turn
                 = Some world_two_pending) by (vm_compute; reflexivity).
  eexists. split; [exact Hrun|]. split; [reflexivity|].
  exact (session_identity_is_fixed (rt := demo_runtime) _ _ _ 0%nat _ Hrun eq_refl).
Defined.

(** X14 on the captured second turn *)
Lemma later_children_resume_the_session_witness :
  ∃ m,
    run_all (rt := demo_runtime) [StdoutLine 0 (line_of msg_result)] world_first_turn
    = Some world_result
    ∧ heap world_first_turn !! 0%nat = Some m
    ∧ (0 < messageCount m)%nat
    ∧ chats world_result !! "00000000" = Some 0%nat
    ∧ sendMessage (rt := demo_runtime) "00000000" "and in /var?" None world_result
      = (Ok true, world_second_turn_early)
    ∧ ∃ child,
        procs world_second_turn_early = procs world_result ++ [child]
        ∧ spawn_args child = common_args m ++ ["--resume"; sessionId m]
        ∧ spawn_cwd child = cwd (chat m)
        ∧ owner child = 0%nat.
Proof.
  assert (Hrun : run_all (rt := demo_runtime) [StdoutLine 0 (line_of msg_result)]
                   world_first_turn = Some world_result)
    by (vm_compute; reflexivity).
  assert (Hsend : sendMessage (rt := demo_runtime) "00000000" "and in /var?" None
                    world_result = (Ok true, world_second_turn_early))
    by (vm_compute; reflexivity).
  assert (Hpos : (0 < 1)%nat) by lia.
  eexists. split; [exact Hrun|]. split; [reflexivity|]. split; [exact Hpos|].
  split; [reflexivity|]. split; [exact Hsend|].
  exact (later_children_resume_the_session (rt := demo_runtime) _ _ _ 0%nat _
           "00000000" "and in /var?" None _ Hrun eq_refl Hpos eq_refl Hsend).
Defined.
(** ** What holds of every session in every reachable state *)

Section Keys.

Lemma prim_eqb_sym a b : prim_eqb a b = prim_eqb b a.
Proof.
  destruct a as [| |x|x|x| |], b as [| |y|y|y| |]; cbn; try done.
  - by destruct x, y.
  - apply String.eqb_sym.
  - apply String.eqb_sym.
Qed.

Lemma prim_eqb_object a b : is_object b = true → prim_eqb a b = false.
Proof. destruct a, b; by cbn. Qed.

(** Being the same key is symmetric for the keys of a map. *)
Lemma same_key_sym a b : same_key (held a) b = same_key (held b) a.
Proof.
  unfold same_key, held. cbn [ref_value ref_ident].
  destruct (is_object (key_value a)) eqn:Ea, (is_object (key_value b)) eqn:Eb;
    cbn [andb].
  - apply Nat.eqb_sym.
  - symmetry. by apply prim_eqb_object.
  - by apply prim_eqb_object.
  - apply prim_eqb_sym.
Qed.

(** A reference to a key is a reference to the keys that are the same. *)
Lemma same_key_trans q a b : same_key q a = true → same_key q b = same_key (held a) b.
Proof.
  unfold same_key, held. cbn [ref_value ref_ident].
  destruct (is_object (ref_value q)) eqn:Eq.
  - intros [Ha Hi]%andb_prop. rewrite Ha.
    destruct (ref_ident q) as [i|]; [|done].
    by apply Nat.eqb_eq in Hi as ->.
  - intros [Hv Hp]%prim_eqb_eq. by rewrite <- Hv, Hp.
Qed.

Lemma same_key_congr q k k' : same_key (held k) k' = true → same_key q k' = same_key q k.
Proof.
  unfold same_key, held. cbn [ref_value ref_ident].
  destruct (is_object (key_value k)) eqn:Ek.
  - intros [Ek' Hi%Nat.eqb_eq]%andb_prop. rewrite Ek', Hi.
    destruct (is_object (ref_value q)); [done|].
    by rewrite !prim_eqb_object.
  - intros [Hv _]%prim_eqb_eq. by rewrite <- Hv, Ek.
Qed.

Lemma pa_get_same q q' m :
  (∀ k, same_key q k = same_key q' k) → pa_get q m = pa_get q' m.
Proof.
  intros H. induction m as [|[k v] rest IH]; cbn [pa_get]; [done|].
  by rewrite H, IH.
Qed.

Lemma pa_get_None_key q m k v : pa_get q m = None → (k, v) ∈ m → same_key q k = false.
Proof.
  induction m as [|[k' v'] rest IH]; cbn [pa_get]; [by intros _ ?%elem_of_nil|].
  destruct (same_key q k') eqn:E; [done|].
  intros Hg [[= -> ->]|Hin]%elem_of_cons; auto.
Qed.

Lemma pa_get_Some_key q m v :
  pa_get q m = Some v → ∃ k, same_key q k = true ∧ (k, v) ∈ m.
Proof.
  induction m as [|[k' v'] rest IH]; cbn [pa_get]; [done|].
  destruct (same_key q k') eqn:E.
  - intros [= ->]. exists k'. split; [done|by left].
  - intros (k & Hk & Hin)%IH. exists k. split; [done|by right].
Qed.

Lemma pa_wf_nil : pa_wf [].
Proof. split; [done|constructor]. Qed.

(** Setting a key changes no other key. *)
Lemma pa_get_set_ne q k v m :
  same_key q k = false → pa_get q (pa_set k v m) = pa_get q m.
Proof.
  intros Hq. induction m as [|[k' v'] rest IH]; cbn [pa_set pa_get].
  - by rewrite Hq.
  - destruct (same_key (held k) k') eqn:E; cbn [pa_get].
    + by rewrite (same_key_congr q k k' E), Hq.
    + by rewrite IH.
Qed.

Lemma pa_distinct_set k v m : pa_distinct m → pa_distinct (pa_set k v m).
Proof.
  induction m as [|[k' v'] rest IH]; cbn [pa_set pa_distinct]; [done|].
  intros [Hk Hrest]. destruct (same_key (held k) k') eqn:E; cbn [pa_distinct].
  - done.
  - split; [|auto]. rewrite pa_get_set_ne; [done|].
    by rewrite same_key_sym.
Qed.

Lemma stored_under_id_set k v m :
  request_id v = key_value k →
  Forall stored_under_id m → Forall stored_under_id (pa_set k v m).
Proof.
  intros Hv. induction 1 as [|[k' v'] rest Hx Hrest IH]; cbn [pa_set].
  - repeat constructor. unfold stored_under_id. cbn [fst snd]. rewrite Hv.
    apply same_key_held.
  - destruct (same_key (held k) k') eqn:E; constructor; try done.
    unfold stored_under_id. cbn [fst snd]. rewrite Hv.
    revert E. unfold same_key, held. cbn [ref_value ref_ident].
    destruct (is_object (key_value k)); [|done].
    intros [-> _]%andb_prop. by rewrite Nat.eqb_refl.
Qed.

Lemma pa_wf_set k v m :
  request_id v = key_value k → pa_wf m → pa_wf (pa_set k v m).
Proof.
  intros Hv [Hnd Hid].
  split; [by apply pa_distinct_set|by apply stored_under_id_set].
Qed.

Lemma pa_get_delete_None q q' m : pa_get q' m = None → pa_get q' (pa_delete q m) = None.
Proof.
  induction m as [|[k v] rest IH]; cbn [pa_get pa_delete]; [done|].
  destruct (same_key q' k) eqn:E'; [done|]. intros Hg.
  destruct (same_key q k); [done|]. cbn [pa_get]. rewrite E'. auto.
Qed.

Lemma pa_wf_delete q m : pa_wf m → pa_wf (pa_delete q m).
Proof.
  intros [Hnd Hid]. split.
  - clear Hid. induction m as [|[k' v'] rest IH]; cbn [pa_delete pa_distinct] in *;
      [done|].
    destruct Hnd as [Hk Hnd].
    destruct (same_key q k'); [done|]. cbn [pa_distinct].
    split; [by apply pa_get_delete_None|auto].
  - clear Hnd. induction Hid as [|[k' v'] rest Hx Hrest IH]; cbn [pa_delete].
    + constructor.
    + destruct (same_key q k'); [done|by constructor].
Qed.

(** A deleted key is gone. *)
Lemma pa_get_delete q m : pa_distinct m → pa_get q (pa_delete q m) = None.
Proof.
  induction m as [|[k' v'] rest IH]; cbn [pa_delete pa_get pa_distinct]; [done|].
  intros [Hk Hnd]. destruct (same_key q k') eqn:E.
  - rewrite <- Hk. apply pa_get_same. intros k. by apply same_key_trans.
  - cbn [pa_get]. rewrite E. auto.
Qed.

(** Deleting a key removes the entry of that key and changes no other. *)
Lemma pa_delete_other q m v :
  pa_get q m = Some v →
  ∃ k0, same_key q k0 = true ∧ (k0, v) ∈ m
        ∧ ∀ q', same_key q' k0 = false → pa_get q' (pa_delete q m) = pa_get q' m.
Proof.
  induction m as [|[k' v'] rest IH]; cbn [pa_get pa_delete]; [done|].
  destruct (same_key q k') eqn:E.
  - intros [= ->]. exists k'. split; [done|]. split; [by left|].
    intros q' Hq'. by rewrite Hq'.
  - intros (k0 & Hk0 & Hin & Hother)%IH. exists k0.
    split; [done|]. split; [by right|].
    intros q' Hq'. cbn [pa_get]. destruct (same_key q' k'); [done|]. auto.
Qed.

(** In a map without a repeated key, the entries of the same key are one
    entry. *)
Lemma pa_distinct_lookup m : ∀ i j ka a kb b,
  pa_distinct m → m !! i = Some (ka, a) → m !! j = Some (kb, b) →
  same_key (held ka) kb = true → i = j.
Proof.
  induction m as [|[k v] rest IH]; intros i j ka a kb b Hnd Hi Hj Hsame;
    [done|].
  destruct Hnd as [Hk Hnd]. destruct i as [|i], j as [|j]; cbn in Hi, Hj.
  - done.
  - injection Hi as -> ->.
    apply list_elem_of_lookup_2 in Hj.
    by rewrite (pa_get_None_key _ _ _ _ Hk Hj) in Hsame.
  - injection Hj as -> ->.
    apply list_elem_of_lookup_2 in Hi. rewrite same_key_sym in Hsame.
    by rewrite (pa_get_None_key _ _ _ _ Hk Hi) in Hsame.
  - f_equal. eauto.
Qed.

Lemma pa_elem_get k v m : pa_distinct m → (k, v) ∈ m → pa_get (held k) m = Some v.
Proof.
  induction m as [|[k' v'] rest IH]; cbn [pa_get pa_distinct].
  - by intros _ ?%elem_of_nil.
  - intros [Hk Hnd] [[= <- <-]|Hin]%elem_of_cons.
    + by rewrite same_key_held.
    + destruct (same_key (held k) k') eqn:E; [|auto].
      rewrite same_key_sym in E.
      by rewrite (pa_get_None_key _ _ _ _ Hk Hin) in E.
Qed.
End Keys.

Section SessionInvariant.
Context {rt : Runtime}.

Lemma sessions_ok_refl w : sessions_ok w w.
Proof. by intros H. Qed.

Lemma sessions_ok_trans w1 w2 w3 :
  sessions_ok w1 w2 → sessions_ok w2 w3 → sessions_ok w1 w3.
Proof. unfold sessions_ok. auto. Qed.

Lemma sessions_ok_same_heap w w' : heap w' = heap w → sessions_ok w w'.
Proof. unfold sessions_ok. by intros ->. Qed.

Lemma sessions_ok_update r f :
  (∀ m, session_ok m → session_ok (f m)) → steady sessions_ok (update r f).
Proof.
  intros Hf w H. unfold update, modify. wsimpl.
  apply Forall_alter; [done|]. intros m _. rewrite Forall_forall in H. auto.
Qed.

Lemma sessions_ok_alloc m : session_ok m → steady sessions_ok (alloc m).
Proof.
  intros Hm w H. unfold alloc. wsimpl. apply Forall_app. split; [done|].
  by constructor.
Qed.

Ltac session_ok_fun :=
  let Ha := fresh "Ha" in
  let Hb := fresh "Hb" in
  let Hc := fresh "Hc" in
  intros;
  match goal with H : session_ok _ |- _ => destruct H as (Ha & Hb & Hc) end;
  unfold session_ok;
  cbn [isProcessing processState pendingApprovals chat status
       set_processState set_isProcessing set_pendingApprovals set_chat
       set_messageCount set_currentProcess set_stdoutRL set_autoApprove
       set_last_activity set_pid set_status];
  split_and!; auto using pa_wf_set, pa_wf_delete.

Lemma run_all_sessions_ok trace w w' : run_all trace w = Some w' → sessions_ok w w'.
Proof.
  assert (Hsend : ∀ chatId message0 attachments,
            steady sessions_ok (sendMessage chatId message0 attachments)).
  { intros chatId message0 attachments.
    apply (steady_sendMessage sessions_ok sessions_ok_refl sessions_ok_trans
             (λ f, ∀ m, session_ok m → session_ok (f m)));
      first [ by intros; intros ?; apply sessions_ok_same_heap
            | by intros; apply sessions_ok_same_heap
            | apply sessions_ok_update
            | by session_ok_fun ]. }
  apply (run_all_steady sessions_ok sessions_ok_refl sessions_ok_trans
           (λ f, ∀ m, session_ok m → session_ok (f m)) (λ _, True) session_ok);
    first [ exact Hsend
          | by intros; intros ?; apply sessions_ok_same_heap
          | by intros; apply sessions_ok_same_heap
          | apply sessions_ok_update
          | apply sessions_ok_alloc
          | done
          | by session_ok_fun
          | idtac ].
  intros m Hp Hs Hpa Hst. unfold session_ok. rewrite Hp, Hpa, Hst.
  split_and!; [done|apply pa_wf_nil|by left].
Qed.

Lemma reachable_sessions_ok w r m :
  reachable w → heap w !! r = Some m → session_ok m.
Proof.
  intros [trace Hrun] Hm.
  assert (Hall : Forall session_ok (heap w)).
  { by apply (run_all_sessions_ok _ _ _ Hrun). }
  rewrite Forall_lookup in Hall. by apply (Hall r).
Qed.
End SessionInvariant.

Section SessionTheorems.
Context {rt : Runtime}.

(** X15. A session at rest takes the next message.  In every reachable
    state, a registered session whose process state is [idle], [finished]
    or [error] is not processing, so [sendMessage] is accepted and spawns
    one child for it. *)
Theorem resting_session_accepts_message w chatId r m message0 attachments :
  reachable w → chats w !! chatId = Some r → heap w !! r = Some m →
  processState m = idle ∨ processState m = finished ∨ processState m = error →
  isProcessing m = false
  ∧ ∃ w' child,
      sendMessage chatId message0 attachments w = (Ok true, w')
      ∧ procs w' = procs w ++ [child]
      ∧ owner child = r
      ∧ spawn_cwd child = cwd (chat m).
Proof.
  intros Hreach Hc Hm Hstate.
  destruct (reachable_sessions_ok _ _ _ Hreach Hm) as (Hflag & _ & _).
  assert (Hp : isProcessing m = false).
  { destruct (isProcessing m); [|done].
    destruct (Hflag eq_refl) as [Hs|Hs]; rewrite Hs in Hstate;
      by destruct Hstate as [?|[?|?]]. }
  split; [exact Hp|]. eexists _, _.
  split; [eapply sendMessage_accept; eauto|]. by wsimpl.
Qed.

(** What a successful [respondToApproval] found *)
Lemma respondToApproval_true_inv w chatId response w1 :
  respondToApproval chatId response w = (Ok true, w1) →
  ∃ r managed request0 h,
    chats w !! chatId = Some r ∧ heap w !! r = Some managed
    ∧ pa_get (response_key response) (pendingApprovals managed) = Some request0
    ∧ current_stdin w managed = Some h.
Proof.
  intros Hrun.
  destruct (chats w !! chatId) as [r|] eqn:Hc.
  2: { unfold respondToApproval in Hrun. revert Hrun. mstep. by rewrite Hc. }
  destruct (heap w !! r) as [managed|] eqn:Hh.
  2: { unfold respondToApproval in Hrun. revert Hrun. mstep. rewrite Hc.
       erewrite bind_Throw; [done|]. unfold read. by rewrite Hh. }
  destruct (pa_get (response_key response) (pendingApprovals managed))
    as [request0|] eqn:Hpa.
  2: { rewrite (respondToApproval_not_pending _ _ _ _ _ Hc Hh Hpa) in Hrun.
       by destruct (printable (resp_request_id response)). }
  destruct (current_stdin w managed) as [h|] eqn:Hs.
  2: { by rewrite (respondToApproval_no_stdin _ _ _ _ _ _ Hc Hh Hpa Hs) in Hrun. }
  by exists r, managed, request0, h.
Qed.

(** X16. A permission request is answered at most once.  In every
    reachable state, after [respondToApproval] has succeeded for a request
    id, the request is no longer pending, the requests pending under the
    other keys are still there, and a second answer to the same id
    changes nothing (nothing more is written to the child): it returns
    [false], or throws a TypeError from its error message when the id is
    an object that cannot be converted to a string. *)
Theorem approval_answered_at_most_once w chatId response w1 :
  reachable w →
  respondToApproval chatId response w = (Ok true, w1) →
  (∃ r m m1 key request0,
     chats w !! chatId = Some r ∧ heap w !! r = Some m ∧ heap w1 !! r = Some m1
     ∧ same_key (response_key response) key = true
     ∧ (key, request0) ∈ pendingApprovals m
     ∧ pa_get (response_key response) (pendingApprovals m1) = None
     ∧ ∀ q, same_key q key = false →
            pa_get q (pendingApprovals m1) = pa_get q (pendingApprovals m))
  ∧ respondToApproval chatId response w1
    = (if printable (resp_request_id response) then Ok false else Throw TypeError,
       w1).
Proof.
  intros Hreach Hrun.
  destruct (respondToApproval_true_inv _ _ _ _ Hrun)
    as (r & m & request0 & h & Hc & Hm & Hpa & Hs).
  destruct (reachable_sessions_ok _ _ _ Hreach Hm) as (_ & [Hnd _] & _).
  rewrite (respondToApproval_found _ _ _ _ _ _ _ Hc Hm Hpa Hs) in Hrun.
  cbv zeta in Hrun.
  destruct (approval_log_message response request0) as [text|]; [|done].
  injection Hrun as <-.
  assert (Hgone : pa_get (response_key response)
                    (pa_delete (response_key response) (pendingApprovals m))
                  = None) by (by apply pa_get_delete).
  destruct (pa_delete_other _ _ _ Hpa) as (key & Hkey & Hin & Hother).
  split.
  - exists r, m, (set_processState processing
                    (set_pendingApprovals (pa_delete (response_key response)) m)),
      key, request0.
    wsimpl. split_and!; try done. by rewrite list_lookup_alter_eq, Hm.
  - eapply respondToApproval_not_pending; wsimpl.
    + exact Hc.
    + by rewrite list_lookup_alter_eq, Hm.
    + exact Hgone.
Qed.

(** X17. The pending requests of a session whose ids are strings (or
    other primitives) have pairwise distinct ids, and each of them is the
    one [respondToApproval] finds for its id: in every reachable state
    [getPendingApprovals] returns no two requests with the same primitive
    id.  Requests whose ids are objects or arrays are kept apart by the
    identity of the object, so that two of them can have ids that look the
    same; an answer that comes from outside with an object as id finds
    none of them. *)
Theorem pending_requests_have_distinct_ids w chatId r m :
  reachable w → chats w !! chatId = Some r → heap w !! r = Some m →
  ∃ l,
    getPendingApprovals chatId w = (Ok l, w)
    ∧ (∀ i j a b, l !! i = Some a → l !! j = Some b →
                  prim_eqb (request_id a) (request_id b) = true → i = j)
    ∧ (∀ v response,
         v ∈ l → resp_request_id response = request_id v →
         is_object (request_id v) = false →
         pa_get (response_key response) (pendingApprovals m) = Some v)
    ∧ (∀ response,
         is_object (resp_request_id response) = true →
         resp_ident response = None →
         pa_get (response_key response) (pendingApprovals m) = None).
Proof.
  intros Hreach Hc Hm.
  destruct (reachable_sessions_ok _ _ _ Hreach Hm) as (_ & [Hnd Hid] & _).
  exists (map snd (pendingApprovals m)). split.
  { unfold getPendingApprovals. mstep. rewrite Hc. mstep. by rewrite mret_run. }
  assert (Hprim : ∀ k v, (k, v) ∈ pendingApprovals m →
                         is_object (request_id v) = false →
                         key_value k = request_id v).
  { intros k v Hin Hp. rewrite Forall_forall in Hid.
    pose proof (Hid _ Hin) as Hk. unfold stored_under_id, same_key in Hk.
    cbn [fst snd ref_value] in Hk. rewrite Hp in Hk.
    by apply prim_eqb_eq in Hk as [-> _]. }
  split_and!.
  - intros i j a b Hi Hj Heq.
    apply list_lookup_fmap_Some in Hi as ([ka a'] & -> & Hi).
    apply list_lookup_fmap_Some in Hj as ([kb b'] & -> & Hj).
    cbn [snd] in Heq. apply prim_eqb_eq in Heq as [Heq Hp].
    pose proof (Hprim _ _ (list_elem_of_lookup_2 _ _ _ Hi) Hp) as Hka.
    assert (Hp' : is_object (request_id b') = false) by (by rewrite <- Heq).
    pose proof (Hprim _ _ (list_elem_of_lookup_2 _ _ _ Hj) Hp') as Hkb.
    eapply (pa_distinct_lookup _ _ _ _ _ _ _ Hnd Hi Hj).
    unfold same_key, held. cbn [ref_value ref_ident].
    rewrite Hka, Hp, Hkb, <- Heq. by apply prim_eqb_refl.
  - intros v response Hv Hrid Hp.
    apply list_elem_of_fmap in Hv as ([k v'] & -> & Hin). cbn [snd] in *.
    rewrite <- (pa_elem_get _ _ _ Hnd Hin).
    apply pa_get_prim; cbn [response_key held ref_value].
    + rewrite Hrid. symmetry. by apply Hprim.
    + by rewrite Hrid.
  - intros response Hobj Hnone.
    unfold response_key. rewrite Hnone. by apply pa_get_outside.
Qed.

(** X18. The status of a chat is [running] from its creation until it is
    stopped, and [stopped] from then on: in every reachable state it is
    one of the two (it is never [error], whatever happens to the child),
    so [cleanup] removes a chat exactly when it was stopped. *)
Theorem chat_status_running_or_stopped w r m :
  reachable w → heap w !! r = Some m →
  (status (chat m) = running ∨ status (chat m) = stopped)
  ∧ (removable_at w r = true ↔ status (chat m) = stopped).
Proof.
  intros Hreach Hm.
  destruct (reachable_sessions_ok _ _ _ Hreach Hm) as (_ & _ & Hst).
  split; [exact Hst|]. unfold removable_at. rewrite Hm.
  destruct Hst as [-> | ->]; by split.
Qed.
End SessionTheorems.

(** X15 on the captured run after the exit of the child *)
Lemma resting_session_accepts_message_witness :
  ∃ m,
    reachable (rt := demo_runtime) world_exit_0
    ∧ chats world_exit_0 !! "00000000" = Some 0%nat
    ∧ heap world_exit_0 !! 0%nat = Some m
    ∧ (processState m = idle ∨ processState m = finished ∨ processState m = error)
    ∧ isProcessing m = false
    ∧ ∃ w' child,
        sendMessage (rt := demo_runtime) "00000000" "and in /var?" None world_exit_0
        = (Ok true, w')
        ∧ procs w' = procs world_exit_0 ++ [child]
        ∧ owner child = 0%nat
        ∧ spawn_cwd child = cwd (chat m).
Proof.
  assert (Hreach : reachable (rt := demo_runtime) world_exit_0).
  { exists (trace_two_pending ++ [ProcExit 0 (Some 0)]). vm_compute. reflexivity. }
  eexists. split; [exact Hreach|]. split; [reflexivity|]. split; [reflexivity|].
  split; [right; left; reflexivity|].
  exact (resting_session_accepts_message (rt := demo_runtime) world_exit_0
           "00000000" 0%nat _ "and in /var?" None Hreach eq_refl eq_refl
           (or_intror (or_introl eq_refl))).
Defined.

(** X16 on the captured run with two pending requests *)
Lemma approval_answered_at_most_once_witness :
  reachable (rt := demo_runtime) world_two_pending
  ∧ respondToApproval (rt := demo_runtime) "00000000" (allow_req "req-1")
      world_two_pending = (Ok true, world_one_answered)
  ∧ respondToApproval (rt := demo_runtime) "00000000" (allow_req "req-1")
      world_one_answered = (Ok false, world_one_answered).
Proof.
  assert (Hreach : reachable (rt := demo_runtime) world_two_pending).
  { exists trace_two_pending. vm_compute. reflexivity. }
  assert (Hrun : respondToApproval (rt := demo_runtime) "00000000"
                   (allow_req "req-1") world_two_pending
                 = (Ok true, world_one_answered)) by (vm_compute; reflexivity).
  split; [exact Hreach|]. split; [exact Hrun|].
  exact (proj2 (approval_answered_at_most_once (rt := demo_runtime)
                  world_two_pending "00000000" (allow_req "req-1")
                  world_one_answered Hreach Hrun)).
Defined.

(** X17 on the captured run with two pending requests *)
Lemma pending_requests_have_distinct_ids_witness :
  ∃ m,
    reachable (rt := demo_runtime) world_two_pending
    ∧ chats world_two_pending !! "00000000" = Some 0%nat
    ∧ heap world_two_pending !! 0%nat = Some m
    ∧ ∃ l,
        getPendingApprovals "00000000" world_two_pending = (Ok l, world_two_pending)
        ∧ (∀ i j a b, l !! i = Some a → l !! j = Some b →
                      prim_eqb (request_id a) (request_id b) = true → i = j)
        ∧ (∀ v response,
             v ∈ l → resp_request_id response = request_id v →
             is_object (request_id v) = false →
             pa_get (response_key response) (pendingApprovals m) = Some v)
        ∧ (∀ response,
             is_object (resp_request_id response) = true →
             resp_ident response = None →
             pa_get (response_key response) (pendingApprovals m) = None).
Proof.
  assert (Hreach : reachable (rt := demo_runtime) world_two_pending).
  { exists trace_two_pending. vm_compute. reflexivity. }
  eexists. split; [exact Hreach|]. split; [reflexivity|]. split; [reflexivity|].
  exact (pending_requests_have_distinct_ids (rt := demo_runtime) world_two_pending
           "00000000" 0%nat _ Hreach eq_refl eq_refl).
Defined.

(** X18 on the captured run that ends with [stopChat] *)
Lemma chat_status_running_or_stopped_witness :
  ∃ m,
    reachable (rt := demo_runtime) world_stopped
    ∧ heap world_stopped !! 0%nat = Some m
    ∧ (status (chat m) = running ∨ status (chat m) = stopped)
    ∧ (removable_at world_stopped 0 = true ↔ status (chat m) = stopped).
Proof.
  assert (Hreach : reachable (rt := demo_runtime) world_stopped).
  { exists trace_stopped. vm_compute. reflexivity. }
  eexists. split; [exact Hreach|]. split; [reflexivity|].
  exact (chat_status_running_or_stopped (rt := demo_runtime) world_stopped 0%nat _
           Hreach eq_refl).
Defined.

(** ** The routes over the manager *)

Section RouteTheorems.
Context {rt : Runtime}.


Lemma try_catch_with_Ok {A} (body : M A) handler w a w' :
  body w = (Ok a, w') → try_catch_with body handler w = (Ok a, w').
Proof. intros H. unfold try_catch_with. by rewrite H. Qed.

Lemma try_catch_with_Throw {A} (body : M A) handler w e w' :
  body w = (Throw e, w') → try_catch_with body handler w = handler e w'.
Proof. intros H. unfold try_catch_with. by rewrite H. Qed.

End RouteTheorems.

Section RouteTheorems2.
Context {rt : Runtime}.

(** [setAutoApprove] on a registered chat *)
Lemma setAutoApprove_known w chatId r m enabled :
  chats w !! chatId = Some r → heap w !! r = Some m →
  let answers :=
    enabled && bool_decide (is_Some (current_stdin w m))
    && negb (all_printable (pendingApprovals m)) in
  ∃ w' m',
    setAutoApprove chatId enabled w
    = (if answers then Throw TypeError else Ok true, w')
    ∧ chats w' = chats w ∧ heap w' !! r = Some m'
    ∧ autoApprove m' = enabled
    ∧ (enabled = false →
       w' = set_heap (alter (set_autoApprove false) r (heap w)) w).
Proof.
  intros Hc Hh answers. unfold setAutoApprove. mstep. rewrite Hc. mstep. mstep.
  cbn [pendingApprovals set_autoApprove].
  set (w0 := {| chats := chats w;
                heap := alter (set_autoApprove enabled) r (heap w);
                procs := procs w; emitted := emitted w;
                timers := timers w; clock := clock w |}).
  assert (Hh0 : heap w0 !! r = Some (set_autoApprove enabled m)).
  { unfold w0. wsimpl. by rewrite list_lookup_alter_eq, Hh. }
  destruct enabled.
  2: { cbn [andb]. rewrite when_false. mstep. rewrite mret_run.
       exists w0, (set_autoApprove false m). by split_and!. }
  destruct (pendingApprovals m) as [|kv rest] eqn:Hpas.
  { cbn [length Nat.ltb Nat.leb andb]. rewrite when_false. mstep. rewrite mret_run.
    exists w0, (set_autoApprove true m). subst answers.
    cbn [all_printable forallb negb]. rewrite andb_false_r.
    by split_and!. }
  cbn [length Nat.ltb Nat.leb andb]. rewrite when_true. rewrite <- Hpas.
  destruct (current_stdin w m) as [h|] eqn:Hs.
  - apply current_stdin_Some in Hs as (Hcur & p & chunks & Hp & Hin).
    destruct (approve_all_run chatId r h (pendingApprovals m) w0
                (set_autoApprove true m) p chunks)
      as (w' & m' & p' & new & Hloop & Hc' & Hh' & _ & Hau' & _); try done.
    exists w', m'. subst answers. rewrite <- Hpas. cbn [andb].
    rewrite bool_decide_eq_true_2 by eauto. cbn [andb].
    split.
    { destruct (all_printable (pendingApprovals m)); cbn [negb].
      - erewrite bind_Ok by exact Hloop. apply mret_run.
      - by erewrite bind_Throw by exact Hloop. }
    by split_and!.
  - erewrite bind_Ok.
    2: { eapply (approve_none_run chatId r (set_autoApprove true m));
           [exact Hc|exact Hh0|exact Hs|].
         apply Forall_forall. intros k ([k' v] & -> & Hin)%list_elem_of_fmap.
         by eapply pa_get_key. }
    rewrite mret_run. exists w0, (set_autoApprove true m). subst answers.
    rewrite <- Hpas. cbn [andb]. rewrite bool_decide_eq_false_2 by (by intros [? ?]).
    by split_and!.
Qed.

(** X20. Setting and reading auto-approve through the routes.  For a
    registered chat, POST auto-approve with a boolean [enabled] sets the
    flag, and GET auto-approve right after reports that value.  The POST
    answers 200 with the value; switching the flag off changes nothing
    else (nothing is written to a child, no event is emitted, pending
    requests stay).  The one exception is switching it on while the
    current child has a stdin and a pending request names a tool that
    cannot be converted to a string: the flag is set, but the audit entry
    of that request fails and the answer is 500. *)
Theorem auto_approve_route_round_trip w chatId r m body b :
  chats w !! chatId = Some r → heap w !! r = Some m →
  get_prop body "enabled" = Some (JBool b) →
  ∃ resp w',
    auto_approve_route chatId body w = (Ok resp, w')
    ∧ resp
      = (if b && bool_decide (is_Some (current_stdin w m))
            && negb (all_printable (pendingApprovals m))
         then res_json 500 (error_body "Failed to set auto-approve")
         else res_json 200 (JObj [("status", JStr "ok"); ("auto_approve", JBool b)]))
    ∧ get_auto_approve_route chatId w'
      = (Ok (res_json 200 (JObj [("chat_id", JStr chatId);
                                 ("auto_approve", JBool b)])), w')
    ∧ (b = false → w' = set_heap (alter (set_autoApprove false) r (heap w)) w).
Proof.
  intros Hc Hh Hen.
  destruct (setAutoApprove_known w chatId r m b Hc Hh)
    as (w' & m' & Hrun & Hc' & Hh' & Ha' & Hoff).
  cbv zeta in Hrun.
  eexists _, w'. split_and!; [| reflexivity | |exact Hoff].
  - unfold auto_approve_route.
    destruct (b && bool_decide (is_Some (current_stdin w m))
              && negb (all_printable (pendingApprovals m))).
    + erewrite try_catch_with_Throw; [apply mret_run|].
      erewrite bind_Ok by (by apply prop_Some). cbv beta iota.
      by erewrite bind_Throw by exact Hrun.
    + apply try_catch_with_Ok.
      erewrite bind_Ok by (by apply prop_Some). cbv beta iota.
      erewrite bind_Ok by exact Hrun. apply mret_run.
  - unfold get_auto_approve_route, getAutoApprove.
    rewrite bind_assoc_run. mstep. rewrite Hc', Hc.
    rewrite bind_assoc_run. erewrite bind_Ok by (by apply read_Some).
    erewrite bind_Ok by apply mret_run. by rewrite mret_run, Ha'.
Qed.

(** X21. What the auto-approve routes refuse.  POST auto-approve answers
    400 when [enabled] is not a boolean (a string or a number is not
    converted) and 404 when the chat is not registered, and changes
    nothing in either case; GET auto-approve for a chat that is not
    registered does not answer 404 but 200 with [auto_approve: false]. *)
Theorem auto_approve_route_refusals w chatId body v :
  get_prop body "enabled" = Some v →
  ((∀ b, v ≠ JBool b) →
   auto_approve_route chatId body w
   = (Ok (res_json 400 (error_body "enabled (boolean) is required")), w))
  ∧ (chats w !! chatId = None →
     (∀ b, v = JBool b →
           auto_approve_route chatId body w
           = (Ok (res_json 404 (error_body "Web chat not found")), w))
     ∧ get_auto_approve_route chatId w
       = (Ok (res_json 200 (JObj [("chat_id", JStr chatId);
                                  ("auto_approve", JBool false)])), w)).
Proof.
  intros Hen. split.
  - intros Hnb. unfold auto_approve_route. apply try_catch_with_Ok.
    erewrite bind_Ok by (by apply prop_Some).
    destruct v as [| |b|n|s|l|l]; try apply mret_run. by destruct (Hnb b).
  - intros Hc. split.
    + intros b ->. unfold auto_approve_route. apply try_catch_with_Ok.
      erewrite bind_Ok by (by apply prop_Some). cbv beta iota.
      erewrite bind_Ok
        by (unfold setAutoApprove; mstep; rewrite Hc; apply mret_run).
      apply mret_run.
    + unfold get_auto_approve_route, getAutoApprove.
      rewrite bind_assoc_run. mstep. rewrite Hc.
      erewrite bind_Ok by apply mret_run. by rewrite mret_run.
Qed.

(** X22. Stopping a chat and cleaning up forgets it.  For a registered
    chat, DELETE answers 200 with status stopped; the cleanup route right
    after removes at least this chat and reports the number; from then on
    the chat id is unknown: DELETE answers 404, [getChat] returns null and
    [sendMessage] returns false. *)
Theorem delete_then_cleanup_forgets_chat w chatId r m :
  chats w !! chatId = Some r → heap w !! r = Some m →
  ∃ w1 w2 n,
    delete_route chatId w
    = (Ok (res_json 200 (JObj [("status", JStr "stopped")])), w1)
    ∧ cleanup_route w1
      = (Ok (res_json 200 (JObj [("cleaned", js_count n)])), w2)
    ∧ (1 ≤ n)%nat
    ∧ chats w2 !! chatId = None
    ∧ delete_route chatId w2
      = (Ok (res_json 404 (error_body "Web chat not found")), w2)
    ∧ getChat chatId w2 = (Ok None, w2)
    ∧ ∀ message0 attachments,
        sendMessage chatId message0 attachments w2 = (Ok false, w2).
Proof.
  intros Hc Hh.
  pose proof (stopChat_known w chatId r m Hc Hh) as Hstop.
  set (w1 := {| chats := chats w;
                heap := alter (set_chat (set_status stopped)) r (heap w);
                procs := stop_children m (procs w);
                emitted := emitted w ++ [chat_status chatId "stopped" None None];
                timers := timers w; clock := clock w |}) in *.
  destruct (cleanup_run w1) as (victims & w2 & Hrun & Hvict & Hlook & _).
  assert (Hin : (chatId, r) ∈ victims).
  { apply Hvict. split; [done|]. unfold removable_at, w1. wsimpl.
    by rewrite list_lookup_alter_eq, Hh. }
  assert (Hgone : chats w2 !! chatId = None).
  { rewrite Hlook. unfold w1 at 1. wsimpl. rewrite Hc.
    unfold removable_at, w1. wsimpl. by rewrite list_lookup_alter_eq, Hh. }
  exists w1, w2, (length victims). split_and!.
  - unfold delete_route. apply try_catch_with_Ok.
    erewrite bind_Ok by exact Hstop. apply mret_run.
  - unfold cleanup_route. erewrite bind_Ok by exact Hrun. apply mret_run.
  - destruct victims; [by apply elem_of_nil in Hin|cbn; lia].
  - exact Hgone.
  - unfold delete_route. apply try_catch_with_Ok.
    erewrite bind_Ok by (unfold stopChat; mstep; rewrite Hgone; apply mret_run).
    apply mret_run.
  - unfold getChat. mstep. by rewrite Hgone.
  - intros message0 attachments. unfold sendMessage. mstep. by rewrite Hgone.
Qed.
End RouteTheorems2.

(** X20 on the captured first turn *)
Lemma auto_approve_route_round_trip_witness :
  ∃ m,
    chats world_first_turn !! "00000000" = Some 0%nat
    ∧ heap world_first_turn !! 0%nat = Some m
    ∧ get_prop (JObj [("enabled", JBool true)]) "enabled" = Some (JBool true)
    ∧ ∃ resp w',
        auto_approve_route (rt := demo_runtime) "00000000"
          (JObj [("enabled", JBool true)]) world_first_turn = (Ok resp, w')
        ∧ resp = res_json 200 (JObj [("status", JStr "ok");
                                     ("auto_approve", JBool true)])
        ∧ get_auto_approve_route "00000000" w'
          = (Ok (res_json 200 (JObj [("chat_id", JStr "00000000");
                                     ("auto_approve", JBool true)])), w')
        ∧ (true = false →
           w' = set_heap (alter (set_autoApprove false) 0%nat
                            (heap world_first_turn)) world_first_turn).
Proof.
  eexists. split; [reflexivity|]. split; [reflexivity|]. split; [reflexivity|].
  exact (auto_approve_route_round_trip (rt := demo_runtime) world_first_turn
           "00000000" 0%nat _ (JObj [("enabled", JBool true)]) true
           eq_refl eq_refl eq_refl).
Defined.

(** X21 on a body whose [enabled] is the string ["true"] *)
Lemma auto_approve_route_refusals_witness :
  get_prop (JObj [("enabled", JStr "true")]) "enabled" = Some (JStr "true")
  ∧ auto_approve_route (rt := demo_runtime) "00000000"
      (JObj [("enabled", JStr "true")]) world_first_turn
    = (Ok (res_json 400 (error_body "enabled (boolean) is required")),
       world_first_turn).
Proof.
  split; [reflexivity|].
  apply (proj1 (auto_approve_route_refusals (rt := demo_runtime) world_first_turn
                  "00000000" (JObj [("enabled", JStr "true")]) (JStr "true")
                  eq_refl)).
  intros b. discriminate.
Defined.

(** X22 on the captured first turn *)
Lemma delete_then_cleanup_forgets_chat_witness :
  ∃ m,
    chats world_first_turn !! "00000000" = Some 0%nat
    ∧ heap world_first_turn !! 0%nat = Some m
    ∧ ∃ w1 w2 n,
        delete_route "00000000" world_first_turn
        = (Ok (res_json 200 (JObj [("status", JStr "stopped")])), w1)
        ∧ cleanup_route w1
          = (Ok (res_json 200 (JObj [("cleaned", js_count n)])), w2)
        ∧ (1 ≤ n)%nat
        ∧ chats w2 !! "00000000" = None
        ∧ delete_route "00000000" w2
          = (Ok (res_json 404 (error_body "Web chat not found")), w2)
        ∧ getChat "00000000" w2 = (Ok None, w2)
        ∧ ∀ message0 attachments,
            sendMessage (rt := demo_runtime) "00000000" message0 attachments w2
            = (Ok false, w2).
Proof.
  eexists. split; [reflexivity|]. split; [reflexivity|].
  exact (delete_then_cleanup_forgets_chat (rt := demo_runtime) world_first_turn
           "00000000" 0%nat _ eq_refl eq_refl).
Defined.

(** ** createChat *)

Section Creation.
Context {rt : Runtime}.

(** X24. [createChat] registers an idle session and starts nothing.  It
    returns a chat with status [running] in the given directory, named as
    asked or [Chat <id>] when the name is absent or empty, whose id is the
    first 8 characters of a fresh UUID; the session is not processing, has
    no pending approval, no child and auto-approve off.  The chat is
    registered under its id (replacing an entry that had the same id; the
    other entries stay), [getChat] finds it, one status event is emitted,
    and no child is spawned and no timer set before the first message. *)
Theorem createChat_registers_idle_session dir chatName sp sid mode w :
  ∃ c m w',
    createChat dir chatName sp sid mode w = (Ok c, w')
    ∧ id c = slice0 8 (randomUUID (clock w))
    ∧ cwd c = dir ∧ status c = running ∧ pid c = None
    ∧ name c = match opt_truthy chatName with
               | Some s => s
               | None => "Chat " +:+ id c
               end
    ∧ heap w' = heap w ++ [m] ∧ chat m = c
    ∧ permissionMode m = mode ∧ systemPrompt m = sp
    ∧ isProcessing m = false ∧ processState m = idle
    ∧ pendingApprovals m = [] ∧ autoApprove m = false
    ∧ currentProcess m = None
    ∧ chats w' !! id c = Some (length (heap w))
    ∧ (∀ k, k ≠ id c → chats w' !! k = chats w !! k)
    ∧ emitted w' = emitted w ++ [chat_status (id c) "running" None None]
    ∧ procs w' = procs w ∧ timers w' = timers w
    ∧ getChat (id c) w' = (Ok (Some c), w').
Proof.
  unfold createChat. mstep.
  destruct (opt_truthy sid) as [s|] eqn:Hs.
  - erewrite bind_Ok by apply mret_run. mstep. mstep. cbv zeta.
    erewrite bind_Ok by reflexivity. wsimpl. mstep. mstep. rewrite mret_run.
    eexists _, _, _. split; [reflexivity|]. wsimpl. cbn [id cwd status pid name chat
      permissionMode systemPrompt isProcessing processState pendingApprovals
      autoApprove currentProcess].
    split_and!; try done.
    + by rewrite lookup_insert_eq.
    + intros k Hk. by rewrite lookup_insert_ne.
    + unfold getChat. mstep. wsimpl. rewrite lookup_insert_eq.
      erewrite bind_Ok by (apply read_Some; wsimpl;
                           by rewrite lookup_app_r, Nat.sub_diag).
      by rewrite mret_run.
  - mstep. mstep. mstep. cbv zeta.
    erewrite bind_Ok by reflexivity. wsimpl. mstep. mstep. rewrite mret_run.
    eexists _, _, _. split; [reflexivity|]. wsimpl. cbn [id cwd status pid name chat
      permissionMode systemPrompt isProcessing processState pendingApprovals
      autoApprove currentProcess].
    split_and!; try done.
    + by rewrite lookup_insert_eq.
    + intros k Hk. by rewrite lookup_insert_ne.
    + unfold getChat. mstep. wsimpl. rewrite lookup_insert_eq.
      erewrite bind_Ok by (apply read_Some; wsimpl;
                           by rewrite lookup_app_r, Nat.sub_diag).
      by rewrite mret_run.
Qed.
End Creation.

(** ** Project folders *)

Section Folders.

Lemma replace_char_twice a b s :
  replace_char a b (replace_char b a s) = replace_char a b s.
Proof.
  induction s as [|c s IH]; cbn [replace_char]; [done|]. rewrite IH. f_equal.
  destruct (Ascii.eqb_spec c b) as [->|Hcb].
  - rewrite Ascii.eqb_refl. by destruct (Ascii.eqb b a).
  - done.
Qed.

Lemma replace_char_absent a b s : has_char a s = false → replace_char a b s = s.
Proof.
  unfold has_char. induction s as [|c s IH]; cbn; [done|].
  intros [Hc Hs]%orb_false_elim. rewrite Ascii.eqb_sym, Hc. by rewrite IH.
Qed.

Lemma replace_char_removes a b s : a ≠ b → has_char a (replace_char a b s) = false.
Proof.
  intros Hab. unfold has_char. induction s as [|c s IH]; cbn; [done|].
  rewrite IH, orb_false_r. destruct (Ascii.eqb_spec c a) as [->|Hca].
  - by apply Ascii.eqb_neq.
  - apply Ascii.eqb_neq. congruence.
Qed.

Lemma replace_char_back a b s :
  has_char b s = false → replace_char b a (replace_char a b s) = s.
Proof.
  unfold has_char. induction s as [|c s IH]; cbn; [done|].
  intros [Hc Hs]%orb_false_elim. rewrite IH by done. f_equal.
  destruct (Ascii.eqb_spec c a) as [->|Hca].
  - by rewrite Ascii.eqb_refl.
  - rewrite Ascii.eqb_sym in Hc. by rewrite Hc.
Qed.

(** The rest after a first character of one byte *)
Lemma slice_from_1_ascii c s : (N_of_ascii c < 128)%N → slice_from_1 (String c s) = s.
Proof. intros Hc%N.ltb_lt. cbn [slice_from_1]. by rewrite Hc. Qed.

Lemma projectFolder_ascii c s :
  (N_of_ascii c < 128)%N →
  projectFolder (String c s) = String "-" (replace_char "/" "-" s).
Proof.
  intros Hc. unfold projectFolder. cbn [replace_char].
  rewrite slice_from_1_ascii; [done|]. by destruct (Ascii.eqb c "/").
Qed.

Lemma naiveFolderDecode_ascii c s :
  (N_of_ascii c < 128)%N →
  naiveFolderDecode (String c s) = String "/" (replace_char "-" "/" s).
Proof. intros Hc. unfold naiveFolderDecode. by rewrite slice_from_1_ascii. Qed.

(** X25. Folder names and working directories round-trip only without
    hyphens and slashes.  For a working directory that starts with a slash
    and contains no hyphen, decoding the project folder the transcript
    route computes gives the directory back; and for a folder name that
    starts with a hyphen and contains no slash, the project folder of its
    decoded directory is the folder again. *)
Theorem project_folder_round_trip rest :
  (has_char "-" rest = false →
   naiveFolderDecode (projectFolder (String "/" rest)) = String "/" rest)
  ∧ (has_char "/" rest = false →
     projectFolder (naiveFolderDecode (String "-" rest)) = String "-" rest).
Proof.
  split.
  - intros Hh. rewrite projectFolder_ascii, naiveFolderDecode_ascii by done.
    by rewrite replace_char_back.
  - intros Hs. rewrite naiveFolderDecode_ascii, projectFolder_ascii by done.
    by rewrite replace_char_twice, (replace_char_absent "/" "-" rest Hs).
Qed.

(** X26. The folder name does not determine the directory.  The project
    folder of a directory is unchanged when hyphens in the directory are
    replaced by slashes, and it ignores the first character (stated here
    for a first character of one byte, as a slash is); the decoded
    directory never contains a hyphen, so a directory with a hyphen in a
    name is not what [naiveFolderDecode] returns for its folder. *)
Theorem project_folder_collisions dir :
  projectFolder (replace_char "-" "/" dir) = projectFolder dir
  ∧ (∀ c rest, dir = String c rest → (N_of_ascii c < 128)%N →
               projectFolder dir = projectFolder (String "/" rest))
  ∧ has_char "-" (naiveFolderDecode dir) = false.
Proof.
  split_and!.
  - unfold projectFolder. by rewrite replace_char_twice.
  - intros c rest -> Hc. by rewrite !projectFolder_ascii.
  - unfold naiveFolderDecode, has_char. cbn -[replace_char].
    by apply replace_char_removes.
Qed.
End Folders.

(** X25 on the directory of the captured chat *)
Lemma project_folder_round_trip_witness :
  has_char "-" "srv/project" = false
  ∧ naiveFolderDecode (projectFolder "/srv/project") = "/srv/project".
Proof.
  split; [reflexivity|].
  exact (proj1 (project_folder_round_trip "srv/project") eq_refl).
Defined.

(** X26 on a directory with a hyphen in a name *)
Lemma project_folder_collisions_witness :
  (N_of_ascii "~"%char < 128)%N
  ∧ projectFolder "~srv/my-app" = projectFolder "/srv/my-app"
  ∧ projectFolder "/srv/my/app" = projectFolder "/srv/my-app"
  ∧ has_char "-" (naiveFolderDecode (projectFolder "/srv/my-app")) = false.
Proof.
  split; [reflexivity|].
  split; [exact (proj1 (proj2 (project_folder_collisions "~srv/my-app"))
                   "~"%char "srv/my-app" eq_refl eq_refl)|].
  split; [exact (proj1 (project_folder_collisions "/srv/my-app"))|].
  exact (proj2 (proj2 (project_folder_collisions (projectFolder "/srv/my-app")))).
Defined.

(** ** A malformed block in an assistant message *)

Section MalformedBlock.
Context {rt : Runtime}.

Lemma assistant_block_malformed chatId ts block w :
  block_well_formed block = false →
  assistant_block chatId ts block w = (Throw TypeError, w).
Proof.
  unfold block_well_formed, assistant_block. intros Hwf.
  destruct (get_prop block "type") as [ty|] eqn:Hty.
  2: { apply bind_Throw. by apply prop_None. }
  assert (Hprop : ∀ k, get_prop block k = Some (opt_prop block k))
    by (intros k; by eapply get_prop_opt_prop).
  erewrite bind_Ok by (by apply prop_Some).
  destruct (strict_eq_str ty "text").
  - erewrite bind_Ok by (by apply prop_Some).
    destruct (log_slice (opt_prop block "text")) as [shown|].
    + mstep. apply bind_Throw. apply console_log_None. by apply printable_None.
    + by apply bind_Throw.
  - destruct (strict_eq_str ty "tool_use"); [|done].
    erewrite bind_Ok by (by apply prop_Some).
    apply bind_Throw. apply console_log_None. by apply printable_None.
Qed.

(** X27. A malformed block ends the handling of an assistant line half
    way.  When the content of an assistant message has well-formed blocks
    followed by a block that is not (it is [null], or a text block whose
    text has no [slice] or cannot be written to the log, or a tool use
    whose name cannot be written to the log), the handler emits the
    entries of the blocks before it, in order, and nothing for the
    malformed block and the blocks after it; the exception does not leave
    the handler, and no session changes. *)
Theorem assistant_line_stops_at_malformed_block
  w line r chatId msg good bad rest :
  JSON_parse line = Some msg →
  strict_eq_str (opt_prop msg "type") "assistant" = true →
  opt_prop (opt_prop msg "message") "content" = JArr (good ++ bad :: rest) →
  Forall (λ b, block_well_formed b = true) good →
  block_well_formed bad = false →
  ∃ w' msgs,
    handleStreamLine line r chatId w = (Ok tt, w')
    ∧ emitted w' = emitted w ++ map transcript_entry msgs
    ∧ map entry_kind msgs = omap block_entry good
    ∧ same_sessions w w'.
Proof.
  intros Hparse Hty Hcontent Hgood Hbad.
  pose proof (typed_message_props _ _ _ Hty) as Hprop.
  destruct (assistant_blocks_run chatId (Date_toISOString (clock w)) good Hgood
              (set_clock (S (clock w)) w))
    as (w1 & msgs & Hrun & He & Hk & _ & Hs).
  exists w1, msgs. split; [|by split_and!].
  assert (Hloop : for_of (good ++ bad :: rest)
                    (assistant_block chatId (Date_toISOString (clock w)))
                    (set_clock (S (clock w)) w) = (Throw TypeError, w1)).
  { clear -Hrun Hbad. revert Hrun. generalize (set_clock (S (clock w)) w).
    induction good as [|b good IH]; intros w0 Hrun; cbn [app for_of] in *.
    - rewrite mret_run in Hrun. injection Hrun as <-.
      apply bind_Throw. by apply assistant_block_malformed.
    - unfold mbind, M_bind in *.
      destruct (assistant_block chatId (Date_toISOString (clock w)) b w0)
        as [[[]|e] w0']; [|done]. by apply IH. }
  unfold handleStreamLine. rewrite try_catch_run, Hparse. f_equal.
  mstep. mstep.
  do 2 (erewrite bind_Ok by (by apply prop_Some)).
  rewrite (strict_eq_str_other _ _ "system" Hty) by done.
  rewrite (strict_eq_str_other _ _ "control_request" Hty) by done.
  rewrite Hty. cbn [andb].
  erewrite bind_Ok by (by apply prop_Some).
  rewrite Hcontent. cbn [truthy]. rewrite when_true.
  erewrite bind_Throw; [reflexivity|].
  erewrite bind_Ok by (apply lift_opt_Some). exact Hloop.
Qed.
End MalformedBlock.

(** X27 on a message whose second block has no text *)
Lemma assistant_line_stops_at_malformed_block_witness :
  JSON_parse (Runtime := demo_runtime_broken) (line_of msg_assistant_broken)
  = Some msg_assistant_broken
  ∧ block_well_formed (JObj [("type", JStr "text")]) = false
  ∧ ∃ w' msgs,
      handleStreamLine (rt := demo_runtime_broken) (line_of msg_assistant_broken)
        0 "00000000" world_first_turn = (Ok tt, w')
      ∧ emitted w' = emitted world_first_turn ++ map transcript_entry msgs
      ∧ map entry_kind msgs
        = [(ty_assistant, AssistantContent (JStr "Listing the files."))]
      ∧ same_sessions world_first_turn w'.
Proof.
  assert (Hparse : JSON_parse (Runtime := demo_runtime_broken)
                     (line_of msg_assistant_broken)
                   = Some msg_assistant_broken) by (vm_compute; reflexivity).
  assert (Hgood : Forall (λ b, block_well_formed b = true)
                    [text_block "Listing the files."])
    by (constructor; [reflexivity|constructor]).
  split; [exact Hparse|]. split; [reflexivity|].
  exact (assistant_line_stops_at_malformed_block (rt := demo_runtime_broken)
           world_first_turn (line_of msg_assistant_broken) 0%nat "00000000"
           msg_assistant_broken [text_block "Listing the files."]
           (JObj [("type", JStr "text")])
           [tool_use_block "toolu_01" "Bash" (JObj [("command", JStr "ls /tmp")])]
           Hparse eq_refl eq_refl
           Hgood eq_refl).
Defined.
